(** * CMS Compliance Assistant: chunking, retrieval scoring, rules and merging

    A shallow embedding of the algorithmic core of the repository:
    - [backend/ingestion/chunker.py]   (module [Chunker]),
    - [backend/retrieval/search.py]    (module [SemanticSearch]),
    - [backend/validation/rules.py]    (module [Rules]),
    - [backend/validation/validator.py] (modules [Validator] and
      [NoteValidator]),
    - [backend/ingestion/pdf_processor.py] (module [PDFProcessor]),
    - [backend/llm/prompts.py] and [backend/llm/chains.py] (modules
      [Prompts] and [LLMChain]),
    - [backend/ingestion/embedder.py]  (module [Embedder]),
    - [backend/retrieval/vector_store.py] (module [VectorStore]).

    Conventions of the embedding.
    - Python [str] is [string]; the text primitives ([lower], [strip],
      [isspace], the [re] character classes) are modelled on the 7-bit
      ASCII range, bytes above 127 being caseless, non-blank, non-digit.
    - Python [int] is [Z]; [len] is [Z.of_nat] of the length.
    - Python [float] scores are the rationals [Q] that binary64 values
      denote: the order and the clamps are those of the code; the
      additions of the keyword boost round as binary64 does
      ([SemanticSearch.float_add]); the subtraction of the similarity
      is taken exactly. The compliance score only ever holds integers
      and is a [Z].
    - The tokenizer, the embedding provider and the vector index are
      external collaborators and are parameters of the sections.
    - Mutable list objects that a function shares with its caller live
      in an explicit store ([Validator.heap]). *)

From Stdlib Require Import String Ascii ZArith QArith Qminmax Lqa List Lia Bool.
From Stdlib Require Import Sorted Permutation DecimalString.
From stdpp Require Import base list.
Import ListNotations.

Local Open Scope string_scope.

(** ** Python text primitives *)
Module PyStr.

Definition code (c : ascii) : nat := nat_of_ascii c.

Definition between (lo hi n : nat) : bool := Nat.leb lo n && Nat.leb n hi.

(** [str.isspace] and the class [\s] on ASCII: TAB..CR, FS..US, SPACE. *)
Definition isspace (c : ascii) : bool :=
  between 9 13 (code c) || between 28 32 (code c).

(** The class [\d] on ASCII. *)
Definition isdigit (c : ascii) : bool := between 48 57 (code c).
Definition isupper (c : ascii) : bool := between 65 90 (code c).
Definition islower (c : ascii) : bool := between 97 122 (code c).
Definition iscased (c : ascii) : bool := isupper c || islower c.

Definition lower_char (c : ascii) : ascii :=
  if isupper c then ascii_of_nat (code c + 32) else c.
Definition upper_char (c : ascii) : ascii :=
  if islower c then ascii_of_nat (code c - 32) else c.

Fixpoint map_chars (f : ascii -> ascii) (s : string) : string :=
  match s with
  | EmptyString => EmptyString
  | String c s' => String (f c) (map_chars f s')
  end.

(** [s.lower()] *)
Definition lower (s : string) : string := map_chars lower_char s.

(** [s.replace(old, new)] for one-character [old] and [new]. *)
Definition replace_char (old new : ascii) (s : string) : string :=
  map_chars (fun c => if Ascii.eqb c old then new else c) s.

(** [s.title()]: a cased character is upper-cased when the character
    before it is not cased, lower-cased otherwise. *)
Fixpoint title_from (previous_is_cased : bool) (s : string) : string :=
  match s with
  | EmptyString => EmptyString
  | String c s' =>
      String (if previous_is_cased then lower_char c else upper_char c)
             (title_from (iscased c) s')
  end.
Definition title (s : string) : string := title_from false s.

Fixpoint lstrip (s : string) : string :=
  match s with
  | EmptyString => EmptyString
  | String c s' => if isspace c then lstrip s' else s
  end.

Fixpoint rstrip (s : string) : string :=
  match s with
  | EmptyString => EmptyString
  | String c s' =>
      match rstrip s' with
      | EmptyString => if isspace c then EmptyString else String c EmptyString
      | r => String c r
      end
  end.

(** [s.strip()] *)
Definition strip (s : string) : string := rstrip (lstrip s).

(** [sub in s] *)
Fixpoint contains (sub s : string) : bool :=
  String.prefix sub s ||
  match s with
  | EmptyString => false
  | String _ s' => contains sub s'
  end.

(** [sep.join(parts)] *)
Definition join (sep : string) (parts : list string) : string :=
  String.concat sep parts.

(** Truthiness of a string: [if s:] *)
Definition nonempty (s : string) : bool :=
  match s with EmptyString => false | _ => true end.

(** [len(s)] *)
Definition len (s : string) : Z := Z.of_nat (String.length s).

Fixpoint drop (n : nat) (s : string) : string :=
  match n, s with
  | S k, String _ s' => drop k s'
  | _, _ => s
  end.

(** Length of the longest blank prefix: a greedy [\s*]. *)
Fixpoint ws_prefix_len (s : string) : nat :=
  match s with
  | String c s' => if isspace c then S (ws_prefix_len s') else 0
  | EmptyString => 0
  end.

(** *** Leftmost, non-overlapping regular-expression scans

    A pattern is given by its matcher: from the character before the
    current position (for look-behind) and the text at that position
    it returns the length of the match starting there, [0] for none.
    None of the patterns of the repository matches the empty string. *)
Definition matcher := option ascii -> string -> nat.

(** [re.split(pattern, s)], scanning from a position with [skip]
    characters of the current match still to be consumed. *)
Fixpoint re_split_from (m : matcher) (prev : option ascii) (skip : nat)
    (s : string) : list string :=
  match s with
  | EmptyString => [EmptyString]
  | String c s' =>
      match skip with
      | S k => re_split_from m (Some c) k s'
      | O =>
          match m prev s with
          | S k => EmptyString :: re_split_from m (Some c) k s'
          | O =>
              match re_split_from m (Some c) 0 s' with
              | p :: ps => String c p :: ps
              | [] => [String c EmptyString]
              end
          end
      end
  end.
Definition re_split (m : matcher) (s : string) : list string :=
  re_split_from m None 0 s.

(** [re.findall(pattern, s)] for a pattern whose single group is the
    whole match. *)
Fixpoint re_findall_from (m : matcher) (prev : option ascii) (skip : nat)
    (s : string) : list string :=
  match s with
  | EmptyString => []
  | String c s' =>
      match skip with
      | S k => re_findall_from m (Some c) k s'
      | O =>
          match m prev s with
          | S k => substring 0 (S k) s :: re_findall_from m (Some c) k s'
          | O => re_findall_from m (Some c) 0 s'
          end
      end
  end.
Definition re_findall (m : matcher) (s : string) : list string :=
  re_findall_from m None 0 s.

(** Decimal rendering of an integer, as [str(n)] and [f"{n}"]. *)
Definition str_of_Z (n : Z) : string := NilZero.string_of_int (Z.to_int n).

End PyStr.

(** ** The rule engine: [backend/validation/rules.py] *)

(** A violation dictionary; every producer in the repository fills the
    same five string-valued keys. *)
Record Violation := mkViolation {
  category : string;
  severity : string;
  description : string;
  recommendation : string;
  guideline_reference : string
}.

Module Rules.
Import PyStr.

(** The class attribute [REQUIRED_ELEMENTS], in insertion order. *)
Definition REQUIRED_ELEMENTS : list (string * list string) :=
  [ ("patient_info", ["patient"; "name"; "age"; "dob"]);
    ("visit_date", ["date"]);
    ("visit_type", ["visit type"; "skilled nursing"; "physical therapy";
                    "occupational therapy"]);
    ("assessment", ["assessment"; "evaluation"; "status"]);
    ("interventions", ["intervention"; "treatment"; "care provided"]);
    ("vital_signs", ["vital signs"; "bp"; "blood pressure"; "temperature";
                     "pulse"; "heart rate"]);
    ("plan", ["plan"; "plan of care"; "continuing"]);
    ("nurse_signature", ["rn"; "nurse"; "signature"; "signed"]);
    ("time_in_out", ["time in"; "time out"; "arrival"; "departure"]) ].

Definition HOMEBOUND_KEYWORDS : list string :=
  [ "homebound"; "unable to leave home"; "confined to home";
    "wheelchair bound"; "walker"; "assistance to leave"; "taxing effort" ].

Definition MEDICAL_NECESSITY_KEYWORDS : list string :=
  [ "skilled"; "assessment"; "evaluation"; "teaching"; "monitoring";
    "wound care"; "medication management"; "observation" ].

(** [x in xs] on a list of strings. *)
Definition in_list (x : string) (xs : list string) : bool :=
  existsb (String.eqb x) xs.

(** [any(keyword in text for keyword in keywords)] *)
Definition any_keyword_in (keywords : list string) (text : string) : bool :=
  existsb (fun keyword => contains keyword text) keywords.

(** [sum(1 for keyword in keywords if keyword in text)] *)
Definition count_keywords_in (keywords : list string) (text : string) : Z :=
  fold_left (fun (acc : Z) keyword =>
               if contains keyword text then (acc + 1)%Z else acc)
            keywords 0%Z.

Definition missing_element (element_type : string) : Violation :=
  {| category := element_type;
     severity := if in_list element_type ["assessment"; "interventions"; "plan"]
                 then "major" else "minor";
     description := "Missing required element: "
                    ++ title (replace_char "_" " " element_type);
     recommendation := "Include " ++ replace_char "_" " " element_type
                       ++ " in the visit note";
     guideline_reference := "CMS Medicare Benefit Policy Manual" |}.

Definition check_required_elements (note_text : string) : list Violation :=
  let note_lower := lower note_text in
  fold_left
    (fun violations '(element_type, keywords) =>
       let found := any_keyword_in keywords note_lower in
       if negb found then (violations ++ [missing_element element_type])%list
       else violations)
    REQUIRED_ELEMENTS [].

Definition check_homebound_status (note_text : string) : list Violation :=
  let note_lower := lower note_text in
  let has_homebound := any_keyword_in HOMEBOUND_KEYWORDS note_lower in
  if negb has_homebound then
    [ {| category := "homebound_status";
         severity := "critical";
         description := "Missing homebound status documentation";
         recommendation := "Document patient's homebound status, including why patient cannot leave home or requires taxing effort to leave";
         guideline_reference := "Section 30.1.1 - Homebound Requirement" |} ]
  else [].

Definition check_medical_necessity (note_text : string) : list Violation :=
  let note_lower := lower note_text in
  let necessity_count := count_keywords_in MEDICAL_NECESSITY_KEYWORDS note_lower in
  if (necessity_count <? 2)%Z then
    [ {| category := "medical_necessity";
         severity := "critical";
         description := "Insufficient medical necessity documentation";
         recommendation := "Clearly document skilled nursing services provided and why they are medically necessary";
         guideline_reference := "Section 40 - Covered Services" |} ]
  else [].

(** [:\d{2}\s*(?:AM|PM|am|pm)?], the part of the time pattern after
    the hour digits. *)
Definition time_tail (s : string) : option nat :=
  match s with
  | String c (String d1 (String d2 r)) =>
      if Ascii.eqb c ":" && isdigit d1 && isdigit d2 then
        let w := ws_prefix_len r in
        let r' := drop w r in
        let meridiem :=
          String.prefix "AM" r' || String.prefix "PM" r' ||
          String.prefix "am" r' || String.prefix "pm" r' in
        Some (3 + w + (if meridiem then 2 else 0))%nat
      else None
  | _ => None
  end.

(** [(\d{1,2}:\d{2}\s*(?:AM|PM|am|pm)?)]: two hour digits are tried
    first, one on backtracking. *)
Definition time_pattern : matcher := fun _ s =>
  match s with
  | String a r1 =>
      if isdigit a then
        let two_digits :=
          match r1 with
          | String b r2 => if isdigit b then time_tail r2 else None
          | EmptyString => None
          end in
        match two_digits with
        | Some n => (2 + n)%nat
        | None => match time_tail r1 with
                  | Some n => (1 + n)%nat
                  | None => 0%nat
                  end
        end
      else 0%nat
  | EmptyString => 0%nat
  end.

Definition check_visit_duration (note_text : string) : list Violation :=
  let times := re_findall time_pattern note_text in
  if (Z.of_nat (length times) <? 2)%Z then
    [ {| category := "visit_details";
         severity := "minor";
         description := "Visit start and end times not clearly documented";
         recommendation := "Document specific time in and time out for the visit";
         guideline_reference := "Documentation Requirements" |} ]
  else [].

Definition validate_note (note_text : string) : list Violation :=
  let all_violations : list Violation := [] in
  let all_violations := (all_violations ++ check_required_elements note_text)%list in
  let all_violations := (all_violations ++ check_homebound_status note_text)%list in
  let all_violations := (all_violations ++ check_medical_necessity note_text)%list in
  let all_violations := (all_violations ++ check_visit_duration note_text)%list in
  all_violations.

End Rules.

(** ** Python list slices and call outcomes *)
Module PyList.

(** [l[:n]] *)
Definition slice_to {A} (n : Z) (l : list A) : list A :=
  let len := Z.of_nat (length l) in
  let stop := if (n <? 0)%Z then Z.max 0 (n + len) else Z.min n len in
  firstn (Z.to_nat stop) l.

(** [l[n:]] *)
Definition slice_from {A} (n : Z) (l : list A) : list A :=
  let len := Z.of_nat (length l) in
  let start := if (n <? 0)%Z then Z.max 0 (n + len) else Z.min n len in
  skipn (Z.to_nat start) l.

End PyList.

(** A call either returns a value or raises. *)
Inductive exn := IndexError | ValueError (msg : string).

Inductive outcome (A : Type) :=
| Return (a : A)
| Raise (e : exn).
Arguments Return {A} a.
Arguments Raise {A} e.

Definition obind {A B} (m : outcome A) (k : A -> outcome B) : outcome B :=
  match m with
  | Return a => k a
  | Raise e => Raise e
  end.

(** ** Retrieval scoring: [backend/retrieval/search.py] *)
Module SemanticSearch.
Import PyStr PyList.

(** [a < b] on scores. *)
Definition Qltb (a b : Q) : bool := negb (Qle_bool b a).

(** The builtin [min(a, b)]: the first argument unless the second is
    strictly smaller. *)
Definition py_min (a b : Q) : Q := if Qltb b a then b else a.

(** The metadata dictionary stored with a chunk; any key may be absent. *)
Record Metadata := mkMetadata {
  md_page_number : option Z;
  md_section_header : option string;
  md_chunk_id : option Z
}.

Definition empty_metadata : Metadata :=
  {| md_page_number := None; md_section_header := None; md_chunk_id := None |}.

(** The dictionary returned by the vector index: grouped arrays, one
    group per query embedding; [None] is an absent key. *)
Record RawResults := mkRawResults {
  documents : option (list (list string));
  metadatas : option (list (list Metadata));
  distances : option (list (list Q))
}.

Record SearchResult := mkSearchResult {
  text : string;
  page_number : option Z;
  section_header : string;
  similarity_score : Q;
  distance : Q;
  chunk_id : option Z
}.

(** [results.get(key, [[]])[0]] *)
Definition first_group {A} (groups : option (list (list A))) : outcome (list A) :=
  match groups with
  | None => Return []
  | Some [] => Raise IndexError
  | Some (g :: _) => Return g
  end.

Definition format_one (metadatas : list Metadata) (distances : list Q)
    (i : nat) (doc : string) : SearchResult :=
  let metadata := match metadatas !! i with Some m => m | None => empty_metadata end in
  let distance := match distances !! i with Some d => d | None => 1%Q end in
  let similarity_score := (1 - py_min distance 1)%Q in
  {| text := doc;
     page_number := md_page_number metadata;
     section_header := default "" (md_section_header metadata);
     similarity_score := similarity_score;
     distance := distance;
     chunk_id := md_chunk_id metadata |}.

Definition _format_results (results : RawResults) : outcome (list SearchResult) :=
  match documents results with
  | None | Some [] | Some ([] :: _) => Return []
  | Some (documents0 :: _) =>
      obind (first_group (metadatas results)) (fun metadatas0 =>
      obind (first_group (distances results)) (fun distances0 =>
      Return (imap (format_one metadatas0 distances0) documents0)))
  end.

(** *** Binary64 addition

    A float is the rational it denotes. The sum of two floats is the
    exact sum rounded to the nearest rational with a significand of 53
    bits, ties to the even significand, with the gradual underflow of
    binary64; adding zero changes nothing. Sums of scores and boosts
    stay far below the overflow threshold, which is left out. *)

(** [2 ** e] *)
Definition pow2 (e : Z) : Q :=
  if (0 <=? e)%Z then inject_Z (2 ^ e) else 1 # Z.to_pos (2 ^ (- e)).

(** The integer nearest to a non-negative rational, ties to even. *)
Definition round_half_even (q : Q) : Z :=
  let n := Qnum q in
  let d := Zpos (Qden q) in
  let below := (n / d)%Z in
  match (2 * (n mod d) ?= d)%Z with
  | Lt => below
  | Gt => (below + 1)%Z
  | Eq => if Z.even below then below else (below + 1)%Z
  end.

(** [floor(log2(q))] for a positive rational. *)
Definition floor_log2 (q : Q) : Z :=
  let e := (Z.log2 (Qnum q) - Z.log2 (Zpos (Qden q)))%Z in
  if Qle_bool (pow2 e) q then e else (e - 1)%Z.

(** The binary64 value nearest to a rational. *)
Definition round64 (q : Q) : Q :=
  if Qeq_bool q 0 then 0%Q
  else
    let a := if Qle_bool 0 q then q else (- q)%Q in
    let p := Z.max (floor_log2 a - 52) (-1074) in
    let r := (inject_Z (round_half_even (a / pow2 p)) * pow2 p)%Q in
    Qred (if Qle_bool 0 q then r else (- r)%Q).

(** [a + b] on floats. *)
Definition float_add (a b : Q) : Q :=
  if Qeq_bool b 0 then a
  else if Qeq_bool a 0 then b
  else round64 (a + b).

(** The literal [0.1]: the binary64 value nearest to one tenth,
    [0x1.999999999999ap-4]. *)
Definition tenth : Q := round64 (1 # 10).

(** [keyword_boost], accumulated over the keywords in order: it starts
    at [0] and [keyword_boost += 0.1] is a float addition. *)
Definition keyword_boost (keywords : list string) (text_lower : string) : Q :=
  fold_left
    (fun boost keyword =>
       if contains (lower keyword) text_lower then float_add boost tenth else boost)
    keywords 0%Q.

Definition boost_result (keywords : list string) (result : SearchResult) : SearchResult :=
  let text_lower := lower (text result) in
  {| text := text result;
     page_number := page_number result;
     section_header := section_header result;
     similarity_score :=
       py_min (float_add (similarity_score result)
                         (keyword_boost keywords text_lower)) 1%Q;
     distance := distance result;
     chunk_id := chunk_id result |}.

(** [list.sort(key=similarity_score, reverse=True)]: a stable sort,
    here by insertion; an element goes in front of the first one whose
    score is not strictly greater. *)
Fixpoint insert_desc (r : SearchResult) (sorted : list SearchResult)
    : list SearchResult :=
  match sorted with
  | [] => [r]
  | x :: rest =>
      if Qltb (similarity_score r) (similarity_score x)
      then x :: insert_desc r rest
      else r :: sorted
  end.

Definition sort_desc (results : list SearchResult) : list SearchResult :=
  foldr insert_desc [] results.

Section WithProviders.
(** [EmbeddingGenerator.generate_single_embedding]: [None] when the
    provider call fails. *)
Variable generate_single_embedding : string -> option (list Q).
(** [VectorStore.search]: raises when no collection is open. *)
Variable vector_store_search :
  list Q -> Z -> option (list (string * string)) -> outcome RawResults.

Definition search (query : string) (n_results : Z)
    (filter_metadata : option (list (string * string)))
    : outcome (list SearchResult) :=
  match generate_single_embedding query with
  | None => Return []
  | Some query_embedding =>
      obind (vector_store_search query_embedding n_results filter_metadata)
            _format_results
  end.

Definition hybrid_search (query : string) (n_results : Z)
    (keywords : option (list string)) : outcome (list SearchResult) :=
  obind (search query (n_results * 2) None) (fun semantic_results =>
    match keywords with
    | None | Some [] => Return (slice_to n_results semantic_results)
    | Some keywords =>
        let boosted := map (boost_result keywords) semantic_results in
        Return (slice_to n_results (sort_desc boosted))
    end).
End WithProviders.

End SemanticSearch.

(** ** Merging and scoring: [backend/validation/validator.py] *)
Module Validator.
Import PyStr PyList.

(** *** The store of list objects

    [_combine_results] receives list objects by reference, copies one,
    may extend another in place and hands list objects back inside its
    result. A list object is named by its address in the store. *)
Inductive pylist :=
| ViolationList (vs : list Violation)
| StrList (ss : list string).

Abbreviation loc := nat.
Abbreviation heap := (list pylist).

(** A computation over the store; [None] stands for a dangling
    address or a list of the wrong kind, which a well-formed call
    never meets. *)
Definition M (A : Type) : Type := heap -> option (A * heap).

Definition ret {A} (a : A) : M A := fun h => Some (a, h).
Definition bind {A B} (m : M A) (k : A -> M B) : M B :=
  fun h => match m h with
           | Some (a, h') => k a h'
           | None => None
           end.
Definition fail {A} : M A := fun _ => None.

Notation "x <- m ;; k" := (bind m (fun x => k))
  (at level 100, m at next level, right associativity).
Notation "m ;;; k" := (bind m (fun _ => k))
  (at level 100, right associativity).

(** A new list object, at a fresh address. *)
Definition new_list (o : pylist) : M loc :=
  fun h => Some (length h, (h ++ [o])%list).

Definition load_violations (l : loc) : M (list Violation) :=
  fun h => match h !! l with
           | Some (ViolationList vs) => Some (vs, h)
           | _ => None
           end.

Definition load_strs (l : loc) : M (list string) :=
  fun h => match h !! l with
           | Some (StrList ss) => Some (ss, h)
           | _ => None
           end.

(** [l.append(v)], in place. *)
Definition append_violation (l : loc) (v : Violation) : M unit :=
  fun h => match h !! l with
           | Some (ViolationList vs) =>
               Some (tt, <[l := ViolationList (vs ++ [v])%list]> h)
           | _ => None
           end.

Definition append_str (l : loc) (s : string) : M unit :=
  fun h => match h !! l with
           | Some (StrList ss) => Some (tt, <[l := StrList (ss ++ [s])%list]> h)
           | _ => None
           end.

(** [for x in xs: body(x)] *)
Fixpoint for_each {A} (xs : list A) (body : A -> M unit) : M unit :=
  match xs with
  | [] => ret tt
  | x :: rest => body x ;;; for_each rest body
  end.

(** [d.get(key, [])]: the list stored under the key, or a new empty
    list when the key is absent. *)
Definition get_or_new (entry : option loc) (empty : pylist) : M loc :=
  match entry with
  | Some l => ret l
  | None => new_list empty
  end.

(** *** Arguments and result *)

(** The dictionary returned by [LLMChain.validate_note]; the two keys
    read with [.get] may be absent. *)
Record LLMResult := mkLLMResult {
  llm_status : string;
  llm_overall_score : Z;
  llm_violations : option loc;
  llm_strengths : option loc;
  llm_summary : string
}.

Record GuidelineReference := mkGuidelineReference {
  ref_text : string;
  ref_page_number : option Z;
  ref_section_header : string
}.

Record ComplianceResult := mkComplianceResult {
  status : string;
  overall_score : Z;
  violations : loc;
  strengths : loc;
  summary : string;
  guideline_references : list GuidelineReference
}.

(** *** Scoring *)

(** [sum(1 for v in violations if v.get('severity') == sev)] *)
Definition count_severity (sev : string) (vs : list Violation) : Z :=
  fold_left (fun (n : Z) v => if String.eqb (severity v) sev then (n + 1)%Z else n)
            vs 0%Z.

(** The builtin [max(a, b)]: the first argument unless the second is
    strictly larger. *)
Definition py_max (a b : Z) : Z := if (a <? b)%Z then b else a.

(** The score starts at [100.0] and loses integer amounts: it is
    positive only for fewer than twenty counted violations, where
    binary64 is exact, and is clamped to 0 otherwise. *)
Definition compute_score (critical_count major_count minor_count : Z) : Z :=
  let score := 100%Z in
  let score := (score - critical_count * 30)%Z in
  let score := (score - major_count * 15)%Z in
  let score := (score - minor_count * 5)%Z in
  py_max 0 score.

Definition determine_status (critical_count major_count score : Z) : string :=
  if (0 <? critical_count)%Z || (score <? 60)%Z then "non_compliant"
  else if (2 <? major_count)%Z || (score <? 80)%Z then "needs_review"
  else "compliant".

(** [f"{score:.1f}"] for the integer-valued, non-negative score. *)
Definition format_score (score : Z) : string := str_of_Z score ++ ".0".

Definition _create_summary (status : string) (score : Z)
    (violations : list Violation) (strengths : list string) : string :=
  let summary_parts : list string :=
    if String.eqb status "compliant" then
      ["This visit note is COMPLIANT with CMS guidelines (Score: "
         ++ format_score score ++ "/100)."]
    else if String.eqb status "needs_review" then
      ["This visit note NEEDS REVIEW (Score: " ++ format_score score ++ "/100)."]
    else
      ["This visit note is NON-COMPLIANT with CMS guidelines (Score: "
         ++ format_score score ++ "/100)."] in
  let summary_parts :=
    match violations with
    | [] => summary_parts
    | _ =>
        let critical := count_severity "critical" violations in
        let major := count_severity "major" violations in
        let minor := count_severity "minor" violations in
        let viol_text :=
          "Found " ++ str_of_Z (Z.of_nat (length violations)) ++ " issue(s): " in
        let parts : list string := [] in
        let parts := if (0 <? critical)%Z
                     then (parts ++ [(str_of_Z critical ++ " critical")%string])%list else parts in
        let parts := if (0 <? major)%Z
                     then (parts ++ [(str_of_Z major ++ " major")%string])%list else parts in
        let parts := if (0 <? minor)%Z
                     then (parts ++ [(str_of_Z minor ++ " minor")%string])%list else parts in
        (summary_parts ++ [(viol_text ++ join ", " parts ++ ".")%string])%list
    end in
  let summary_parts :=
    match strengths with
    | [] => summary_parts
    | _ => (summary_parts
              ++ [("Strengths: " ++ str_of_Z (Z.of_nat (length strengths))
                     ++ " well-documented aspect(s).")%string])%list
    end in
  join " " summary_parts.

Definition guideline_reference_of (g : SemanticSearch.SearchResult) : GuidelineReference :=
  {| ref_text := substring 0 200 (SemanticSearch.text g) ++ "...";
     ref_page_number := SemanticSearch.page_number g;
     ref_section_header := SemanticSearch.section_header g |}.

(** *** [_combine_results] *)

(** [any(v.get('category') == llm_v.get('category') for v in all_violations)] *)
Definition is_duplicate (llm_v : Violation) (all_violations : list Violation) : bool :=
  existsb (fun v => String.eqb (category v) (category llm_v)) all_violations.

(** The lines under [# Combine violations]: a copy of the rule list,
    extended in place by every model violation whose category is not
    yet present. Gives the new list object and what it holds. *)
Definition combine_violations (rule_violations : loc) (llm_result : LLMResult)
    : M (loc * list Violation) :=
  (* all_violations = rule_violations.copy() *)
  rules <- load_violations rule_violations ;;
  all_violations <- new_list (ViolationList rules) ;;
  (* llm_violations = llm_result.get('violations', []) *)
  llm_violations <- get_or_new (llm_violations llm_result) (ViolationList []) ;;
  llm_vs <- load_violations llm_violations ;;
  for_each llm_vs (fun llm_v =>
    seen <- load_violations all_violations ;;
    if negb (is_duplicate llm_v seen)
    then append_violation all_violations llm_v
    else ret tt) ;;;
  merged <- load_violations all_violations ;;
  ret (all_violations, merged).

(** The lines under [# Get strengths from LLM result] and
    [# If no violations found, note good documentation]. *)
Definition collect_strengths (llm_result : LLMResult)
    (all_violations : list Violation) : M (loc * list string) :=
  (* strengths = llm_result.get('strengths', []) *)
  strengths <- get_or_new (llm_strengths llm_result) (StrList []) ;;
  (match all_violations with
   | [] =>
       append_str strengths "All required elements are present" ;;;
       append_str strengths "Documentation meets CMS guidelines"
   | _ => ret tt
   end) ;;;
  strs <- load_strs strengths ;;
  ret (strengths, strs).

Definition _combine_results (rule_violations : loc) (llm_result : LLMResult)
    (guidelines : list SemanticSearch.SearchResult) : M ComplianceResult :=
  combined <- combine_violations rule_violations llm_result ;;
  let '(all_violations, merged) := combined in
  let critical_count := count_severity "critical" merged in
  let major_count := count_severity "major" merged in
  let minor_count := count_severity "minor" merged in
  let score := compute_score critical_count major_count minor_count in
  let status := determine_status critical_count major_count score in
  collected <- collect_strengths llm_result merged ;;
  let '(strengths, strs) := collected in
  let summary := _create_summary status score merged strs in
  ret {| status := status;
         overall_score := score;
         violations := all_violations;
         strengths := strengths;
         summary := summary;
         guideline_references :=
           map guideline_reference_of (slice_to 3 guidelines) |}.

End Validator.

(** ** The chunker: [backend/ingestion/chunker.py] *)
Module Chunker.
Import PyStr PyList.

Definition newline : ascii := "010"%char.
Definition is_newline (c : ascii) : bool := Ascii.eqb c newline.

(** A page dictionary of the PDF processor; [section_header] may be
    absent ([page_data.get('section_header', '')]). *)
Record Page := mkPage {
  page_text : string;
  page_page_number : Z;
  page_section_header : option string
}.

Record Chunk := mkChunk {
  chunk_id : Z;
  text : string;
  page_number : Z;
  section_header : string;
  token_count : Z;
  char_count : Z
}.

(** The attributes of [TextChunker] besides the encoding. *)
Record TextChunker := mkTextChunker {
  chunk_size : Z;
  chunk_overlap : Z
}.

(** Length of a run of newlines: [\n+]. *)
Fixpoint newline_run_len (s : string) : nat :=
  match s with
  | String c s' => if is_newline c then S (newline_run_len s') else 0
  | EmptyString => 0
  end.

(** Length of the greedy match of [\s*\n]: blanks up to the last
    newline of the blank run. *)
Fixpoint blanks_then_newline (s : string) : option nat :=
  match s with
  | String c s' =>
      if isspace c then
        match blanks_then_newline s' with
        | Some n => Some (S n)
        | None => if is_newline c then Some 1%nat else None
        end
      else None
  | EmptyString => None
  end.

(** [\n\n+|\n\s*\n], the first alternative tried first. *)
Definition paragraph_break : matcher := fun _ s =>
  match s with
  | String c r =>
      if is_newline c then
        match r with
        | String c2 _ =>
            if is_newline c2 then newline_run_len s
            else match blanks_then_newline r with
                 | Some n => S n
                 | None => 0%nat
                 end
        | EmptyString => 0%nat
        end
      else 0%nat
  | EmptyString => 0%nat
  end.

(** [(?<=[.!?])\s+] *)
Definition sentence_break : matcher := fun prev s =>
  match prev with
  | Some p =>
      if Ascii.eqb p "." || Ascii.eqb p "!" || Ascii.eqb p "?"
      then ws_prefix_len s else 0%nat
  | None => 0%nat
  end.

(** [[p.strip() for p in parts if p.strip()]] *)
Definition strip_nonempty (parts : list string) : list string :=
  map strip (List.filter (fun p => nonempty (strip p)) parts).

Definition _split_into_paragraphs (text : string) : list string :=
  let paragraphs := re_split paragraph_break text in
  strip_nonempty paragraphs.

Definition _split_into_sentences (text : string) : list string :=
  let sentences := re_split sentence_break text in
  strip_nonempty sentences.

(** [header_context + " ".join(current_chunk)] *)
Definition chunk_text_of (header_context : string) (current_chunk : list string)
    : string :=
  header_context ++ join " " current_chunk.

(** The loop state of the two accumulation loops. *)
Record buffer := mkBuffer {
  chunks : list string;
  current_chunk : list string;
  current_tokens : Z
}.

Section WithTokenizer.
(** [self.encoding]: the tokenizer. *)
Context {token : Type}.
Variable encode : string -> list token.
Variable decode : list token -> string.

Variable self : TextChunker.

Definition _count_tokens (text : string) : Z :=
  Z.of_nat (length (encode text)).

Definition _get_overlap_text (chunks : list string) : string :=
  match chunks with
  | [] => ""
  | _ =>
      let combined := join " " chunks in
      let overlap_tokens := chunk_overlap self in
      let tokens := encode combined in
      if (Z.of_nat (length tokens) <=? overlap_tokens)%Z then combined
      else
        let overlap_token_ids := slice_from (- overlap_tokens) tokens in
        decode overlap_token_ids
  end.

(** Seeding the next buffer after a flush: the overlap text, when
    not empty, then the new element. *)
Definition restart_with (flushed : list string) (element : string) : list string :=
  let overlap_text := _get_overlap_text flushed in
  if nonempty overlap_text then [overlap_text; element] else [element].

Definition sentence_step (header_context : string) (header_tokens : Z)
    (st : buffer) (sentence : string) : buffer :=
  let sentence_tokens := _count_tokens sentence in
  if (chunk_size self - header_tokens <? current_tokens st + sentence_tokens)%Z then
    match current_chunk st with
    | _ :: _ =>
        let chunk_text := chunk_text_of header_context (current_chunk st) in
        let current_chunk' := restart_with (current_chunk st) sentence in
        {| chunks := (chunks st ++ [chunk_text])%list;
           current_chunk := current_chunk';
           current_tokens := _count_tokens (join " " current_chunk') |}
    | [] =>
        (* a single sentence is too long: forced into a chunk *)
        let chunk_text := header_context ++ sentence in
        {| chunks := (chunks st ++ [chunk_text])%list;
           current_chunk := [];
           current_tokens := 0 |}
    end
  else
    {| chunks := chunks st;
       current_chunk := (current_chunk st ++ [sentence])%list;
       current_tokens := (current_tokens st + sentence_tokens)%Z |}.

(** The final flush of either loop. *)
Definition finish (header_context : string) (st : buffer) : list string :=
  match current_chunk st with
  | _ :: _ => (chunks st ++ [chunk_text_of header_context (current_chunk st)])%list
  | [] => chunks st
  end.

Definition _create_chunks_from_sentences (sentences : list string)
    (header_context : string) (header_tokens : Z) : list string :=
  finish header_context
    (fold_left (sentence_step header_context header_tokens) sentences
               {| chunks := []; current_chunk := []; current_tokens := 0 |}).

Definition paragraph_step (header_context : string) (header_tokens : Z)
    (st : buffer) (para : string) : buffer :=
  let para_tokens := _count_tokens para in
  if (chunk_size self - header_tokens <? para_tokens)%Z then
    (* the paragraph alone exceeds the budget: flush, then split it *)
    let st :=
      match current_chunk st with
      | _ :: _ =>
          let chunk_text := chunk_text_of header_context (current_chunk st) in
          {| chunks := (chunks st ++ [chunk_text])%list;
             current_chunk := [];
             current_tokens := 0 |}
      | [] => st
      end in
    let sentences := _split_into_sentences para in
    let sub_chunks :=
      _create_chunks_from_sentences sentences header_context header_tokens in
    {| chunks := (chunks st ++ sub_chunks)%list;
       current_chunk := current_chunk st;
       current_tokens := current_tokens st |}
  else if (chunk_size self - header_tokens <? current_tokens st + para_tokens)%Z then
    match current_chunk st with
    | _ :: _ =>
        let chunk_text := chunk_text_of header_context (current_chunk st) in
        let current_chunk' := restart_with (current_chunk st) para in
        {| chunks := (chunks st ++ [chunk_text])%list;
           current_chunk := current_chunk';
           current_tokens := _count_tokens (join " " current_chunk') |}
    | [] =>
        {| chunks := chunks st;
           current_chunk := [para];
           current_tokens := para_tokens |}
    end
  else
    {| chunks := chunks st;
       current_chunk := (current_chunk st ++ [para])%list;
       current_tokens := (current_tokens st + para_tokens)%Z |}.

Definition header_context_of (section_header : string) : string :=
  if nonempty section_header then "[" ++ section_header ++ "]" ++ String newline (String newline "")
  else "".

Definition header_tokens_of (section_header : string) : Z :=
  if nonempty section_header
  then _count_tokens (header_context_of section_header)
  else 0%Z.

Definition _create_chunks_from_paragraphs (paragraphs : list string)
    (page_number : Z) (section_header : string) : list string :=
  let header_context := header_context_of section_header in
  let header_tokens := header_tokens_of section_header in
  finish header_context
    (fold_left (paragraph_step header_context header_tokens) paragraphs
               {| chunks := []; current_chunk := []; current_tokens := 0 |}).

(** One page of [chunk_documents]: the chunk records of the page,
    numbered after [chunk_id]. *)
Definition chunk_page (all_chunks : list Chunk) (chunk_id : Z) (page_data : Page)
    : list Chunk * Z :=
  let text := page_text page_data in
  let page_number := page_page_number page_data in
  let section_header := default "" (page_section_header page_data) in
  let paragraphs := _split_into_paragraphs text in
  let chunks := _create_chunks_from_paragraphs paragraphs page_number section_header in
  fold_left
    (fun '(all_chunks, chunk_id) chunk_text =>
       let chunk_id := (chunk_id + 1)%Z in
       ((all_chunks ++ [ {| chunk_id := chunk_id;
                            text := chunk_text;
                            page_number := page_number;
                            section_header := section_header;
                            token_count := _count_tokens chunk_text;
                            char_count := len chunk_text |} ])%list,
        chunk_id))
    chunks (all_chunks, chunk_id).

Definition chunk_documents (pages_data : list Page) : list Chunk :=
  fst (fold_left (fun '(all_chunks, chunk_id) page_data =>
                    chunk_page all_chunks chunk_id page_data)
                 pages_data ([], 0%Z)).

End WithTokenizer.

(** [chunk_cms_document] *)
Definition chunk_cms_document {token} (encode : string -> list token)
    (decode : list token -> string) (pages_data : list Page)
    (chunk_size chunk_overlap : Z) : list Chunk :=
  let chunker := {| chunk_size := chunk_size; chunk_overlap := chunk_overlap |} in
  chunk_documents encode decode chunker pages_data.

(** *** A tokenizer to run the chunker on

    Word pieces: a piece is a word together with the blanks in front
    of it, as byte-pair encodings cut plain lower-case words.
    Decoding concatenates the pieces. *)
Fixpoint word_pieces_from (piece : string) (in_word : bool) (s : string)
    : list string :=
  match s with
  | EmptyString => if nonempty piece then [piece] else []
  | String c s' =>
      if Ascii.eqb c " " && in_word
      then piece :: word_pieces_from (String c EmptyString) false s'
      else word_pieces_from (piece ++ String c EmptyString)
                            (negb (Ascii.eqb c " ")) s'
  end.

Definition word_encode (s : string) : list string := word_pieces_from "" false s.
Definition word_decode (pieces : list string) : string := String.concat "" pieces.

End Chunker.

(** ** PDF extraction: [backend/ingestion/pdf_processor.py] *)
Module PDFProcessor.
Import PyStr.

(** [re.sub(pattern, repl, s)], scanning like [re_split_from]. *)
Fixpoint re_sub_from (m : matcher) (repl : string) (prev : option ascii)
    (skip : nat) (s : string) : string :=
  match s with
  | EmptyString => EmptyString
  | String c s' =>
      match skip with
      | S k => re_sub_from m repl (Some c) k s'
      | O =>
          match m prev s with
          | S k => repl ++ re_sub_from m repl (Some c) k s'
          | O => String c (re_sub_from m repl (Some c) 0 s')
          end
      end
  end.
Definition re_sub (m : matcher) (repl : string) (s : string) : string :=
  re_sub_from m repl None 0 s.

Definition newline : ascii := "010"%char.
Definition is_newline (c : ascii) : bool := Ascii.eqb c newline.
Definition nul : ascii := "000"%char.

(** [\s+] *)
Definition blank_run : matcher := fun _ s => ws_prefix_len s.

(** Length of the longest digit prefix: a greedy [\d*]. *)
Fixpoint digits_len (s : string) : nat :=
  match s with
  | String c s' => if isdigit c then S (digits_len s') else 0
  | EmptyString => 0
  end.

(** [\n\d+\n] *)
Definition page_number_line : matcher := fun _ s =>
  match s with
  | String c r =>
      if is_newline c then
        let d := digits_len r in
        match d, drop d r with
        | S _, String c2 _ => if is_newline c2 then (d + 2)%nat else 0%nat
        | _, _ => 0%nat
        end
      else 0%nat
  | EmptyString => 0%nat
  end.

(** [s.replace('\x00', '')] *)
Fixpoint remove_nul (s : string) : string :=
  match s with
  | EmptyString => EmptyString
  | String c s' => if Ascii.eqb c nul then remove_nul s' else String c (remove_nul s')
  end.

Definition _clean_text (text : string) : string :=
  (* Remove excessive whitespace *)
  let text := re_sub blank_run " " text in
  (* Remove page numbers pattern *)
  let text := re_sub page_number_line (String newline EmptyString) text in
  (* Remove special characters that may cause issues *)
  let text := remove_nul text in
  strip text.

(** Length of the longest prefix without a newline: a greedy [[^\n]*]. *)
Fixpoint line_len (s : string) : nat :=
  match s with
  | String c s' => if is_newline c then 0 else S (line_len s')
  | EmptyString => 0
  end.

(** [\s*[A-Z][^\n]{10,80}], the common tail of the first two header
    patterns. *)
Definition title_tail (s : string) : option nat :=
  let w := ws_prefix_len s in
  match drop w s with
  | String c r =>
      if isupper c then
        let n := line_len r in
        if Nat.leb 10 n then Some (w + 1 + Nat.min n 80)%nat else None
      else None
  | EmptyString => None
  end.

(** [\d+\.?\d*\s*-\s*[A-Z][^\n]{10,80}] *)
Definition numbered_section (s : string) : option nat :=
  let d := digits_len s in
  match d with
  | O => None
  | S _ =>
      let r := drop d s in
      let dot := match r with
                 | String c _ => if Ascii.eqb c "." then 1%nat else 0%nat
                 | EmptyString => 0%nat
                 end in
      let r := drop dot r in
      let d2 := digits_len r in
      let r := drop d2 r in
      let w := ws_prefix_len r in
      match drop w r with
      | String c r =>
          if Ascii.eqb c "-" then
            match title_tail r with
            | Some n => Some (d + dot + d2 + w + 1 + n)%nat
            | None => None
            end
          else None
      | EmptyString => None
      end
  end.

(** [Section\s+\d+[:\-]\s*[A-Z][^\n]{10,80}] *)
Definition section_colon (s : string) : option nat :=
  if String.prefix "Section" s then
    let r := drop 7 s in
    let w := ws_prefix_len r in
    match w with
    | O => None
    | S _ =>
        let r := drop w r in
        let d := digits_len r in
        match d with
        | O => None
        | S _ =>
            match drop d r with
            | String c r =>
                if Ascii.eqb c ":" || Ascii.eqb c "-" then
                  match title_tail r with
                  | Some n => Some (7 + w + d + 1 + n)%nat
                  | None => None
                  end
                else None
            | EmptyString => None
            end
        end
    end
  else None.

(** [[A-Z\s]{5,50}] followed by a newline, after [i] characters of the
    class: the largest admissible count, found by backtracking. *)
Fixpoint caps_run (s : string) (i : nat) : option nat :=
  match s with
  | EmptyString => None
  | String c s' =>
      let longer :=
        if (isupper c || isspace c) && Nat.ltb i 50 then caps_run s' (S i) else None in
      match longer with
      | Some k => Some k
      | None => if is_newline c && Nat.leb 5 i then Some i else None
      end
  end.

(** [([A-Z][A-Z\s]{5,50})\n]: the length of the group. *)
Definition caps_header (s : string) : option nat :=
  match s with
  | String c r =>
      if isupper c then
        match caps_run r 0 with
        | Some k => Some (S k)
        | None => None
        end
      else None
  | EmptyString => None
  end.

(** [re.search('^(...)', text, re.MULTILINE)]: the group of the first
    match at the start of the text or of a line. *)
Fixpoint search_line_start (p : string -> option nat) (at_line_start : bool)
    (s : string) : option string :=
  match (if at_line_start then p s else None) with
  | Some n => Some (substring 0 n s)
  | None =>
      match s with
      | EmptyString => None
      | String c s' => search_line_start p (is_newline c) s'
      end
  end.

Definition _extract_section_header (text : string) : string :=
  match search_line_start numbered_section true text with
  | Some group => strip group
  | None =>
      match search_line_start section_colon true text with
      | Some group => strip group
      | None =>
          match search_line_start caps_header true text with
          | Some group => strip group
          | None => ""
          end
      end
  end.

(** A page dictionary as the processor builds it. *)
Record PdfPage := mkPdfPage {
  text : string;
  page_number : Z;
  section_header : string;
  char_count : Z
}.

(** The loop over [enumerate(pages, start=1)]; [None] or an empty
    string is a page without text. *)
Fixpoint pages_from (page_num : Z) (extracted : list (option string)) : list PdfPage :=
  match extracted with
  | [] => []
  | raw :: rest =>
      match raw with
      | Some (String c r) =>
          let text := _clean_text (String c r) in
          let section_header := _extract_section_header text in
          [ {| text := text;
               page_number := page_num;
               section_header := section_header;
               char_count := len text |} ]
      | _ => []
      end ++ pages_from (page_num + 1) rest
  end%list.

Section WithReaders.
(** What [page.extract_text()] gives for the pages of the file, with
    [pdfplumber] and with [PyPDF2]; either reader may raise. *)
Variable pdfplumber_texts : outcome (list (option string)).
Variable pypdf2_texts : outcome (list (option string)).

Definition _extract_with_pypdf2 : outcome (list PdfPage) :=
  obind pypdf2_texts (fun extracted => Return (pages_from 1 extracted)).

Definition extract_text_with_metadata : outcome (list PdfPage) :=
  match pdfplumber_texts with
  | Return extracted => Return (pages_from 1 extracted)
  | Raise _ => _extract_with_pypdf2
  end.
End WithReaders.

(** The page as the chunker reads it. *)
Definition as_page (p : PdfPage) : Chunker.Page :=
  {| Chunker.page_text := text p;
     Chunker.page_page_number := page_number p;
     Chunker.page_section_header := Some (section_header p) |}.

End PDFProcessor.

(** ** Prompt templates: [backend/llm/prompts.py] *)
Module Prompts.
Import PyStr.

Definition newline_str : string := String "010"%char EmptyString.

Definition VALIDATION_SYSTEM_PROMPT : string :=
"You are a CMS compliance auditor specializing in home health care documentation. Your role is to review visit notes and identify compliance issues according to Medicare regulations.

Your task:
1. Analyze the visit note for compliance with CMS requirements
2. Identify specific violations or missing required elements
3. Categorize violations by severity (critical, major, minor)
4. Provide actionable recommendations for each violation
5. Cite relevant CMS guidelines when possible

Be thorough, objective, and constructive in your feedback.".

(** [VALIDATION_USER_PROMPT.format(note_text=..., guidelines=...)] *)
Definition VALIDATION_USER_PROMPT (note_text guidelines : string) : string :=
"Review the following home health visit note for CMS compliance.

VISIT NOTE:
" ++ note_text ++ "

RELEVANT CMS GUIDELINES:
" ++ guidelines ++ "

Please analyze this visit note and identify:
1. All compliance violations or missing required elements
2. The severity of each violation (critical, major, minor)
3. Specific recommendations to fix each violation
4. References to relevant CMS guidelines

Also note any strengths in the documentation.

Provide your analysis in a structured format.".

Definition QA_SYSTEM_PROMPT : string :=
"You are a CMS (Centers for Medicare & Medicaid Services) compliance expert specializing in home health care regulations. Your role is to provide accurate, helpful information about Medicare guidelines based on the provided context.

Guidelines:
- Answer questions based ONLY on the provided context from CMS guidelines
- If the answer is not in the context, clearly state that you don't have enough information
- Cite specific sections or requirements when possible
- Be precise and professional in your responses
- Use clear, accessible language while maintaining accuracy
- If relevant, mention page numbers from the source documents
".

(** [QA_USER_PROMPT.format(context=..., question=...)] *)
Definition QA_USER_PROMPT (context question : string) : string :=
"Based on the following context from CMS Medicare guidelines, please answer the question.

CONTEXT:
" ++ context ++ "

QUESTION: " ++ question ++ "

Please provide a clear, accurate answer based on the context above. If the context doesn't contain enough information to fully answer the question, please state that clearly.".

(** [f"{page_number}"] for a page number that may be [None]. *)
Definition str_of_page (page_number : option Z) : string :=
  match page_number with
  | Some n => str_of_Z n
  | None => "None"
  end.

Definition separator : string :=
  newline_str ++ newline_str ++ "---" ++ newline_str ++ newline_str.

Definition qa_source (chunk : SemanticSearch.SearchResult) : string :=
  "[Source: Page " ++ str_of_page (SemanticSearch.page_number chunk) ++ "]"
  ++ newline_str ++ SemanticSearch.text chunk.

Definition format_qa_prompt (question : string)
    (context_chunks : list SemanticSearch.SearchResult) : string * string :=
  let context_text := join separator (map qa_source context_chunks) in
  let user_prompt := QA_USER_PROMPT context_text question in
  (QA_SYSTEM_PROMPT, user_prompt).

Definition guideline_block (chunk : SemanticSearch.SearchResult) : string :=
  "[Section: " ++ SemanticSearch.section_header chunk ++ " - Page "
  ++ str_of_page (SemanticSearch.page_number chunk) ++ "]"
  ++ newline_str ++ SemanticSearch.text chunk.

Definition format_validation_prompt (note_text : string)
    (guidelines : list SemanticSearch.SearchResult) : string * string :=
  let guidelines_text := join separator (map guideline_block guidelines) in
  let user_prompt := VALIDATION_USER_PROMPT note_text guidelines_text in
  (VALIDATION_SYSTEM_PROMPT, user_prompt).

End Prompts.

(** ** The completion chain: [backend/llm/chains.py] *)
Module LLMChain.
Import PyStr Validator.

(** [s.split('\n')] *)
Fixpoint split_lines (s : string) : list string :=
  match s with
  | EmptyString => [EmptyString]
  | String c s' =>
      if Ascii.eqb c "010" then EmptyString :: split_lines s'
      else match split_lines s' with
           | line :: rest => String c line :: rest
           | [] => [String c EmptyString]
           end
  end.

(** The loop state of [_parse_validation_response]. *)
Record parse_state := mkParseState {
  violations : list Violation;
  strengths : list string;
  in_violations : bool;
  in_strengths : bool
}.

Definition parse_line (st : parse_state) (line : string) : parse_state :=
  let line := strip line in
  let line_lower := lower line in
  (* Detect sections *)
  let '(in_violations, in_strengths) :=
    if contains "violation" line_lower || contains "issue" line_lower
    then (true, false)
    else if contains "strength" line_lower || contains "well" line_lower
    then (false, true)
    else (in_violations st, in_strengths st) in
  (* Extract violations *)
  let violations :=
    if in_violations && nonempty line && negb (String.prefix "#" line) then
      if existsb (fun sev => contains sev line_lower) ["critical"; "major"; "minor"] then
        let severity :=
          if contains "critical" line_lower then "critical"
          else if contains "major" line_lower then "major" else "minor" in
        (violations st
         ++ [ {| category := "General";
                 severity := severity;
                 description := line;
                 recommendation := "";
                 guideline_reference := "" |} ])%list
      else violations st
    else violations st in
  (* Extract strengths *)
  let strengths :=
    if in_strengths && nonempty line && String.prefix "-" line
    then (strengths st ++ [strip (drop 1 line)])%list
    else strengths st in
  {| violations := violations;
     strengths := strengths;
     in_violations := in_violations;
     in_strengths := in_strengths |}.

(** The dictionary built by [_parse_validation_response], with the
    lists by value. *)
Record Parsed := mkParsed {
  parsed_status : string;
  parsed_score : Z;
  parsed_violations : list Violation;
  parsed_strengths : list string;
  parsed_summary : string
}.

Definition _parse_validation_response (validation_text : string) : Parsed :=
  let lines := split_lines validation_text in
  let st := fold_left parse_line lines
              {| violations := []; strengths := [];
                 in_violations := false; in_strengths := false |} in
  let violations := violations st in
  let critical_count := count_severity "critical" violations in
  let major_count := count_severity "major" violations in
  let n := Z.of_nat (length violations) in
  let '(status, score) :=
    if (0 <? critical_count)%Z || (2 <? major_count)%Z then
      ("non_compliant",
       py_max 0 (100 - (critical_count * 30 + major_count * 15 + n * 5)))%Z
    else if (0 <? n)%Z then
      ("needs_review", py_max 50 (100 - n * 10))%Z
    else ("compliant", 100%Z) in
  {| parsed_status := status;
     parsed_score := score;
     parsed_violations := violations;
     parsed_strengths := strengths st;
     parsed_summary := substring 0 500 validation_text |}.

Section WithProvider.
(** [client.chat.completions.create] applied to the two prompts: the
    content of the first choice, which may be [None], or an exception. *)
Variable chat_completion : string -> string -> outcome (option string).
(** [str(e)] *)
Variable error_text : exn -> string.

(** The dictionary returned when the call or the parsing raises. *)
Definition error_result (message : string) : M LLMResult :=
  violations <- new_list (ViolationList []) ;;
  strengths <- new_list (StrList []) ;;
  ret {| llm_status := "error";
         llm_overall_score := 0;
         llm_violations := Some violations;
         llm_strengths := Some strengths;
         llm_summary := "Error during validation: " ++ message |}.

Definition validate_note (note_text : string)
    (guidelines : list SemanticSearch.SearchResult) : M LLMResult :=
  let '(system_prompt, user_prompt) :=
    Prompts.format_validation_prompt note_text guidelines in
  match chat_completion system_prompt user_prompt with
  | Return (Some validation_text) =>
      let result := _parse_validation_response validation_text in
      violations <- new_list (ViolationList (parsed_violations result)) ;;
      strengths <- new_list (StrList (parsed_strengths result)) ;;
      ret {| llm_status := parsed_status result;
             llm_overall_score := parsed_score result;
             llm_violations := Some violations;
             llm_strengths := Some strengths;
             llm_summary := parsed_summary result |}
  | Return None =>
      (* [None.split] raises inside the [try] *)
      error_result "'NoneType' object has no attribute 'split'"
  | Raise e => error_result (error_text e)
  end.

(** [generate_answer]: the content, or an apology when the call raises. *)
Definition generate_answer (question : string)
    (context_chunks : list SemanticSearch.SearchResult) : option string :=
  let '(system_prompt, user_prompt) :=
    Prompts.format_qa_prompt question context_chunks in
  match chat_completion system_prompt user_prompt with
  | Return answer => answer
  | Raise e =>
      Some ("I apologize, but I encountered an error generating an answer: "
            ++ error_text e)
  end.
End WithProvider.

End LLMChain.

(** ** The validator: [NoteValidator.validate] *)
Module NoteValidator.
Import PyStr Validator.

Definition _create_search_query (note_text : string) : string :=
  let note_lower := lower note_text in
  let keywords : list string := [] in
  let keywords := if contains "skilled nursing" note_lower
                  then (keywords ++ ["skilled nursing services"])%list else keywords in
  let keywords := if contains "wound" note_lower
                  then (keywords ++ ["wound care"])%list else keywords in
  let keywords := if contains "physical therapy" note_lower || contains "pt " note_lower
                  then (keywords ++ ["physical therapy"])%list else keywords in
  let keywords := if contains "occupational therapy" note_lower
                     || contains "ot " note_lower
                  then (keywords ++ ["occupational therapy"])%list else keywords in
  (* Default query *)
  let keywords := match keywords with
                  | [] => ["home health services"; "documentation requirements";
                           "visit notes"]
                  | _ => keywords
                  end in
  join " " keywords ++ " requirements medical necessity homebound".

Section WithServices.
(** The collaborators handed to the constructor: the embedder and the
    index behind the search engine, the completion provider behind
    the chain, and the [use_rules] flag. *)
Variable generate_single_embedding : string -> option (list Q).
Variable vector_store_search :
  list Q -> Z -> option (list (string * string)) -> outcome SemanticSearch.RawResults.
Variable chat_completion : string -> string -> outcome (option string).
Variable error_text : exn -> string.
Variable use_rules : bool.

(** [validate]: the search is the only step that can raise; the list
    objects are created in the order of the source. *)
Definition validate (note_text : string) (n_guidelines : Z)
    : outcome (M ComplianceResult) :=
  (* Step 1: Rule-based validation *)
  let rule_violations :=
    if use_rules then Rules.validate_note note_text else [] in
  (* Step 2: Retrieve relevant guidelines *)
  let search_query := _create_search_query note_text in
  obind (SemanticSearch.search generate_single_embedding vector_store_search
           search_query n_guidelines None)
    (fun guidelines =>
       Return (
         rule_violations <- new_list (ViolationList rule_violations) ;;
         (* Step 3: LLM-based validation *)
         llm_result <- LLMChain.validate_note chat_completion error_text
                         note_text guidelines ;;
         (* Step 4: Combine results *)
         _combine_results rule_violations llm_result guidelines)).
End WithServices.

End NoteValidator.

(** ** Batches: [range(0, stop, step)] and [l[i:j]] *)
Module PyRange.
Import PyList.

Fixpoint range_from (fuel : nat) (i stop step : Z) : list Z :=
  match fuel with
  | O => []
  | S fuel' => if (i <? stop)%Z then i :: range_from fuel' (i + step) stop step else []
  end.

(** [range(0, stop, step)] for [stop >= 0]: a zero step raises, a
    negative one gives the empty range; with a positive step at most
    [stop] values are produced. *)
Definition py_range (stop step : Z) : outcome (list Z) :=
  if (step =? 0)%Z then Raise (ValueError "range() arg 3 must not be zero")
  else if (step <? 0)%Z then Return []
  else Return (range_from (Z.to_nat stop) 0 stop step).

(** [l[i:j]] *)
Definition slice_between {A} (i j : Z) (l : list A) : list A :=
  let len := Z.of_nat (length l) in
  let start := if (i <? 0)%Z then Z.max 0 (i + len) else Z.min i len in
  let stop := if (j <? 0)%Z then Z.max 0 (j + len) else Z.min j len in
  firstn (Z.to_nat (stop - start)) (skipn (Z.to_nat start) l).

End PyRange.

(** ** Embeddings: [backend/ingestion/embedder.py] *)
Module Embedder.
Import PyStr PyList PyRange.

(** A chunk dictionary with its ['embedding'] key: absent, [None], or
    a vector. The dictionaries of the list are distinct objects, as
    [chunk_documents] creates them. *)
Record EmbeddedChunk := mkEmbeddedChunk {
  chunk : Chunker.Chunk;
  embedding : option (option (list Q))
}.

(** [chunk['embedding'] = value] *)
Definition set_embedding (value : option (list Q)) (c : EmbeddedChunk) : EmbeddedChunk :=
  {| chunk := chunk c; embedding := Some value |}.

(** [for j, embedding_obj in enumerate(response.data):
       chunks[i + j]['embedding'] = embedding_obj.embedding]
    from position [k = i + j] on; an index past the end raises, and
    what was assigned before stays. *)
Fixpoint store_embeddings (k : nat) (data : list (list Q)) (chunks : list EmbeddedChunk)
    : list EmbeddedChunk * bool :=
  match data with
  | [] => (chunks, true)
  | e :: rest =>
      match chunks !! k with
      | Some c => store_embeddings (S k) rest (<[k := set_embedding (Some e) c]> chunks)
      | None => (chunks, false)
      end
  end.

(** The handler: [for j in range(len(batch)):
       if 'embedding' not in chunks[i + j]: chunks[i + j]['embedding'] = None] *)
Fixpoint mark_failed (k : nat) (n : nat) (chunks : list EmbeddedChunk)
    : outcome (list EmbeddedChunk) :=
  match n with
  | O => Return chunks
  | S n' =>
      match chunks !! k with
      | Some c =>
          mark_failed (S k) n'
            (match embedding c with
             | None => <[k := set_embedding None c]> chunks
             | Some _ => chunks
             end)
      | None => Raise IndexError
      end
  end.

(** A loop whose body may raise. *)
Fixpoint for_each_batch {S} (starts : list Z) (body : S -> Z -> outcome S) (s : S)
    : outcome S :=
  match starts with
  | [] => Return s
  | i :: rest => obind (body s i) (for_each_batch rest body)
  end.

Section WithClient.
(** [client.embeddings.create(model, input=texts)]: the vectors of
    [response.data], or an exception. *)
Variable create_embeddings : list string -> outcome (list (list Q)).
Variable batch_size : Z.

Definition embed_batch (chunks : list EmbeddedChunk) (i : Z)
    : outcome (list EmbeddedChunk) :=
  let batch := slice_between i (i + batch_size) chunks in
  let texts := map (fun c => Chunker.text (chunk c)) batch in
  match create_embeddings texts with
  | Return data =>
      let '(chunks, assigned) := store_embeddings (Z.to_nat i) data chunks in
      if assigned then Return chunks
      else mark_failed (Z.to_nat i) (length batch) chunks
  | Raise _ => mark_failed (Z.to_nat i) (length batch) chunks
  end.

Definition generate_embeddings (chunks : list EmbeddedChunk)
    : outcome (list EmbeddedChunk) :=
  let total_chunks := Z.of_nat (length chunks) in
  obind (py_range total_chunks batch_size) (fun starts =>
    for_each_batch starts embed_batch chunks).

Definition generate_single_embedding (text : string) : option (list Q) :=
  match create_embeddings [text] with
  | Return (e :: _) => Some e
  | Return [] => None
  | Raise _ => None
  end.
End WithClient.

End Embedder.

(** ** The index: [backend/retrieval/vector_store.py] *)
Module VectorStore.
Import PyStr PyList PyRange Embedder.

Record ChunkMetadata := mkChunkMetadata {
  chunk_id : Z;
  page_number : Z;
  section_header : string;
  token_count : Z
}.

(** The arguments of one [collection.add] call. *)
Record AddCall := mkAddCall {
  ids : list string;
  documents : list string;
  embeddings : list (list Q);
  metadatas : list ChunkMetadata
}.

(** [c.get('embedding') is not None] *)
Definition has_embedding (c : EmbeddedChunk) : bool :=
  match embedding c with
  | Some (Some _) => true
  | _ => false
  end.

(** [chunk['embedding']] of a chunk that has one. *)
Definition vector_of (c : EmbeddedChunk) : list Q :=
  match embedding c with
  | Some (Some v) => v
  | _ => []
  end.

Definition add_call (batch : list EmbeddedChunk) : AddCall :=
  {| ids := map (fun c => "chunk_" ++ str_of_Z (Chunker.chunk_id (chunk c))) batch;
     documents := map (fun c => Chunker.text (chunk c)) batch;
     embeddings := map vector_of batch;
     metadatas :=
       map (fun c =>
              {| chunk_id := Chunker.chunk_id (chunk c);
                 page_number := Chunker.page_number (chunk c);
                 section_header := Chunker.section_header (chunk c);
                 token_count := Chunker.token_count (chunk c) |}) batch |}.

(** [add_chunks]: the calls made to [collection.add], in order. An
    error of a call is printed and the loop goes on, so the calls do
    not depend on their outcomes. *)
Definition add_chunks (chunks : list EmbeddedChunk) (batch_size : Z)
    : outcome (list AddCall) :=
  let valid_chunks := List.filter has_embedding chunks in
  obind (py_range (Z.of_nat (length valid_chunks)) batch_size) (fun starts =>
    Return (map (fun i => add_call (slice_between i (i + batch_size) valid_chunks))
                starts)).

Section WithCollection.
(** [self.collection]: [None] until a collection is created, then its
    [query] method. *)
Variable collection :
  option (list Q -> Z -> option (list (string * string))
          -> outcome SemanticSearch.RawResults).

Definition search (query_embedding : list Q) (n_results : Z)
    (filter_metadata : option (list (string * string)))
    : outcome SemanticSearch.RawResults :=
  match collection with
  | None =>
      Raise (ValueError "Collection not initialized. Call create_collection() first.")
  | Some query =>
      match query query_embedding n_results filter_metadata with
      | Return results => Return results
      | Raise _ =>
          Return {| SemanticSearch.documents := Some [[]];
                    SemanticSearch.metadatas := Some [[]];
                    SemanticSearch.distances := Some [[]] |}
      end
  end.
End WithCollection.

End VectorStore.


(** * Vocabulary of the statements *)

(** ** The merger: reading the store, and the merge as a function *)
Section MergerVocabulary.
Import PyStr PyList Validator.

(** What the store holds at an address, by kind of list. *)
Definition violations_at (h : heap) (l : loc) : option (list Violation) :=
  match h !! l with Some (ViolationList vs) => Some vs | _ => None end.
Definition strs_at (h : heap) (l : loc) : option (list string) :=
  match h !! l with Some (StrList ss) => Some ss | _ => None end.

(** What [llm_result.get('violations', [])] and
    [llm_result.get('strengths', [])] hold when the call starts. *)
Definition llm_violations_in (h : heap) (llm_result : LLMResult) : option (list Violation) :=
  match llm_violations llm_result with
  | Some l => violations_at h l
  | None => Some []
  end.
Definition llm_strengths_in (h : heap) (llm_result : LLMResult) : option (list string) :=
  match llm_strengths llm_result with
  | Some l => strs_at h l
  | None => Some []
  end.

(** The merge loop read as a function of the two lists. *)
Fixpoint merge_violations (all_violations llm_vs : list Violation) : list Violation :=
  match llm_vs with
  | [] => all_violations
  | llm_v :: rest =>
      merge_violations
        (if is_duplicate llm_v all_violations then all_violations
         else (all_violations ++ [llm_v])%list) rest
  end.

(** The strengths added when no violation is left. *)
Definition affirmations (merged : list Violation) : list string :=
  match merged with
  | [] => ["All required elements are present"; "Documentation meets CMS guidelines"]
  | _ => []
  end.

(** The number of violations of a severity. *)
Definition severity_count (sev : string) (vs : list Violation) : Z :=
  Z.of_nat (length (List.filter (fun v => String.eqb (severity v) sev) vs)).

(** The body of the merge loop, for the list object at [a]. *)
Definition merge_body (a : loc) (llm_v : Violation) : M unit :=
    seen <- load_violations a ;;
    if negb (is_duplicate llm_v seen)
    then append_violation a llm_v
    else ret tt.

(** A call to run the statements on: two rule violations, four model
    violations of which two repeat a category, one strength. *)
Definition sample_violation (c sev : string) : Violation :=
  mkViolation c sev "description" "recommendation" "reference".

Definition sample_heap : heap :=
  [ ViolationList [ sample_violation "homebound_status" "critical";
                    sample_violation "plan" "major" ];
    ViolationList [ sample_violation "plan" "minor";
                    sample_violation "General" "major";
                    sample_violation "General" "minor";
                    sample_violation "visit_details" "minor" ];
    StrList ["Vital signs documented"] ].

(** A call with two major violations and no critical one. *)
Definition review_heap : heap :=
  [ ViolationList [ sample_violation "plan" "major" ];
    ViolationList [ sample_violation "plan" "minor";
                    sample_violation "General" "major";
                    sample_violation "General" "minor" ];
    StrList ["Vital signs documented"] ].

(** A call without any violation. *)
Definition clean_heap : heap :=
  [ ViolationList []; ViolationList []; StrList ["Vital signs documented"] ].

Definition sample_llm_result : LLMResult :=
  {| llm_status := "needs_review";
     llm_overall_score := 70;
     llm_violations := Some 1;
     llm_strengths := Some 2;
     llm_summary := "summary" |}.

End MergerVocabulary.

(** ** Retrieval *)
Section RetrievalVocabulary.
Import PyStr PyList SemanticSearch.



(** The boost after a number of matches: [0.1] added that many times
    to [0], each addition a float addition. *)
Definition boost_of (matches : nat) : Q :=
  Nat.iter matches (fun boost => float_add boost tenth) 0%Q.

(** Descending order of score, and the order among equal scores. *)
Definition score_ge (a b : SearchResult) : Prop :=
  (similarity_score b <= similarity_score a)%Q.

Definition sorted_desc (results : list SearchResult) : Prop :=
  StronglySorted score_ge results.



(** An index answer to run the statements on: three documents, one
    metadata entry, two distances, not in ascending order. *)
Definition sample_raw_results : RawResults :=
  {| documents := Some [["Homebound criteria"; "Skilled nursing visits"; "Plan of care"]];
     metadatas := Some [[ {| md_page_number := Some 12%Z;
                             md_section_header := Some "30.1.1";
                             md_chunk_id := Some 40%Z |} ]];
     distances := Some [[ (4 # 5)%Q; (1 # 10)%Q ]] |}.

Definition failing_embedder : string -> option (list Q) := fun _ => None.
Definition constant_embedder : string -> option (list Q) := fun _ => Some [(1 # 2)%Q].
Definition empty_store : list Q -> Z -> option (list (string * string)) -> outcome RawResults :=
  fun _ _ _ => Return {| documents := Some [[]]; metadatas := Some [[]]; distances := Some [[]] |}.
Definition sample_store : list Q -> Z -> option (list (string * string)) -> outcome RawResults :=
  fun _ _ _ => Return sample_raw_results.

Definition sample_results : list SearchResult :=
  Eval vm_compute in
    match _format_results sample_raw_results with
    | Return formatted => formatted
    | Raise _ => []
    end.

End RetrievalVocabulary.

(** ** Chunking *)
Section ChunkerVocabulary.
Import PyStr PyList Chunker.

Definition blank_line : string := String newline (String newline "").

(** The chunk is one sentence of the page that alone exceeds the
    budget, behind the header. *)
Definition is_oversized_sentence_chunk {token} (encode : string -> list token)
    (self : TextChunker) (page_data : Page) (chunk_text : string) : bool :=
  let section_header := default "" (page_section_header page_data) in
  let header_context := header_context_of section_header in
  let header_tokens := header_tokens_of encode section_header in
  existsb
    (fun para =>
       existsb
         (fun sentence =>
            (chunk_size self - header_tokens <? _count_tokens encode sentence)%Z
            && String.eqb chunk_text (header_context ++ sentence))
         (_split_into_sentences para))
    (_split_into_paragraphs (page_text page_data)).

(** The bound on chunk sizes, as a property of one run. *)
Definition chunks_within_size {token} (encode : string -> list token)
    (decode : list token -> string) (self : TextChunker) (pages_data : list Page) : Prop :=
  forall c, c ∈ chunk_documents encode decode self pages_data ->
    (token_count c <= chunk_size self)%Z
    \/ exists page_data, page_data ∈ pages_data
         /\ is_oversized_sentence_chunk encode self page_data (text c) = true.

(** Two configurations and a page to run the chunker on. *)
Definition small_chunker : TextChunker := {| chunk_size := 4; chunk_overlap := 3 |}.
Definition no_overlap_chunker : TextChunker := {| chunk_size := 4; chunk_overlap := 0 |}.
Definition two_paragraph_page : Page :=
  {| page_text := "one two three" ++ blank_line ++ "four five six";
     page_page_number := 1;
     page_section_header := None |}.

End ChunkerVocabulary.

(** ** Texts *)
Section TextVocabulary.
Import PyStr.

(** Every character of the text passes the test. *)
Fixpoint all_chars (P : ascii -> bool) (s : string) : bool :=
  match s with
  | EmptyString => true
  | String c s' => P c && all_chars P s'
  end.

(** The text is empty or made of blanks only. *)
Definition all_blank (s : string) : bool := all_chars isspace s.

(** The text occurs in one of the texts. *)
Definition occurs_in (texts : list string) (s : string) : Prop :=
  exists c, In c texts /\ contains s c = true.

(** Every text starts with the header context. *)
Definition headed (hc : string) (texts : list string) : Prop :=
  forall t, In t texts -> String.prefix hc t = true.

End TextVocabulary.

(** ** Pages and chunks *)
Section ChunkLoopVocabulary.
Import PyStr PyList Chunker.
Context {token : Type}.
Variable encode : string -> list token.
Variable decode : list token -> string.
Variable self : TextChunker.

(** The chunk texts of one page with its number and header. *)
Definition page_chunk_texts (page_data : Page)
    : list (string * Z * string) :=
  let page_number := page_page_number page_data in
  let section_header := default "" (page_section_header page_data) in
  map (fun chunk_text => (chunk_text, page_number, section_header))
      (_create_chunks_from_paragraphs encode decode self
         (_split_into_paragraphs (page_text page_data)) page_number section_header).

(** Chunk records for tagged texts, numbered after [chunk_id]. *)
Fixpoint numbered_from (chunk_id : Z)
    (tagged : list (string * Z * string)) : list Chunk :=
  match tagged with
  | [] => []
  | (chunk_text, page_number, section_header) :: rest =>
      {| chunk_id := chunk_id + 1;
         text := chunk_text;
         page_number := page_number;
         section_header := section_header;
         token_count := _count_tokens encode chunk_text;
         char_count := len chunk_text |}
      :: numbered_from (chunk_id + 1) rest
  end.

(** Total token count of a list of texts, each counted alone. *)
Fixpoint total_tokens (texts : list string) : Z :=
  match texts with
  | [] => 0%Z
  | t :: rest => (_count_tokens encode t + total_tokens rest)%Z
  end.

(** The text is in an emitted chunk or still in the buffer. *)
Definition kept (st : buffer) (s : string) : Prop :=
  occurs_in (chunks st) s \/ In s (current_chunk st).

(** What the paragraph loop owes a paragraph: the paragraph itself
    when it fits the budget, each of its sentences when it does not. *)
Definition owed (ht : Z) (para : string) (holds : string -> Prop) : Prop :=
  ((_count_tokens encode para <= chunk_size self - ht)%Z -> holds para)
  /\ ((chunk_size self - ht < _count_tokens encode para)%Z ->
      forall sentence, In sentence (_split_into_sentences para) -> holds sentence).

End ChunkLoopVocabulary.

(** A configuration with room for several paragraphs, and a page with
    a header. *)
Definition roomy_chunker : Chunker.TextChunker :=
  {| Chunker.chunk_size := 10; Chunker.chunk_overlap := 2 |}.
Definition headed_page : Chunker.Page :=
  {| Chunker.page_text := "one two three";
     Chunker.page_page_number := 7;
     Chunker.page_section_header := Some "Intro" |}.
Definition headed_page_chunk : Chunker.Chunk :=
  Eval vm_compute in
    match Chunker.chunk_documents Chunker.word_encode Chunker.word_decode
            small_chunker [headed_page] with
    | c :: _ => c
    | [] => Chunker.mkChunk 0 "" 0 "" 0 0
    end.

(** ** Extracted text *)
Section PdfVocabulary.
Import PyStr PDFProcessor.

(** A blank of the text can only be a space. *)
Definition plain_blank (c : ascii) : bool := negb (isspace c) || Ascii.eqb c " ".
Definition not_nul (c : ascii) : bool := negb (Ascii.eqb c nul).
Definition not_newline (c : ascii) : bool := negb (is_newline c).

(** The page texts that [extract_text_with_metadata] works from:
    those of [pdfplumber], or those of [PyPDF2] when [pdfplumber]
    raises. *)
Definition reader_pages (pdfplumber_texts pypdf2_texts : outcome (list (option string)))
    : outcome (list (option string)) :=
  match pdfplumber_texts with
  | Return extracted => Return extracted
  | Raise _ => pypdf2_texts
  end.

End PdfVocabulary.

(** ** Ranking *)
Section RankingVocabulary.
Import PyStr PyList SemanticSearch.

(** The similarity given to the [i]-th match. *)
Definition similarity_at (distances0 : list Q) (i : nat) : Q :=
  (1 - py_min (default 1%Q (distances0 !! i)) 1)%Q.

(** An index answer whose distances ascend, as the index lists them. *)
Definition ranked_raw_results : RawResults :=
  {| documents := Some [["Homebound criteria"; "Skilled nursing visits"; "Plan of care"]];
     metadatas := Some [[ {| md_page_number := Some 12%Z;
                             md_section_header := Some "30.1.1";
                             md_chunk_id := Some 40%Z |} ]];
     distances := Some [[ (1 # 10)%Q; (4 # 5)%Q ]] |}.

(** An index answer with the distances [1.0] and [0.7], the second
    given as the rational that the float [0.7] denotes. *)
Definition tie_raw_results : RawResults :=
  {| documents := Some [["Wound care plan"; "Unrelated text"]];
     metadatas := Some [[]];
     distances := Some [[ 1%Q; (3152519739159347 # 4503599627370496)%Q ]] |}.

Definition tie_store : list Q -> Z -> option (list (string * string)) -> outcome RawResults :=
  fun _ _ _ => Return tie_raw_results.



End RankingVocabulary.

(** ** Rules *)
Section RulesVocabulary.
Import PyStr Rules.

(** The note contains the phrase in some letter case. *)
Definition mentions (note phrase : string) : Prop :=
  exists pre w post, note = pre ++ w ++ post /\ lower w = phrase.

(** The categories the rule engine can report, in the order it
    reports them. *)
Definition RULE_CATEGORIES : list string :=
  (map fst REQUIRED_ELEMENTS
   ++ ["homebound_status"; "medical_necessity"; "visit_details"])%list.

(** The severity the rule engine gives to a category. *)
Definition rule_severity (category : string) : string :=
  if in_list category ["homebound_status"; "medical_necessity"] then "critical"
  else if in_list category ["assessment"; "interventions"; "plan"] then "major"
  else "minor".

(** The required elements none of whose keywords occurs in the
    lower-cased note. *)
Definition missing_elements (note_lower : string) : list string :=
  map fst (List.filter (fun p => negb (any_keyword_in (snd p) note_lower))
             REQUIRED_ELEMENTS).

Definition has_no_colon (s : string) : bool :=
  all_chars (fun c => negb (Ascii.eqb c ":")) s.
End RulesVocabulary.

(** ** Model responses *)
Section ParseVocabulary.
Import PyStr LLMChain.

(** What every violation read from a model response looks like: the
    fixed category, one of the three severities, the trimmed line as
    its description. *)
Definition parsed_shape (validation_text : string) (v : Violation) : Prop :=
  category v = "General"
  /\ In (severity v) ["critical"; "major"; "minor"]
  /\ recommendation v = ""
  /\ guideline_reference v = ""
  /\ (exists line, In line (split_lines validation_text) /\ description v = strip line)
  /\ description v <> ""
  /\ String.prefix "#" (description v) = false
  /\ contains (severity v) (lower (description v)) = true
  /\ (contains "critical" (lower (description v)) = true -> severity v = "critical")
  /\ (contains "major" (lower (description v)) = true ->
      severity v = "critical" \/ severity v = "major").

(** The text names a violation section: some line holds "violation" or
    "issue" in any letter case. *)
Definition has_violation_heading (validation_text : string) : bool :=
  contains "violation" (lower validation_text)
  || contains "issue" (lower validation_text).
End ParseVocabulary.

(** ** The validator *)
Section ValidateVocabulary.
Import PyStr PyList Validator.

(** The two lists of the dictionary that [LLMChain.validate_note]
    returns for an answer of the provider. *)
Definition llm_lists (response : outcome (option string))
    : list Violation * list string :=
  match response with
  | Return (Some validation_text) =>
      let result := LLMChain._parse_validation_response validation_text in
      (LLMChain.parsed_violations result, LLMChain.parsed_strengths result)
  | _ => ([], [])
  end.

(** The answer of the provider to the prompts built for a note. *)
Definition response_for (chat_completion : string -> string -> outcome (option string))
    (note_text : string) (guidelines : list SemanticSearch.SearchResult)
    : outcome (option string) :=
  let '(system_prompt, user_prompt) :=
    Prompts.format_validation_prompt note_text guidelines in
  chat_completion system_prompt user_prompt.

(** The violations reported for a note: those of the rules, then the
    first one read from the model response. *)
Definition reported_violations (rule_violations llm_violations : list Violation)
    : list Violation :=
  (rule_violations ++ firstn 1 llm_violations)%list.

(** A provider that answers every prompt with the same text, one that
    always raises, and a response to run the statements on. *)
Definition constant_completion (answer : string)
    : string -> string -> outcome (option string) :=
  fun _ _ => Return (Some answer).
Definition failing_completion : string -> string -> outcome (option string) :=
  fun _ _ => Raise (ValueError "connection refused").
Definition message_of (e : exn) : string :=
  match e with IndexError => "list index out of range" | ValueError msg => msg end.
Definition sample_response : string :=
  "## Violations
- Critical: homebound status is not documented
- Minor: visit times are unclear
## Strengths
- Vital signs are recorded".
Definition sample_note : string :=
  "Patient: John Doe. Date: 2024-01-15. Skilled nursing visit type.
Assessment and evaluation done, treatment given, vital signs taken.
Plan of care continuing. Signed RN. Time in 10:00 AM, time out 10:45 AM.
Patient is homebound and needs a walker.".
End ValidateVocabulary.

(** ** Embedding in batches *)
Section EmbedVocabulary.
Import PyStr PyList PyRange Embedder.

(** The provider answers a request with one vector per text. *)
Definition answers_in_kind (create_embeddings : list string -> outcome (list (list Q)))
    : Prop :=
  forall texts data, create_embeddings texts = Return data -> length data = length texts.

(** The first index of the batch that holds index [k]. *)
Definition batch_start (batch_size : Z) (k : nat) : nat :=
  Z.to_nat (batch_size * (Z.of_nat k / batch_size)).

(** The texts sent for the batch that holds index [k]. *)
Definition batch_texts (batch_size : Z) (chunks : list EmbeddedChunk) (k : nat)
    : list string :=
  map (fun c => Chunker.text (chunk c))
      (firstn (Z.to_nat batch_size) (skipn (batch_start batch_size k) chunks)).

(** What the handler does to a chunk of a failed batch. *)
Definition mark (c : EmbeddedChunk) : EmbeddedChunk :=
  match embedding c with
  | None => set_embedding None c
  | Some _ => c
  end.

(** The chunk at index [k] once its batch has been processed. *)
Definition embedded_as (create_embeddings : list string -> outcome (list (list Q)))
    (batch_size : Z) (chunks : list EmbeddedChunk) (k : nat) (c : EmbeddedChunk)
    : EmbeddedChunk :=
  match create_embeddings (batch_texts batch_size chunks k) with
  | Return data =>
      match data !! (k - batch_start batch_size k) with
      | Some e => set_embedding (Some e) c
      | None => c
      end
  | Raise _ => mark c
  end.

(** The list after the assignments of a response, after the handler,
    and after the batches in front of index [i]. *)
Definition stored (k : nat) (data : list (list Q)) (chunks : list EmbeddedChunk)
    : list EmbeddedChunk :=
  imap (fun j c =>
          if (k <=? j)%nat
          then match data !! (j - k) with
               | Some e => set_embedding (Some e) c
               | None => c
               end
          else c) chunks.

Definition marked (k n : nat) (chunks : list EmbeddedChunk) : list EmbeddedChunk :=
  imap (fun j c => if (k <=? j)%nat && (j <? k + n)%nat then mark c else c) chunks.

Definition progress (create_embeddings : list string -> outcome (list (list Q)))
    (batch_size : Z) (chunks : list EmbeddedChunk) (i : nat) : list EmbeddedChunk :=
  imap (fun j c =>
          if (j <? i)%nat then embedded_as create_embeddings batch_size chunks j c
          else c) chunks.
End EmbedVocabulary.

(** ** Inputs to run the statements on *)
Section Samples.
Import PyStr PyList.

Definition blank_page : Chunker.Page :=
  {| Chunker.page_text := "  " ++ blank_line ++ " ";
     Chunker.page_page_number := 1;
     Chunker.page_section_header := Some "Intro" |}.

(** A provider that answers each text with a vector of one number,
    its length, and chunks without embeddings. *)
Definition length_embedder : list string -> outcome (list (list Q)) :=
  fun texts => Return (map (fun t => [inject_Z (len t)]) texts).

Definition sample_embedded_chunks : list Embedder.EmbeddedChunk :=
  map (fun c => {| Embedder.chunk := c; Embedder.embedding := None |})
      (Chunker.chunk_documents Chunker.word_encode Chunker.word_decode small_chunker
         [two_paragraph_page; headed_page]).

(** The first violation read from [sample_response]. *)
Definition sample_parsed_violation : Violation :=
  {| category := "General";
     severity := "critical";
     description := "- Critical: homebound status is not documented";
     recommendation := "";
     guideline_reference := "" |}.

Definition note_without_homebound : string := "Patient seen today.".

End Samples.


(** * The rule engine *)
Section RulesFacts.
Import PyStr Rules.

(** The notes of [tests/test_validation.py]. *)
Example missing_homebound_status :
  map severity (check_homebound_status "
        Patient: John Doe, 78 years old
        Date: 2024-01-15
        Assessment: Patient is doing well.
        ") = ["critical"].
Proof. reflexivity. Qed.

Example with_homebound_status :
  check_homebound_status "
        Patient: John Doe, 78 years old
        Date: 2024-01-15
        Homebound Status: Patient is homebound, unable to leave home
        without taxing effort. Requires wheelchair for mobility.
        Assessment: Patient is doing well.
        " = [].
Proof. reflexivity. Qed.

Example medical_necessity_check :
  check_medical_necessity "
        Patient: John Doe, 78 years old
        Skilled nursing assessment performed.
        Wound care provided with sterile technique.
        Patient teaching on medication management.
        " = [].
Proof. reflexivity. Qed.

Example visit_times_found :
  re_findall time_pattern "Time In: 10:00 AM, Time Out: 10:45 AM"
  = ["10:00 AM"; "10:45 AM"].
Proof. reflexivity. Qed.

(** Claim C10. On the empty note every check fires: [validate_note]
    returns twelve violations, the nine required elements in the order
    of [REQUIRED_ELEMENTS], then [homebound_status],
    [medical_necessity] and [visit_details]; two are critical, three
    major and seven minor. *)
Theorem validate_note_empty_text :
  let found := validate_note "" in
  map category found
  = [ "patient_info"; "visit_date"; "visit_type"; "assessment"; "interventions";
      "vital_signs"; "plan"; "nurse_signature"; "time_in_out";
      "homebound_status"; "medical_necessity"; "visit_details" ]
  /\ length found = 12
  /\ found = (check_required_elements "" ++ check_homebound_status ""
              ++ check_medical_necessity "" ++ check_visit_duration "")%list
  /\ map category (check_required_elements "") = map fst REQUIRED_ELEMENTS
  /\ length (check_required_elements "") = 9
  /\ map category (check_homebound_status "") = ["homebound_status"]
  /\ map category (check_medical_necessity "") = ["medical_necessity"]
  /\ map category (check_visit_duration "") = ["visit_details"]
  /\ map severity found
     = [ "minor"; "minor"; "minor"; "major"; "major"; "minor"; "major"; "minor";
         "minor"; "critical"; "critical"; "minor" ]
  /\ severity_count "critical" found = 2%Z
  /\ severity_count "major" found = 3%Z
  /\ severity_count "minor" found = 7%Z.
Proof.
  cbv zeta. repeat split; vm_compute; reflexivity.
Qed.

End RulesFacts.

(** * The merger *)
Section MergerFacts.
Import PyStr PyList Validator.

(** One goal per conjunct. *)
Ltac conjuncts := repeat match goal with |- _ /\ _ => split end.

Lemma merge_loop a lv : forall h all,
  h !! a = Some (ViolationList all) ->
  for_each lv (merge_body a) h
  = Some (tt, <[a := ViolationList (merge_violations all lv)]> h).
Proof.
  induction lv as [|v lv IH]; intros h all Hl; cbn [for_each merge_violations].
  - unfold ret. now rewrite list_insert_id.
  - unfold bind, merge_body at 1, bind, load_violations. rewrite Hl.
    destruct (is_duplicate v all) eqn:Hd; cbn [negb].
    + unfold ret. now apply IH.
    + unfold append_violation. rewrite Hl.
      rewrite (IH _ (all ++ [v])%list).
      * now rewrite list_insert_insert_eq.
      * apply list_lookup_insert_eq. eapply lookup_lt_Some; eauto.
Qed.

Lemma violations_at_Some h l vs :
  violations_at h l = Some vs -> h !! l = Some (ViolationList vs).
Proof.
  unfold violations_at. destruct (h !! l) as [[]|]; congruence.
Qed.

Lemma strs_at_Some h l ss :
  strs_at h l = Some ss -> h !! l = Some (StrList ss).
Proof.
  unfold strs_at. destruct (h !! l) as [[]|]; congruence.
Qed.



Lemma combine_violations_run h rule llm rv lv :
  violations_at h rule = Some rv ->
  llm_violations_in h llm = Some lv ->
  exists garbage,
    combine_violations rule llm h
    = Some ((length h, merge_violations rv lv),
            (h ++ ViolationList (merge_violations rv lv) :: garbage)%list).
Proof.
  intros Hr Hl. apply violations_at_Some in Hr.
  unfold llm_violations_in in Hl.
  unfold combine_violations, bind, load_violations at 1.
  rewrite Hr. unfold new_list at 1.
  destruct (llm_violations llm) as [l|] eqn:El; cbn [get_or_new].
  - apply violations_at_Some in Hl. exists [].
    unfold ret at 1, load_violations at 1.
    rewrite lookup_app_l by (eapply lookup_lt_Some; eauto). rewrite Hl.
    change (for_each lv _) with (for_each lv (merge_body (length h))).
    rewrite (merge_loop _ _ _ rv) by (apply list_lookup_middle; reflexivity).
    rewrite insert_app_r_alt by lia. rewrite Nat.sub_diag. cbn [insert list_insert].
    unfold load_violations. rewrite list_lookup_middle by reflexivity.
    reflexivity.
  - injection Hl as <-. exists [ViolationList []].
    unfold new_list, load_violations at 1.
    rewrite lookup_app_r by (rewrite length_app; cbn; lia).
    replace (length (h ++ [ViolationList rv]) - length (h ++ [ViolationList rv])) with 0 by lia.
    cbn [lookup list_lookup for_each]. unfold ret at 1, load_violations.
    rewrite <- app_assoc. cbn [app].
    rewrite list_lookup_middle by reflexivity. reflexivity.
Qed.

Lemma collect_strengths_run h1 llm ss merged :
  llm_strengths_in h1 llm = Some ss ->
  exists s' h2,
    collect_strengths llm merged h1
    = Some ((s', (ss ++ affirmations merged)%list), h2)
    /\ strs_at h2 s' = Some (ss ++ affirmations merged)%list
    /\ (forall s, llm_strengths llm = Some s -> s' = s)
    /\ (llm_strengths llm = None -> s' = length h1)
    /\ (forall l, l <> s' -> l < length h1 -> h2 !! l = h1 !! l).
Proof.
  unfold llm_strengths_in, collect_strengths. intros Hs.
  destruct (llm_strengths llm) as [s|] eqn:Es; cbn [get_or_new].
  - apply strs_at_Some in Hs.
    assert (Hlt : s < length h1) by (eapply lookup_lt_Some; eauto).
    exists s. destruct merged as [|v merged]; cbn [affirmations].
    + eexists. conjuncts.
      * unfold bind, ret, append_str, load_strs. rewrite Hs.
        rewrite list_lookup_insert_eq by assumption.
        rewrite list_insert_insert_eq.
        rewrite list_lookup_insert_eq by assumption.
        rewrite <- app_assoc. reflexivity.
      * unfold strs_at. rewrite list_lookup_insert_eq by assumption. reflexivity.
      * congruence.
      * congruence.
      * intros l Hne _. apply list_lookup_insert_ne. congruence.
    + exists h1. conjuncts.
      * unfold bind, ret, load_strs. rewrite Hs, app_nil_r. reflexivity.
      * unfold strs_at. rewrite Hs, app_nil_r. reflexivity.
      * congruence.
      * congruence.
      * reflexivity.
  - injection Hs as <-. exists (length h1).
    destruct merged as [|v merged]; cbn [affirmations].
    + eexists. conjuncts.
      * unfold bind, ret, new_list, append_str, load_strs.
        rewrite list_lookup_middle by reflexivity.
        rewrite list_lookup_insert_eq by (rewrite length_app; cbn; lia).
        rewrite list_insert_insert_eq.
        rewrite list_lookup_insert_eq by (rewrite length_app; cbn; lia).
        reflexivity.
      * unfold strs_at.
        rewrite list_lookup_insert_eq by (rewrite length_app; cbn; lia). reflexivity.
      * congruence.
      * reflexivity.
      * intros l Hne Hlt. rewrite list_lookup_insert_ne by congruence.
        now apply lookup_app_l.
    + eexists. conjuncts.
      * unfold bind, ret, new_list, load_strs.
        rewrite list_lookup_middle by reflexivity. reflexivity.
      * unfold strs_at. rewrite list_lookup_middle by reflexivity. reflexivity.
      * congruence.
      * reflexivity.
      * intros l Hne Hlt. now apply lookup_app_l.
Qed.

Lemma combine_results_run h rule llm guidelines rv lv ss :
  violations_at h rule = Some rv ->
  llm_violations_in h llm = Some lv ->
  llm_strengths_in h llm = Some ss ->
  let merged := merge_violations rv lv in
  let critical_count := count_severity "critical" merged in
  let major_count := count_severity "major" merged in
  let minor_count := count_severity "minor" merged in
  let score := compute_score critical_count major_count minor_count in
  exists res h',
    _combine_results rule llm guidelines h = Some (res, h')
    /\ violations res = length h
    /\ violations_at h' (violations res) = Some merged
    /\ overall_score res = score
    /\ status res = determine_status critical_count major_count score
    /\ strs_at h' (strengths res) = Some (ss ++ affirmations merged)%list
    /\ (forall s, llm_strengths llm = Some s -> strengths res = s)
    /\ (llm_strengths llm = None -> length h < strengths res)
    /\ (forall l, l < length h -> l <> strengths res -> h' !! l = h !! l).
Proof.
  intros Hr Hl Hs merged critical_count major_count minor_count score.
  destruct (combine_violations_run h rule llm rv lv Hr Hl) as [garbage Hrun].
  fold merged in Hrun.
  set (h1 := (h ++ ViolationList merged :: garbage)%list) in *.
  assert (Hs1 : llm_strengths_in h1 llm = Some ss).
  { unfold llm_strengths_in in *. destruct (llm_strengths llm) as [s|]; [|assumption].
    unfold strs_at in *. subst h1.
    destruct (h !! s) as [o|] eqn:Eo; [|discriminate].
    rewrite lookup_app_l by (eapply lookup_lt_Some; eauto). now rewrite Eo. }
  destruct (collect_strengths_run h1 llm ss merged Hs1)
    as (s' & h2 & Hrun2 & Hstr & Hsome & Hnone & Hframe).
  eexists _, h2. split.
  { unfold _combine_results, bind at 1. rewrite Hrun.
    unfold bind. rewrite Hrun2. unfold ret. reflexivity. }
  cbn [violations overall_score status strengths].
  assert (Hlen1 : length h < length h1) by (subst h1; rewrite length_app; cbn; lia).
  assert (Hne : s' <> length h).
  { destruct (llm_strengths llm) as [s|] eqn:Es.
    - rewrite (Hsome s eq_refl). unfold llm_strengths_in in Hs. rewrite Es in Hs.
      apply strs_at_Some, lookup_lt_Some in Hs. lia.
    - rewrite (Hnone eq_refl). lia. }
  repeat split.
  - unfold violations_at. rewrite Hframe by (auto; lia).
    subst h1. rewrite list_lookup_middle by reflexivity. reflexivity.
  - exact Hstr.
  - exact Hsome.
  - intros E. rewrite (Hnone E). exact Hlen1.
  - intros l Hlt Hne'. rewrite Hframe by (auto; lia).
    subst h1. now apply lookup_app_l.
Qed.

(** Pure facts about the merge. *)
Lemma is_duplicate_spec v all :
  is_duplicate v all = true <-> In (category v) (map category all).
Proof.
  unfold is_duplicate. rewrite existsb_exists, in_map_iff. split.
  - intros (x & Hx & E). apply String.eqb_eq in E. eauto.
  - intros (x & E & Hx). exists x. split; [assumption|]. now apply String.eqb_eq.
Qed.

Lemma merge_violations_extends lv : forall all,
  exists extra, merge_violations all lv = (all ++ extra)%list /\ sublist extra lv.
Proof.
  induction lv as [|v lv IH]; intros all; cbn [merge_violations].
  - exists []. split; [now rewrite app_nil_r | constructor].
  - destruct (is_duplicate v all).
    + destruct (IH all) as (extra & E & Hsub). exists extra. split; [assumption|].
      now apply sublist_cons.
    + destruct (IH (all ++ [v])%list) as (extra & E & Hsub). exists (v :: extra).
      split; [now rewrite E, <- app_assoc | now apply sublist_skip].
Qed.

Lemma merge_violations_NoDup lv : forall all,
  NoDup (map category all) -> NoDup (map category (merge_violations all lv)).
Proof.
  induction lv as [|v lv IH]; intros all Hnd; cbn [merge_violations]; [assumption|].
  destruct (is_duplicate v all) eqn:Hd; apply IH; [assumption|].
  rewrite map_app. cbn [map]. apply NoDup_app. split; [assumption|]. split.
  - intros c Hc Hin. apply list_elem_of_In in Hc.
    apply list_elem_of_In in Hin. destruct Hin as [<-|[]].
    apply is_duplicate_spec in Hc. congruence.
  - apply NoDup_singleton.
Qed.

Lemma merge_violations_keeps lv : forall all c,
  In c (map category all) -> In c (map category (merge_violations all lv)).
Proof.
  induction lv as [|v lv IH]; intros all c Hc; cbn [merge_violations]; [assumption|].
  apply IH. destruct (is_duplicate v all); [assumption|].
  rewrite map_app. apply in_or_app. now left.
Qed.

Lemma merge_violations_covers lv : forall all v,
  In v lv -> In (category v) (map category (merge_violations all lv)).
Proof.
  induction lv as [|w lv IH]; intros all v Hin; [destruct Hin|].
  cbn [merge_violations]. destruct Hin as [->|Hin]; [|now apply IH].
  apply merge_violations_keeps.
  destruct (is_duplicate v all) eqn:Hd.
  - now apply is_duplicate_spec.
  - rewrite map_app. apply in_or_app. right. now left.
Qed.

Lemma count_severity_spec sev vs :
  count_severity sev vs = severity_count sev vs.
Proof.
  unfold count_severity, severity_count.
  enough (G : forall n, fold_left
     (fun (n : Z) v => if String.eqb (severity v) sev then (n + 1)%Z else n) vs n
     = (n + Z.of_nat (length (List.filter (fun v => String.eqb (severity v) sev) vs)))%Z)
    by (now rewrite G).
  induction vs as [|v vs IH]; intros n; cbn [fold_left List.filter].
  - cbn. lia.
  - rewrite IH. destruct (String.eqb (severity v) sev); cbn [length]; lia.
Qed.

Example sample_score :
  option_map (fun r => (overall_score (fst r), status (fst r)))
             (_combine_results 0 sample_llm_result [] sample_heap)
  = Some (35%Z, "non_compliant")
  /\ option_map (fun r => (overall_score (fst r), status (fst r)))
                (_combine_results 0 sample_llm_result [] clean_heap)
     = Some (100%Z, "compliant").
Proof. split; reflexivity. Qed.

Lemma py_max_0 x : py_max 0 x = Z.max 0 x.
Proof. unfold py_max. destruct (Z.ltb_spec 0 x); lia. Qed.

(** Claim C2. For every call, with rule violations [rv] and model
    violations [lv]: [_combine_results] returns, the violation list it
    hands back is the merge of [rv] and [lv], and the score it returns
    is [max(0, 100 - 30*critical - 15*major - 5*minor)] over that
    list. Every list is the merged list of a call, the one with that
    rule list and no model violation, and the score of that call is
    the formula over the list. One critical, two major and one minor
    violation give 35, and an empty merged list gives 100 with status
    [compliant]. *)
Theorem combine_results_score h rule llm guidelines rv lv ss :
  violations_at h rule = Some rv ->
  llm_violations_in h llm = Some lv ->
  llm_strengths_in h llm = Some ss ->
  let merged := merge_violations rv lv in
  let formula (vs : list Violation) :=
    Z.max 0 (100 - 30 * severity_count "critical" vs
                 - 15 * severity_count "major" vs
                 - 5 * severity_count "minor" vs)%Z in
  exists res h',
    _combine_results rule llm guidelines h = Some (res, h')
    /\ violations_at h' (violations res) = Some merged
    /\ overall_score res = formula merged
    /\ (lv = [] -> merged = rv /\ overall_score res = formula rv)
    /\ (severity_count "critical" merged = 1%Z ->
        severity_count "major" merged = 2%Z ->
        severity_count "minor" merged = 1%Z ->
        overall_score res = 35%Z)
    /\ (merged = [] -> overall_score res = 100%Z /\ status res = "compliant").
Proof.
  intros Hr Hl Hs merged formula.
  destruct (combine_results_run h rule llm guidelines rv lv ss Hr Hl Hs)
    as (res & h' & Hrun & _ & Hv & Hscore & Hstatus & _).
  fold merged in Hv, Hscore, Hstatus.
  exists res, h'.
  rewrite !count_severity_spec in Hscore, Hstatus.
  unfold compute_score in Hscore. rewrite py_max_0 in Hscore.
  assert (Hf : overall_score res = formula merged).
  { rewrite Hscore. unfold formula. f_equal. lia. }
  split; [assumption|]. split; [assumption|]. split; [assumption|].
  split; [|split].
  - intros ->. assert (E : merged = rv) by reflexivity.
    split; [exact E|]. now rewrite <- E.
  - intros Hc Hm Hn. rewrite Hf. unfold formula. rewrite Hc, Hm, Hn. reflexivity.
  - intros E. rewrite Hstatus, Hf, E. split; reflexivity.
Qed.

Lemma combine_results_score_witness :
  (exists res h',
     _combine_results 0 sample_llm_result [] sample_heap = Some (res, h')
     /\ violations_at h' (violations res)
        = Some [ sample_violation "homebound_status" "critical";
                 sample_violation "plan" "major";
                 sample_violation "General" "major";
                 sample_violation "visit_details" "minor" ]
     /\ overall_score res = 35%Z)
  /\ (exists res h',
        _combine_results 0 sample_llm_result [] clean_heap = Some (res, h')
        /\ violations_at h' (violations res) = Some []
        /\ overall_score res = 100%Z
        /\ status res = "compliant").
Proof.
  split.
  - pose proof (combine_results_score sample_heap 0 sample_llm_result []
                  [ sample_violation "homebound_status" "critical";
                    sample_violation "plan" "major" ]
                  [ sample_violation "plan" "minor";
                    sample_violation "General" "major";
                    sample_violation "General" "minor";
                    sample_violation "visit_details" "minor" ]
                  ["Vital signs documented"] eq_refl eq_refl eq_refl) as H.
    cbv zeta in H. destruct H as (res & h' & Hrun & Hv & Hscore & _).
    exists res, h'. split; [exact Hrun|]. split; [exact Hv | exact Hscore].
  - pose proof (combine_results_score clean_heap 0 sample_llm_result []
                  [] [] ["Vital signs documented"] eq_refl eq_refl eq_refl) as H.
    cbv zeta in H. destruct H as (res & h' & Hrun & Hv & Hscore & _ & _ & Hempty).
    exists res, h'. split; [exact Hrun|]. split; [exact Hv|].
    exact (Hempty eq_refl).
Defined.

(** Claim C3. For every call, over the merged list that the call
    hands back and the score computed from it: the status returned by
    [_combine_results] is [non_compliant] exactly when there is a
    critical violation or the score is below 60; otherwise
    [needs_review] exactly when there are more than two major
    violations or the score is below 80; otherwise [compliant]. *)
Theorem combine_results_status h rule llm guidelines rv lv ss :
  violations_at h rule = Some rv ->
  llm_violations_in h llm = Some lv ->
  llm_strengths_in h llm = Some ss ->
  let merged := merge_violations rv lv in
  let critical := severity_count "critical" merged in
  let major := severity_count "major" merged in
  let minor := severity_count "minor" merged in
  let score := Z.max 0 (100 - 30 * critical - 15 * major - 5 * minor)%Z in
  let failing := (0 < critical \/ score < 60)%Z in
  let doubtful := (2 < major \/ score < 80)%Z in
  exists res h',
    _combine_results rule llm guidelines h = Some (res, h')
    /\ violations_at h' (violations res) = Some merged
    /\ overall_score res = score
    /\ (status res = "non_compliant" <-> failing)
    /\ (status res = "needs_review" <-> ~ failing /\ doubtful)
    /\ (status res = "compliant" <-> ~ failing /\ ~ doubtful).
Proof.
  intros Hr Hl Hs merged critical major minor score failing doubtful.
  destruct (combine_results_run h rule llm guidelines rv lv ss Hr Hl Hs)
    as (res & h' & Hrun & _ & Hv & Hscore & Hstatus & _).
  fold merged in Hv, Hscore, Hstatus.
  rewrite !count_severity_spec in Hscore, Hstatus.
  fold critical major minor in Hscore, Hstatus.
  assert (Hf : compute_score critical major minor = score).
  { unfold compute_score. rewrite py_max_0. unfold score. f_equal. lia. }
  rewrite Hf in Hscore, Hstatus.
  exists res, h'.
  split; [assumption|]. split; [assumption|]. split; [assumption|].
  rewrite Hstatus. unfold determine_status, failing, doubtful.
  destruct (Z.ltb_spec 0 critical), (Z.ltb_spec score 60),
           (Z.ltb_spec 2 major), (Z.ltb_spec score 80);
    cbn [orb]; repeat split; intros; try discriminate; try lia; try tauto.
Qed.

Lemma combine_results_status_witness :
  (exists res h',
     _combine_results 0 sample_llm_result [] sample_heap = Some (res, h')
     /\ overall_score res = 35%Z /\ status res = "non_compliant")
  /\ (exists res h',
        _combine_results 0 sample_llm_result [] review_heap = Some (res, h')
        /\ overall_score res = 70%Z /\ status res = "needs_review")
  /\ (exists res h',
        _combine_results 0 sample_llm_result [] clean_heap = Some (res, h')
        /\ overall_score res = 100%Z /\ status res = "compliant").
Proof.
  split; [|split].
  - pose proof (combine_results_status sample_heap 0 sample_llm_result []
                  [ sample_violation "homebound_status" "critical";
                    sample_violation "plan" "major" ]
                  [ sample_violation "plan" "minor";
                    sample_violation "General" "major";
                    sample_violation "General" "minor";
                    sample_violation "visit_details" "minor" ]
                  ["Vital signs documented"] eq_refl eq_refl eq_refl) as H.
    cbv zeta in H. destruct H as (res & h' & Hrun & _ & Hscore & Hfail & _).
    exists res, h'. split; [exact Hrun|]. split; [exact Hscore|].
    apply Hfail. left. reflexivity.
  - pose proof (combine_results_status review_heap 0 sample_llm_result []
                  [ sample_violation "plan" "major" ]
                  [ sample_violation "plan" "minor";
                    sample_violation "General" "major";
                    sample_violation "General" "minor" ]
                  ["Vital signs documented"] eq_refl eq_refl eq_refl) as H.
    cbv zeta in H. destruct H as (res & h' & Hrun & _ & Hscore & _ & Hreview & _).
    exists res, h'. split; [exact Hrun|]. split; [exact Hscore|].
    apply Hreview. split.
    + intros [H|H]; vm_compute in H; discriminate H.
    + right. reflexivity.
  - pose proof (combine_results_status clean_heap 0 sample_llm_result []
                  [] [] ["Vital signs documented"] eq_refl eq_refl eq_refl) as H.
    cbv zeta in H. destruct H as (res & h' & Hrun & _ & Hscore & _ & _ & Hok).
    exists res, h'. split; [exact Hrun|]. split; [exact Hscore|].
    apply Hok. split; intros [H|H]; vm_compute in H; discriminate H.
Defined.

(** Claim C4. When the rule violations have pairwise distinct
    categories, the merged list has pairwise distinct categories; it
    is the rule list followed by a subsequence of the model
    violations, none of which carries a category of a rule violation;
    and a model violation is left out only when its category is
    already in the merged list. The caller's rule list is another
    object than the merged list and is left as it was. *)
Theorem combine_results_dedup h rule llm guidelines rv lv ss :
  violations_at h rule = Some rv ->
  llm_violations_in h llm = Some lv ->
  llm_strengths_in h llm = Some ss ->
  NoDup (map category rv) ->
  exists res h' merged extra,
    _combine_results rule llm guidelines h = Some (res, h')
    /\ violations_at h' (violations res) = Some merged
    /\ NoDup (map category merged)
    /\ merged = (rv ++ extra)%list
    /\ sublist extra lv
    /\ (forall v, v ∈ extra -> category v ∉ map category rv)
    /\ (forall v, v ∈ lv -> category v ∈ map category merged)
    /\ violations res <> rule
    /\ violations_at h' rule = Some rv.
Proof.
  intros Hr Hl Hs Hnd.
  destruct (combine_results_run h rule llm guidelines rv lv ss Hr Hl Hs)
    as (res & h' & Hrun & Hfresh & Hv & _ & _ & Hstr & Hsome & Hnone & Hframe).
  destruct (merge_violations_extends lv rv) as (extra & E & Hsub).
  pose proof (merge_violations_NoDup lv rv Hnd) as Hnd'.
  assert (Hlt : rule < length h)
    by (apply violations_at_Some in Hr; eapply lookup_lt_Some; eauto).
  exists res, h', (merge_violations rv lv), extra.
  repeat (split; [assumption|]). split; [|split; [|split]].
  - intros v Hin Hc. rewrite E, map_app in Hnd'.
    apply NoDup_app in Hnd' as (_ & Hdisj & _).
    apply (Hdisj (category v)); [assumption|].
    apply list_elem_of_In, in_map. now apply list_elem_of_In.
  - intros v Hin. apply list_elem_of_In, merge_violations_covers.
    now apply list_elem_of_In.
  - lia.
  - unfold violations_at. rewrite Hframe; [exact Hr | assumption |].
    intros ->. unfold violations_at, strs_at in *.
    destruct (llm_strengths llm) as [s|] eqn:Es.
    + rewrite (Hsome s eq_refl) in *. unfold llm_strengths_in in Hs. rewrite Es in Hs.
      unfold strs_at in Hs. destruct (h !! s) as [[]|]; discriminate.
    + specialize (Hnone eq_refl). lia.
Qed.

Lemma combine_results_dedup_witness :
  let rv := [ sample_violation "homebound_status" "critical";
              sample_violation "plan" "major" ] in
  let lv := [ sample_violation "plan" "minor";
              sample_violation "General" "major";
              sample_violation "General" "minor";
              sample_violation "visit_details" "minor" ] in
  exists res h' merged extra,
    _combine_results 0 sample_llm_result [] sample_heap = Some (res, h')
    /\ violations_at h' (violations res) = Some merged
    /\ NoDup (map category merged)
    /\ merged = (rv ++ extra)%list
    /\ sublist extra lv
    /\ (forall v, v ∈ extra -> category v ∉ map category rv)
    /\ (forall v, v ∈ lv -> category v ∈ map category merged)
    /\ violations res <> 0
    /\ violations_at h' 0 = Some rv.
Proof.
  intros rv lv.
  apply (combine_results_dedup sample_heap 0 sample_llm_result [] rv lv
           ["Vital signs documented"]); try reflexivity.
  cbn. repeat (apply NoDup_cons_2;
               [rewrite list_elem_of_In; cbn; intuition discriminate|]).
  apply NoDup_nil_2.
Defined.

(** Whenever the model result comes with a [strengths] list, the
    result holds that very list object, extended in place when no
    violation is left; the violation list of the result is a new
    object. *)
Lemma combine_results_strengths_aliased h rule llm guidelines rv lv ss s :
  violations_at h rule = Some rv ->
  llm_violations_in h llm = Some lv ->
  llm_strengths llm = Some s ->
  strs_at h s = Some ss ->
  exists res h',
    _combine_results rule llm guidelines h = Some (res, h')
    /\ strengths res = s
    /\ strs_at h' s = Some (ss ++ affirmations (merge_violations rv lv))%list
    /\ violations res = length h.
Proof.
  intros Hr Hl Es Hs.
  assert (Hs' : llm_strengths_in h llm = Some ss)
    by (unfold llm_strengths_in; now rewrite Es).
  destruct (combine_results_run h rule llm guidelines rv lv ss Hr Hl Hs')
    as (res & h' & Hrun & Hfresh & _ & _ & _ & Hstr & Hsome & _).
  exists res, h'. rewrite <- (Hsome s Es). auto.
Qed.

(** Claim C5, at the call [_combine_results([], llm_result, [])] with
    [llm_result = {'violations': [], 'strengths': ['Vital signs documented']}]:
    the [strengths] of the result is the list object of [llm_result]
    itself, and the call has appended the two affirmations to it. *)
Theorem combine_results_shares_strengths :
  exists res h',
    _combine_results 0 sample_llm_result [] clean_heap = Some (res, h')
    /\ llm_strengths sample_llm_result = Some (strengths res)
    /\ strs_at clean_heap (strengths res) = Some ["Vital signs documented"]
    /\ strs_at h' (strengths res)
       = Some [ "Vital signs documented";
                "All required elements are present";
                "Documentation meets CMS guidelines" ].
Proof.
  eexists _, _. split; [vm_compute; reflexivity|].
  repeat split.
Qed.


End MergerFacts.

(** * Retrieval scoring *)
Section RetrievalFacts.
Import PyStr PyList SemanticSearch.

Lemma py_min_Qmin a b : (py_min a b == Qmin a b)%Q.
Proof.
  unfold py_min, Qltb. destruct (Qle_bool a b) eqn:E; cbn [negb].
  - apply Qle_bool_iff in E. now rewrite Q.min_l.
  - assert (H : ~ (a <= b)%Q) by (rewrite <- Qle_bool_iff; congruence).
    apply Qnot_le_lt, Qlt_le_weak in H. now rewrite Q.min_r.
Qed.

Lemma py_min_le_r a b : (py_min a b <= b)%Q.
Proof. rewrite py_min_Qmin. apply Q.le_min_r. Qed.

Lemma similarity_in_unit_interval d :
  (0 <= d)%Q -> (0 <= 1 - py_min d 1 <= 1)%Q.
Proof.
  intros Hd. rewrite py_min_Qmin.
  destruct (Q.min_spec d 1) as [[H E]|[H E]]; rewrite E; lra.
Qed.

Lemma imap_lookup_Some {A B} (f : nat -> A -> B) l i y :
  imap f l !! i = Some y -> exists x, l !! i = Some x /\ y = f i x.
Proof.
  rewrite list_lookup_imap. destruct (l !! i); cbn; [|discriminate].
  intros [= <-]. eauto.
Qed.












(** The boosts of one, two, three and ten matches are the floats
    [0.1], [0.2], [0.30000000000000004] and [0.9999999999999999]. *)
Example boost_of_values :
  map boost_of [1; 2; 3; 10]
  = [ (3602879701896397 # 36028797018963968)%Q;
      (3602879701896397 # 18014398509481984)%Q;
      (1351079888211149 # 4503599627370496)%Q;
      (9007199254740991 # 9007199254740992)%Q ].
Proof. vm_compute. reflexivity. Qed.

Lemma slice_to_firstn {A} (n : Z) (l : list A) :
  (0 <= n)%Z -> slice_to n l = firstn (Z.to_nat n) l.
Proof.
  intros Hn. unfold slice_to. destruct (Z.ltb_spec n 0); [lia|].
  destruct (Z.le_gt_cases n (Z.of_nat (length l))).
  - now rewrite Z.min_l.
  - rewrite Z.min_r by lia. rewrite Nat2Z.id.
    rewrite !firstn_all2; [reflexivity | lia | lia].
Qed.





(** The rounding of the boost decides ties: a result at distance 1.0
    that matches three keywords gets the score [0.30000000000000004],
    which is the score of a result at distance 0.7; the two stay in
    their incoming order. *)
Example hybrid_search_float_tie :
  exists first second,
    hybrid_search constant_embedder tie_store "wound" 2
      (Some ["wound"; "care"; "plan"]) = Return [first; second]
    /\ text first = "Wound care plan" /\ text second = "Unrelated text"
    /\ similarity_score first = (1351079888211149 # 4503599627370496)%Q
    /\ (similarity_score second == similarity_score first)%Q.
Proof.
  eexists _, _. split; [vm_compute; reflexivity|]. repeat split.
Qed.

(** Claim C9, as the code has it: when the embedding of the query
    fails, [search] returns the empty list, whatever the index holds. *)
Theorem search_embedding_failure_returns_empty
    emb store query n_results filter_metadata :
  emb query = None ->
  search emb store query n_results filter_metadata = Return [].
Proof. intros H. unfold search. now rewrite H. Qed.

Lemma search_embedding_failure_returns_empty_witness :
  search failing_embedder sample_store "homebound status" 5 None = Return [].
Proof.
  apply (search_embedding_failure_returns_empty failing_embedder sample_store
           "homebound status" 5 None).
  reflexivity.
Defined.

(** Claim C9 fails as stated: with a failing embedding provider
    [search] raises nothing, and returns what a search with a working
    provider returns when the index has no match. *)
Lemma search_embedding_failure_not_signalled :
  failing_embedder "homebound status" = None
  /\ search failing_embedder sample_store "homebound status" 5 None = Return []
  /\ search constant_embedder empty_store "homebound status" 5 None = Return []
  /\ ~ exists e, search failing_embedder sample_store "homebound status" 5 None = Raise e.
Proof.
  repeat split. intros [e H]. discriminate H.
Qed.

End RetrievalFacts.

(** * The chunker *)
Section ChunkerFacts.
Import PyStr PyList Chunker.

Lemma append_empty_r s : s ++ "" = s.
Proof. induction s as [|c s IH]; cbn; [reflexivity | now rewrite IH]. Qed.

Lemma concat_empty_cons x l : String.concat "" (x :: l) = x ++ String.concat "" l.
Proof.
  destruct l as [|y l]; cbn [String.concat]; [|reflexivity].
  now rewrite append_empty_r.
Qed.

Lemma append_assoc_char piece c s : (piece ++ String c "") ++ s = piece ++ String c s.
Proof. induction piece as [|d piece IH]; cbn; [reflexivity | now rewrite IH]. Qed.

Lemma word_pieces_concat s : forall piece in_word,
  String.concat "" (word_pieces_from piece in_word s) = piece ++ s.
Proof.
  induction s as [|c s IH]; intros piece in_word; cbn [word_pieces_from].
  - rewrite append_empty_r. destruct piece; reflexivity.
  - destruct (Ascii.eqb c " " && in_word).
    + rewrite concat_empty_cons, IH. reflexivity.
    + rewrite IH. apply append_assoc_char.
Qed.

(** Decoding the pieces of a text gives the text back. *)
Lemma word_decode_encode s : word_decode (word_encode s) = s.
Proof. unfold word_decode, word_encode. now rewrite word_pieces_concat. Qed.

(** A page of three short sentences with room for all of them gives
    one chunk. *)
Example three_sentences_one_chunk :
  map text
    (chunk_documents word_encode word_decode {| chunk_size := 1000; chunk_overlap := 200 |}
       [ {| page_text := "A. B. C."; page_page_number := 1;
            page_section_header := Some "" |} ])
  = ["A. B. C."].
Proof. reflexivity. Qed.

Section TokenizerFacts.
Context {token : Type}.
Variable encode : string -> list token.
Variable decode : list token -> string.
Variable self : TextChunker.

Lemma slice_from_neg_zero (tokens : list token) : slice_from (- 0) tokens = tokens.
Proof. unfold slice_from. cbn. now rewrite Z.min_l by lia. Qed.

Lemma slice_from_last (n : Z) (tokens : list token) :
  (1 <= n < Z.of_nat (length tokens))%Z ->
  Z.of_nat (length (slice_from (- n) tokens)) = n.
Proof.
  intros Hn. unfold slice_from. destruct (Z.ltb_spec (- n) 0); [|lia].
  rewrite Z.max_r by lia. rewrite length_skipn. lia.
Qed.

(** With a zero overlap width the whole flushed buffer is carried over. *)
Lemma get_overlap_text_zero_width chunk chunks :
  chunk_overlap self = 0%Z ->
  decode (encode (join " " (chunk :: chunks))) = join " " (chunk :: chunks) ->
  _get_overlap_text encode decode self (chunk :: chunks) = join " " (chunk :: chunks).
Proof.
  intros Hw Hrt. unfold _get_overlap_text. rewrite Hw.
  destruct (Z.leb_spec (Z.of_nat (length (encode (join " " (chunk :: chunks))))) 0);
    [reflexivity|].
  now rewrite slice_from_neg_zero.
Qed.

(** With a positive overlap width and a stable round trip the
    carried text has at most that many tokens. *)
Lemma get_overlap_text_positive_width chunk chunks :
  (1 <= chunk_overlap self)%Z ->
  (forall tokens, encode (decode tokens) = tokens) ->
  (_count_tokens encode (_get_overlap_text encode decode self (chunk :: chunks))
   <= chunk_overlap self)%Z.
Proof.
  intros Hw Hrt. unfold _get_overlap_text, _count_tokens.
  destruct (Z.leb_spec (Z.of_nat (length (encode (join " " (chunk :: chunks)))))
                       (chunk_overlap self)); [assumption|].
  rewrite Hrt, slice_from_last; lia.
Qed.

(** Two paragraphs that fit one by one but not together: the second
    chunk is the first paragraph, carried over whole, and the second. *)
Lemma paragraph_after_overlap p1 p2 page_number :
  let n1 := _count_tokens encode p1 in
  let n2 := _count_tokens encode p2 in
  (n1 <= chunk_size self)%Z ->
  (n2 <= chunk_size self)%Z ->
  (chunk_size self < n1 + n2)%Z ->
  (n1 <= chunk_overlap self)%Z ->
  nonempty p1 = true ->
  _create_chunks_from_paragraphs encode decode self [p1; p2] page_number ""
  = [p1; p1 ++ " " ++ p2].
Proof.
  intros n1 n2 H1 H2 H12 Ho Hne.
  unfold _create_chunks_from_paragraphs, header_tokens_of, header_context_of.
  cbn [nonempty fold_left]. unfold paragraph_step at 2. cbn [current_tokens current_chunk chunks].
  fold n1. rewrite Z.sub_0_r.
  destruct (Z.ltb_spec (chunk_size self) n1); [lia|].
  destruct (Z.ltb_spec (chunk_size self) (0 + n1)); [lia|].
  unfold paragraph_step. cbn [current_tokens current_chunk chunks app].
  fold n2. rewrite Z.sub_0_r.
  destruct (Z.ltb_spec (chunk_size self) n2); [lia|].
  destruct (Z.ltb_spec (chunk_size self) (0 + n1 + n2)); [|lia].
  unfold finish, restart_with, _get_overlap_text.
  cbn [current_chunk chunks join String.concat chunk_text_of].
  fold (_count_tokens encode p1). fold n1.
  destruct (Z.leb_spec n1 (chunk_overlap self)); [|lia].
  rewrite Hne. reflexivity.
Qed.
End TokenizerFacts.

(** Claim C1, for [chunk_size = 4], [chunk_overlap = 3] and one page
    of two paragraphs of three tokens each. After the first paragraph
    is flushed, the buffer restarts with the overlap text, here the
    whole first paragraph, and the second paragraph: the second chunk
    has 6 tokens, more than [chunk_size], and is no oversized sentence
    of the page. *)
Theorem chunk_documents_exceeds_chunk_size :
  (1 <= chunk_size small_chunker)%Z
  /\ (0 <= chunk_overlap small_chunker < chunk_size small_chunker)%Z
  /\ chunk_documents word_encode word_decode small_chunker [two_paragraph_page]
     = [ {| chunk_id := 1; text := "one two three"; page_number := 1;
            section_header := ""; token_count := 3; char_count := 13 |};
         {| chunk_id := 2; text := "one two three four five six"; page_number := 1;
            section_header := ""; token_count := 6; char_count := 27 |} ]
  /\ is_oversized_sentence_chunk word_encode small_chunker two_paragraph_page
       "one two three four five six" = false
  /\ ~ chunks_within_size word_encode word_decode small_chunker [two_paragraph_page].
Proof.
  split; [cbn; lia|]. split; [cbn; lia|].
  assert (E : chunk_documents word_encode word_decode small_chunker [two_paragraph_page]
     = [ {| chunk_id := 1; text := "one two three"; page_number := 1;
            section_header := ""; token_count := 3; char_count := 13 |};
         {| chunk_id := 2; text := "one two three four five six"; page_number := 1;
            section_header := ""; token_count := 6; char_count := 27 |} ])
    by (vm_compute; reflexivity).
  assert (F : is_oversized_sentence_chunk word_encode small_chunker two_paragraph_page
       "one two three four five six" = false) by (vm_compute; reflexivity).
  split; [exact E|]. split; [exact F|].
  intros Hclaim.
  destruct (Hclaim {| chunk_id := 2; text := "one two three four five six";
                      page_number := 1; section_header := "";
                      token_count := 6; char_count := 27 |}) as [Hle|(p & Hp & Ho)].
  - rewrite E. apply list_elem_of_In. right. now left.
  - cbn in Hle. lia.
  - apply list_elem_of_In in Hp. destruct Hp as [<-|[]].
    cbn [text] in Ho. rewrite F in Ho. discriminate.
Qed.

(** Claim C6, for [chunk_overlap = 0] and the flushed buffer
    [["one two", "three"]]: the slice [tokens[-0:]] is the whole token
    list, so the overlap text is the whole joined buffer, three tokens
    against an overlap width of zero. *)
Theorem get_overlap_text_zero_overlap :
  (0 <= chunk_overlap no_overlap_chunker < chunk_size no_overlap_chunker)%Z
  /\ _get_overlap_text word_encode word_decode no_overlap_chunker ["one two"; "three"]
     = "one two three"
  /\ _count_tokens word_encode
       (_get_overlap_text word_encode word_decode no_overlap_chunker ["one two"; "three"])
     = 3%Z
  /\ ~ (_count_tokens word_encode
          (_get_overlap_text word_encode word_decode no_overlap_chunker ["one two"; "three"])
        <= chunk_overlap no_overlap_chunker)%Z.
Proof.
  split; [cbn; lia|]. split; [reflexivity|]. split; [reflexivity|].
  vm_compute. intros H. apply H. reflexivity.
Qed.

End ChunkerFacts.

(** * Text primitives and splitting *)
Section StringFacts.
Import PyStr.

Lemma append_assoc' (a b c : string) : (a ++ b) ++ c = a ++ (b ++ c).
Proof. induction a as [|x a IH]; cbn; [reflexivity | now rewrite IH]. Qed.

Lemma prefix_iff a s :
  String.prefix a s = true <-> exists post, s = a ++ post.
Proof.
  revert s. induction a as [|x a IH]; intros s.
  - split; [eauto | intros _; now destruct s].
  - destruct s as [|y s]; cbn.
    + split; [discriminate | intros (post & H); discriminate].
    + destruct (Ascii.ascii_dec x y) as [->|Hne].
      * rewrite IH. split; intros (post & H); exists post; congruence.
      * split; [discriminate | intros (post & H); congruence].
Qed.

Lemma contains_iff sub s :
  contains sub s = true <-> exists pre post, s = pre ++ sub ++ post.
Proof.
  induction s as [|c s IH]; cbn [contains].
  - rewrite orb_false_r, prefix_iff. split.
    + intros (post & H). exists "", post. exact H.
    + intros (pre & post & H). destruct pre; cbn in H; [eauto | discriminate].
  - rewrite orb_true_iff, prefix_iff, IH. split.
    + intros [(post & H)|(pre & post & H)].
      * exists "", post. exact H.
      * exists (String c pre), post. cbn. now rewrite H.
    + intros (pre & post & H). destruct pre as [|d pre]; cbn in H.
      * left. eauto.
      * right. injection H as _ H. eauto.
Qed.

Lemma contains_refl s : contains s s = true.
Proof. apply contains_iff. exists "", "". cbn. now rewrite append_empty_r. Qed.

Lemma contains_trans a b c :
  contains a b = true -> contains b c = true -> contains a c = true.
Proof.
  rewrite !contains_iff. intros (p1 & q1 & ->) (p2 & q2 & ->).
  exists (p2 ++ p1), (q1 ++ q2). now rewrite !append_assoc'.
Qed.

Lemma contains_append_l sub a b :
  contains sub b = true -> contains sub (a ++ b) = true.
Proof.
  rewrite !contains_iff. intros (p & q & ->). exists (a ++ p), q.
  now rewrite !append_assoc'.
Qed.

Lemma contains_append_r sub a b :
  contains sub a = true -> contains sub (a ++ b) = true.
Proof.
  rewrite !contains_iff. intros (p & q & ->). exists p, (q ++ b).
  now rewrite !append_assoc'.
Qed.

Lemma contains_join sep part parts :
  In part parts -> contains part (join sep parts) = true.
Proof.
  unfold join. induction parts as [|x l IH]; [intros []|].
  intros [->|Hin].
  - destruct l; cbn [String.concat]; [apply contains_refl|].
    apply contains_append_r, contains_refl.
  - destruct l as [|y l]; [destruct Hin|]. cbn [String.concat].
    apply contains_append_l, contains_append_l. now apply IH.
Qed.

Lemma lower_append a b : lower (a ++ b) = lower a ++ lower b.
Proof. unfold lower. induction a as [|c a IH]; cbn; [reflexivity | now rewrite IH]. Qed.

(** *** [strip] *)
Lemma lstrip_fixed c s : isspace c = false -> lstrip (String c s) = String c s.
Proof. intros H. cbn. now rewrite H. Qed.

Lemma lstrip_suffix s : exists pre, s = pre ++ lstrip s.
Proof.
  induction s as [|c s (pre & IH)]; [now exists ""|]. cbn.
  destruct (isspace c).
  - exists (String c pre). cbn. now rewrite <- IH.
  - now exists "".
Qed.

Lemma rstrip_prefix s : exists post, s = rstrip s ++ post.
Proof.
  induction s as [|c s (post & IH)]; [now exists ""|]. cbn.
  destruct (rstrip s) as [|d r] eqn:E.
  - destruct (isspace c).
    + exists (String c s). reflexivity.
    + exists post. cbn. now rewrite IH at 1.
  - exists post. cbn. now rewrite IH at 1.
Qed.

Lemma rstrip_idem s : rstrip (rstrip s) = rstrip s.
Proof.
  induction s as [|c s IH]; [reflexivity|]. cbn.
  destruct (rstrip s) as [|d r] eqn:E.
  - destruct (isspace c) eqn:Ec; [reflexivity|]. cbn. now rewrite Ec.
  - cbn [rstrip] in *. rewrite IH. reflexivity.
Qed.

Lemma rstrip_head c s :
  isspace c = false -> exists r, rstrip (String c s) = String c r.
Proof.
  intros H. cbn. destruct (rstrip s); [rewrite H|]; eauto.
Qed.

Lemma lstrip_shape s :
  lstrip s = "" \/ exists c r, lstrip s = String c r /\ isspace c = false.
Proof.
  induction s as [|c s IH]; [now left|]. cbn.
  destruct (isspace c) eqn:E; [exact IH | right; eauto].
Qed.

Lemma strip_idem s : strip (strip s) = strip s.
Proof.
  unfold strip. destruct (lstrip_shape s) as [->|(c & r & -> & Hc)]; [reflexivity|].
  destruct (rstrip_head c r Hc) as (r' & E). rewrite E.
  rewrite lstrip_fixed by assumption. rewrite <- E. apply rstrip_idem.
Qed.

Lemma strip_contained s : contains (strip s) s = true.
Proof.
  unfold strip. apply contains_iff.
  destruct (lstrip_suffix s) as (pre & Hs).
  destruct (rstrip_prefix (lstrip s)) as (post & Hr).
  exists pre, post. now rewrite <- Hr.
Qed.

Lemma lstrip_all_blank s : all_blank s = true -> lstrip s = "".
Proof.
  unfold all_blank. induction s as [|c s IH]; [reflexivity|]. cbn.
  intros H. apply andb_true_iff in H as [-> H]. now apply IH.
Qed.

Lemma strip_all_blank s : all_blank s = true -> strip s = "".
Proof. intros H. unfold strip. now rewrite lstrip_all_blank. Qed.

(** *** Pieces of a split *)
Lemma re_split_from_contained m s : forall prev skip piece,
  In piece (re_split_from m prev skip s) -> contains piece s = true.
Proof.
  enough (G : forall prev skip,
    (forall piece, In piece (re_split_from m prev skip s) -> contains piece s = true)
    /\ (skip = 0 -> exists first rest,
          re_split_from m prev skip s = first :: rest
          /\ String.prefix first s = true)).
  { intros prev skip. apply G. }
  induction s as [|c s IH]; intros prev skip.
  - cbn. split.
    + intros piece [<-|[]]. reflexivity.
    + intros _. exists "", []. split; reflexivity.
  - cbn [re_split_from]. destruct skip as [|k].
    + destruct (m prev (String c s)) as [|k] eqn:Em.
      * destruct (IH (Some c) 0) as (Hin & Hfirst).
        destruct (Hfirst eq_refl) as (first & rest & E & Hp). rewrite E in *.
        split.
        -- intros piece [<-|Hp']. 
           ++ cbn [contains String.prefix]. 
              destruct (Ascii.ascii_dec c c); [|congruence]. now rewrite Hp.
           ++ cbn [contains]. rewrite (Hin piece) by now right.
              apply orb_true_r.
        -- intros _. exists (String c first), rest. split; [reflexivity|].
           cbn. destruct (Ascii.ascii_dec c c); [assumption|congruence].
      * destruct (IH (Some c) k) as (Hin & _). split.
        -- intros piece [<-|Hp']; [reflexivity|].
           cbn [contains]. rewrite (Hin piece) by assumption. apply orb_true_r.
        -- intros _. exists "", (re_split_from m (Some c) k s). split; reflexivity.
    + destruct (IH (Some c) k) as (Hin & _). split; [|discriminate].
      intros piece Hp'. cbn [contains]. rewrite (Hin piece) by assumption.
      apply orb_true_r.
Qed.

Lemma all_blank_cons c s : all_blank (String c s) = isspace c && all_blank s.
Proof. reflexivity. Qed.

Lemma re_split_from_all_blank m s : forall prev skip piece,
  all_blank s = true ->
  In piece (re_split_from m prev skip s) -> all_blank piece = true.
Proof.
  induction s as [|c s IH]; intros prev skip piece Hb.
  - cbn. intros [<-|[]]. reflexivity.
  - rewrite all_blank_cons in Hb. apply andb_true_iff in Hb as [Hc Hb].
    cbn [re_split_from]. destruct skip as [|k]; [|now apply IH].
    destruct (m prev (String c s)) as [|k].
    + destruct (re_split_from m (Some c) 0 s) as [|first rest] eqn:E.
      * intros [<-|[]]. rewrite all_blank_cons, Hc. reflexivity.
      * intros [<-|Hin].
        -- rewrite all_blank_cons, Hc. cbn. apply (IH (Some c) 0); [assumption|].
           rewrite E. now left.
        -- apply (IH (Some c) 0); [assumption|]. rewrite E. now right.
    + intros [<-|Hin]; [reflexivity|]. now apply (IH (Some c) k).
Qed.

End StringFacts.

Section SplitterFacts.
Import PyStr PyList Chunker.

Lemma strip_nonempty_spec parts p :
  In p (strip_nonempty parts) ->
  p <> "" /\ strip p = p /\ exists piece, In piece parts /\ contains p piece = true.
Proof.
  unfold strip_nonempty. rewrite in_map_iff. intros (piece & <- & Hin).
  apply filter_In in Hin as (Hin & Hne). split; [|split].
  - intros E. rewrite E in Hne. discriminate.
  - apply strip_idem.
  - exists piece. split; [assumption | apply strip_contained].
Qed.

(** X3. Paragraphs and sentences are non-empty, trimmed, and substrings
    of the text they were split from. *)
Theorem split_parts_trimmed text part :
  In part (_split_into_paragraphs text) \/ In part (_split_into_sentences text) ->
  part <> "" /\ strip part = part /\ contains part text = true.
Proof.
  intros [H|H]; apply strip_nonempty_spec in H as (Hne & Hs & piece & Hin & Hc);
    (split; [assumption|]; split; [assumption|]);
    apply (contains_trans _ piece); try assumption;
    eapply re_split_from_contained; exact Hin.
Qed.

Lemma strip_nonempty_all_blank parts :
  (forall piece, In piece parts -> all_blank piece = true) ->
  strip_nonempty parts = [].
Proof.
  unfold strip_nonempty. induction parts as [|p l IH]; intros H; [reflexivity|].
  cbn [List.filter]. rewrite (strip_all_blank p) by (apply H; now left).
  cbn [nonempty]. apply IH. intros piece Hin. apply H. now right.
Qed.

End SplitterFacts.

(** * The chunker: numbering, headers and content *)
Section ChunkerMore.
Import PyStr PyList Chunker.

Section Numbering.
Context {token : Type}.
Variable encode : string -> list token.
Variable decode : list token -> string.
Variable self : TextChunker.

Lemma numbered_from_app chunk_id l1 l2 :
  numbered_from encode chunk_id (l1 ++ l2)
  = (numbered_from encode chunk_id l1
     ++ numbered_from encode (chunk_id + Z.of_nat (length l1)) l2)%list.
Proof.
  revert chunk_id. induction l1 as [|[[t pn] sh] l1 IH]; intros chunk_id.
  - cbn. now rewrite Z.add_0_r.
  - cbn [app numbered_from length]. rewrite IH. do 3 f_equal. lia.
Qed.

Lemma chunk_page_numbered all_chunks chunk_id page_data :
  chunk_page encode decode self all_chunks chunk_id page_data
  = ((all_chunks
      ++ numbered_from encode chunk_id (page_chunk_texts encode decode self page_data))%list,
     (chunk_id + Z.of_nat (length (page_chunk_texts encode decode self page_data)))%Z).
Proof.
  unfold chunk_page, page_chunk_texts.
  generalize (_create_chunks_from_paragraphs encode decode self
                (_split_into_paragraphs (page_text page_data))
                (page_page_number page_data)
                (default "" (page_section_header page_data))).
  intros texts. revert all_chunks chunk_id.
  induction texts as [|t texts IH]; intros all_chunks chunk_id.
  - cbn. now rewrite app_nil_r, Z.add_0_r.
  - cbn [fold_left map numbered_from length]. rewrite IH.
    rewrite <- app_assoc. cbn [app]. f_equal. lia.
Qed.

Lemma chunk_documents_numbered pages_data :
  chunk_documents encode decode self pages_data
  = numbered_from encode 0
      (flat_map (page_chunk_texts encode decode self) pages_data).
Proof.
  unfold chunk_documents.
  enough (G : forall all_chunks chunk_id,
    fold_left (fun '(all_chunks, chunk_id) page_data =>
                 chunk_page encode decode self all_chunks chunk_id page_data)
              pages_data (all_chunks, chunk_id)
    = ((all_chunks ++ numbered_from encode chunk_id
          (flat_map (page_chunk_texts encode decode self) pages_data))%list,
       (chunk_id + Z.of_nat (length
          (flat_map (page_chunk_texts encode decode self) pages_data)))%Z)).
  { now rewrite G. }
  induction pages_data as [|p ps IH]; intros all_chunks chunk_id.
  - cbn. now rewrite app_nil_r, Z.add_0_r.
  - cbn [fold_left flat_map]. rewrite chunk_page_numbered, IH.
    rewrite numbered_from_app, length_app, <- app_assoc. f_equal. lia.
Qed.

Lemma numbered_from_ids chunk_id tagged :
  map Chunker.chunk_id (numbered_from encode chunk_id tagged)
  = map (fun k => (chunk_id + 1 + Z.of_nat k)%Z) (seq 0 (length tagged)).
Proof.
  revert chunk_id. induction tagged as [|[[t pn] sh] l IH]; intros chunk_id; [reflexivity|].
  cbn [numbered_from map length seq Chunker.chunk_id]. f_equal; [lia|].
  rewrite IH, <- seq_shift, map_map. apply map_ext. intros k. lia.
Qed.

Lemma numbered_from_tags chunk_id tagged :
  map (fun c => (text c, page_number c, section_header c))
      (numbered_from encode chunk_id tagged) = tagged.
Proof.
  revert chunk_id. induction tagged as [|[[t pn] sh] l IH]; intros chunk_id; [reflexivity|].
  cbn [numbered_from map text page_number section_header]. now rewrite IH.
Qed.

Lemma numbered_from_counts chunk_id tagged c :
  In c (numbered_from encode chunk_id tagged) ->
  token_count c = _count_tokens encode (text c) /\ char_count c = len (text c).
Proof.
  revert chunk_id. induction tagged as [|[[t pn] sh] l IH]; intros chunk_id; [intros []|].
  intros [<-|Hin]; [split; reflexivity | eauto].
Qed.

(** X1. The chunks come out numbered 1, 2, ... in order, and the two
    counts of a chunk are those of its text. *)
Theorem chunk_documents_ids_consecutive pages_data :
  let found := chunk_documents encode decode self pages_data in
  map Chunker.chunk_id found
  = map (fun k => (1 + Z.of_nat k)%Z) (seq 0 (length found))
  /\ forall c, c ∈ found ->
       token_count c = _count_tokens encode (text c)
       /\ char_count c = len (text c).
Proof.
  cbv zeta. rewrite chunk_documents_numbered. split.
  - rewrite numbered_from_ids. 
    assert (L : length (numbered_from encode 0
                 (flat_map (page_chunk_texts encode decode self) pages_data))
                = length (flat_map (page_chunk_texts encode decode self) pages_data)).
    { rewrite <- (length_map (fun c => (text c, page_number c, section_header c))).
      now rewrite numbered_from_tags. }
    now rewrite L.
  - intros c Hc. apply list_elem_of_In in Hc. eapply numbered_from_counts; eauto.
Qed.

(** X2. [chunk_documents] works page by page: its chunks are, in order,
    the chunk texts of each page with the number and the header of
    that page. *)
Theorem chunk_documents_page_by_page pages_data :
  map (fun c => (text c, page_number c, section_header c))
      (chunk_documents encode decode self pages_data)
  = flat_map
      (fun page_data =>
         map (fun chunk_text =>
                (chunk_text, page_page_number page_data,
                 default "" (page_section_header page_data)))
             (_create_chunks_from_paragraphs encode decode self
                (_split_into_paragraphs (page_text page_data))
                (page_page_number page_data)
                (default "" (page_section_header page_data))))
      pages_data.
Proof.
  rewrite chunk_documents_numbered, numbered_from_tags. reflexivity.
Qed.

End Numbering.
End ChunkerMore.

Section ChunkLoopFacts.
Import PyStr PyList Chunker.
Context {token : Type}.
Variable encode : string -> list token.
Variable decode : list token -> string.
Variable self : TextChunker.

Lemma count_nonneg s : (0 <= _count_tokens encode s)%Z.
Proof. unfold _count_tokens. lia. Qed.

Lemma prefix_append a b : String.prefix a (a ++ b) = true.
Proof. apply prefix_iff. eauto. Qed.

Lemma headed_app hc l1 l2 : headed hc l1 -> headed hc l2 -> headed hc (l1 ++ l2).
Proof. intros H1 H2 t Hin. apply in_app_or in Hin as [?|?]; auto. Qed.

Lemma headed_one hc rest : headed hc [hc ++ rest].
Proof. intros t [<-|[]]. apply prefix_append. Qed.

Lemma finish_headed hc st : headed hc (chunks st) -> headed hc (finish hc st).
Proof.
  intros H. unfold finish. destruct (current_chunk st); [assumption|].
  apply headed_app; [assumption | apply headed_one].
Qed.

Lemma sentence_step_headed hc ht st sentence :
  headed hc (chunks st) ->
  headed hc (chunks (sentence_step encode decode self hc ht st sentence)).
Proof.
  intros H. unfold sentence_step.
  destruct (_ <? _)%Z; [|assumption].
  destruct (current_chunk st); cbn [chunks];
    (apply headed_app; [assumption | apply headed_one]).
Qed.

Lemma fold_sentence_headed hc ht sentences : forall st,
  headed hc (chunks st) ->
  headed hc (chunks (fold_left (sentence_step encode decode self hc ht) sentences st)).
Proof.
  induction sentences as [|s l IH]; intros st H; [assumption|].
  cbn [fold_left]. apply IH. now apply sentence_step_headed.
Qed.

Lemma sentences_headed hc ht sentences :
  headed hc (_create_chunks_from_sentences encode decode self sentences hc ht).
Proof.
  unfold _create_chunks_from_sentences. apply finish_headed, fold_sentence_headed.
  intros t [].
Qed.

Lemma paragraph_step_headed hc ht st para :
  headed hc (chunks st) ->
  headed hc (chunks (paragraph_step encode decode self hc ht st para)).
Proof.
  intros H. unfold paragraph_step.
  destruct (_ <? _)%Z.
  - cbn [chunks]. apply headed_app; [|apply sentences_headed].
    destruct (current_chunk st); [assumption|]. cbn [chunks].
    apply headed_app; [assumption | apply headed_one].
  - destruct (_ <? _)%Z; [|assumption].
    destruct (current_chunk st); [assumption|]. cbn [chunks].
    apply headed_app; [assumption | apply headed_one].
Qed.

Lemma fold_paragraph_headed hc ht paragraphs : forall st,
  headed hc (chunks st) ->
  headed hc (chunks (fold_left (paragraph_step encode decode self hc ht) paragraphs st)).
Proof.
  induction paragraphs as [|p l IH]; intros st H; [assumption|].
  cbn [fold_left]. apply IH. now apply paragraph_step_headed.
Qed.

Lemma paragraphs_headed paragraphs page_number section_header :
  headed (header_context_of section_header)
    (_create_chunks_from_paragraphs encode decode self paragraphs page_number
       section_header).
Proof.
  unfold _create_chunks_from_paragraphs. apply finish_headed, fold_paragraph_headed.
  intros t [].
Qed.

Lemma chunk_documents_member pages_data c :
  c ∈ chunk_documents encode decode self pages_data ->
  exists page_data,
    In page_data pages_data
    /\ page_number c = page_page_number page_data
    /\ section_header c = default "" (page_section_header page_data)
    /\ In (text c)
          (_create_chunks_from_paragraphs encode decode self
             (_split_into_paragraphs (page_text page_data))
             (page_page_number page_data)
             (default "" (page_section_header page_data))).
Proof.
  intros Hc. apply list_elem_of_In in Hc.
  apply (in_map (fun c => (text c, page_number c, section_header c))) in Hc.
  rewrite chunk_documents_numbered, numbered_from_tags in Hc.
  apply in_flat_map in Hc as (page_data & Hp & Hc).
  unfold page_chunk_texts in Hc. apply in_map_iff in Hc as (t & E & Ht).
  injection E as E1 E2 E3. exists page_data. subst. auto.
Qed.

(** X4. Every chunk starts with the header context of its page. *)
Theorem chunk_documents_header_prefix pages_data c :
  c ∈ chunk_documents encode decode self pages_data ->
  String.prefix (header_context_of (section_header c)) (text c) = true.
Proof.
  intros Hc. apply chunk_documents_member in Hc as (p & _ & _ & -> & Hin).
  eapply paragraphs_headed. exact Hin.
Qed.

End ChunkLoopFacts.

Section ChunkLoopFacts2.
Import PyStr PyList Chunker.
Context {token : Type}.
Variable encode : string -> list token.
Variable decode : list token -> string.
Variable self : TextChunker.

Lemma total_tokens_nonneg texts : (0 <= total_tokens encode texts)%Z.
Proof.
  induction texts as [|t l IH]; cbn [total_tokens]; [lia|].
  pose proof (count_nonneg encode t). lia.
Qed.

(** X5. Pages of blanks give no chunk. *)
Theorem blank_pages_give_no_chunk pages_data :
  (forall page_data, In page_data pages_data -> all_blank (page_text page_data) = true) ->
  chunk_documents encode decode self pages_data = [].
Proof.
  intros H. rewrite chunk_documents_numbered.
  replace (flat_map (page_chunk_texts encode decode self) pages_data)
    with (@nil (string * Z * string)); [reflexivity|].
  symmetry. induction pages_data as [|p l IH]; [reflexivity|].
  cbn [flat_map]. rewrite IH by (intros q Hq; apply H; now right).
  rewrite app_nil_r. unfold page_chunk_texts, _split_into_paragraphs.
  rewrite strip_nonempty_all_blank; [reflexivity|].
  intros piece Hin. eapply re_split_from_all_blank; [|exact Hin].
  apply H. now left.
Qed.

(** *** Everything fits *)
Lemma fold_paragraph_fits hc ht rest : forall done,
  (total_tokens encode done + total_tokens encode rest <= chunk_size self - ht)%Z ->
  fold_left (paragraph_step encode decode self hc ht) rest
    {| chunks := []; current_chunk := done; current_tokens := total_tokens encode done |}
  = {| chunks := []; current_chunk := (done ++ rest)%list;
       current_tokens := total_tokens encode (done ++ rest) |}.
Proof.
  induction rest as [|p l IH]; intros done H.
  - cbn. now rewrite app_nil_r.
  - cbn [fold_left]. cbn [total_tokens] in H.
    pose proof (total_tokens_nonneg done). pose proof (total_tokens_nonneg l).
    pose proof (count_nonneg encode p).
    unfold paragraph_step at 2. cbn [current_tokens current_chunk chunks].
    destruct (Z.ltb_spec (chunk_size self - ht) (_count_tokens encode p)); [lia|].
    destruct (Z.ltb_spec (chunk_size self - ht)
                (total_tokens encode done + _count_tokens encode p)); [lia|].
    assert (E : (total_tokens encode done + _count_tokens encode p)%Z
                = total_tokens encode (done ++ [p])).
    { clear. induction done as [|d l IH]; cbn [total_tokens app]; lia. }
    rewrite E, IH.
    + now rewrite <- app_assoc.
    + rewrite <- E. lia.
Qed.

(** X6. Paragraphs that fit the budget together come out as one chunk,
    joined by single spaces behind the header context. *)
Theorem paragraphs_fitting_give_one_chunk para paragraphs page_number section_header :
  (total_tokens encode (para :: paragraphs)
   <= chunk_size self - header_tokens_of encode section_header)%Z ->
  _create_chunks_from_paragraphs encode decode self (para :: paragraphs)
    page_number section_header
  = [header_context_of section_header ++ join " " (para :: paragraphs)].
Proof.
  intros H. unfold _create_chunks_from_paragraphs.
  rewrite (fold_paragraph_fits _ _ (para :: paragraphs) [])
    by (cbn [total_tokens] in *; lia).
  reflexivity.
Qed.

(** X7. A paragraph over the budget that has a single sentence is
    returned whole. *)
Theorem unsplittable_paragraph_emitted_whole para page_number section_header :
  (chunk_size self - header_tokens_of encode section_header
   < _count_tokens encode para)%Z ->
  _split_into_sentences para = [para] ->
  _create_chunks_from_paragraphs encode decode self [para] page_number section_header
  = [header_context_of section_header ++ para].
Proof.
  intros Hbig H. unfold _create_chunks_from_paragraphs. cbn [fold_left].
  unfold paragraph_step. cbn [current_chunk current_tokens chunks].
  destruct (Z.ltb_spec (chunk_size self - header_tokens_of encode section_header)
                       (_count_tokens encode para)); [|lia].
  rewrite H.
  unfold _create_chunks_from_sentences. cbn [fold_left].
  unfold sentence_step. cbn [current_chunk current_tokens chunks].
  rewrite Z.add_0_l.
  destruct (Z.ltb_spec (chunk_size self - header_tokens_of encode section_header)
                       (_count_tokens encode para)); [|lia].
  reflexivity.
Qed.

(** X8. For a positive width the overlap text is the joined buffer when
    it is short enough, and otherwise the decoding of its last
    [chunk_overlap] tokens. *)
Theorem get_overlap_text_last_tokens chunk chunks :
  (1 <= chunk_overlap self)%Z ->
  let combined := join " " (chunk :: chunks) in
  let tokens := encode combined in
  ((Z.of_nat (length tokens) <= chunk_overlap self)%Z ->
   _get_overlap_text encode decode self (chunk :: chunks) = combined)
  /\ ((chunk_overlap self < Z.of_nat (length tokens))%Z ->
      exists dropped kept,
        tokens = (dropped ++ kept)%list
        /\ Z.of_nat (length kept) = chunk_overlap self
        /\ _get_overlap_text encode decode self (chunk :: chunks) = decode kept).
Proof.
  intros Hw combined tokens. unfold _get_overlap_text. fold combined. fold tokens.
  split; intros H.
  - destruct (Z.leb_spec (Z.of_nat (length tokens)) (chunk_overlap self)); [reflexivity|lia].
  - destruct (Z.leb_spec (Z.of_nat (length tokens)) (chunk_overlap self)); [lia|].
    unfold slice_from. destruct (Z.ltb_spec (- chunk_overlap self) 0); [|lia].
    rewrite Z.max_r by lia.
    exists (firstn (Z.to_nat (- chunk_overlap self + Z.of_nat (length tokens))) tokens),
           (skipn (Z.to_nat (- chunk_overlap self + Z.of_nat (length tokens))) tokens).
    split; [now rewrite firstn_skipn|]. split; [|reflexivity].
    rewrite length_skipn. lia.
Qed.

End ChunkLoopFacts2.

Section ContentKept.
Import PyStr PyList Chunker.
Context {token : Type}.
Variable encode : string -> list token.
Variable decode : list token -> string.
Variable self : TextChunker.

Lemma occurs_in_app_l l1 l2 s : occurs_in l1 s -> occurs_in (l1 ++ l2) s.
Proof. intros (c & Hc & H). exists c. split; [apply in_or_app; now left | assumption]. Qed.

Lemma occurs_in_app_r l1 l2 s : occurs_in l2 s -> occurs_in (l1 ++ l2) s.
Proof. intros (c & Hc & H). exists c. split; [apply in_or_app; now right | assumption]. Qed.

Lemma occurs_in_chunk_text hc cur s :
  In s cur -> occurs_in [chunk_text_of hc cur] s.
Proof.
  intros H. exists (chunk_text_of hc cur). split; [now left|].
  unfold chunk_text_of. apply contains_append_l. now apply contains_join.
Qed.

Lemma occurs_in_forced hc s : occurs_in [hc ++ s] s.
Proof.
  exists (hc ++ s). split; [now left|]. apply contains_append_l, contains_refl.
Qed.

Lemma restart_with_has flushed element :
  In element (restart_with encode decode self flushed element).
Proof.
  unfold restart_with. destruct (nonempty _); cbn; auto.
Qed.

Lemma flush_kept hc st s :
  kept st s ->
  occurs_in (chunks st ++ [chunk_text_of hc (current_chunk st)]) s.
Proof.
  intros [H|H]; [now apply occurs_in_app_l|].
  apply occurs_in_app_r. now apply occurs_in_chunk_text.
Qed.

Lemma sentence_step_kept hc ht st x s :
  kept st s \/ s = x -> kept (sentence_step encode decode self hc ht st x) s.
Proof.
  unfold sentence_step. intros H.
  destruct (_ <? _)%Z.
  - destruct (current_chunk st) as [|y cur] eqn:E.
    + left. cbn [chunks]. destruct H as [[H|H]| ->].
      * now apply occurs_in_app_l.
      * rewrite E in H. destruct H.
      * apply occurs_in_app_r, occurs_in_forced.
    + destruct H as [H| ->].
      * left. cbn [chunks]. rewrite <- E. now apply flush_kept.
      * right. cbn [current_chunk]. apply restart_with_has.
  - destruct H as [[H|H]| ->].
    + now left.
    + right. cbn [current_chunk]. apply in_or_app. now left.
    + right. cbn [current_chunk]. apply in_or_app. right. now left.
Qed.

Lemma fold_sentence_kept hc ht sentences : forall st s,
  kept st s \/ In s sentences ->
  kept (fold_left (sentence_step encode decode self hc ht) sentences st) s.
Proof.
  induction sentences as [|x l IH]; intros st s H.
  - destruct H as [H|[]]. assumption.
  - cbn [fold_left]. apply IH. destruct H as [H|[<-|H]].
    + left. apply sentence_step_kept. now left.
    + left. apply sentence_step_kept. now right.
    + now right.
Qed.

Lemma finish_kept hc st s : kept st s -> occurs_in (finish hc st) s.
Proof.
  intros H. unfold finish. destruct (current_chunk st) as [|y cur] eqn:E.
  - destruct H as [H|H]; [assumption|]. rewrite E in H. destruct H.
  - rewrite <- E. now apply flush_kept.
Qed.

Lemma sentences_kept hc ht sentences s :
  In s sentences ->
  occurs_in (_create_chunks_from_sentences encode decode self sentences hc ht) s.
Proof.
  intros H. unfold _create_chunks_from_sentences.
  apply finish_kept, fold_sentence_kept. now right.
Qed.

Lemma paragraph_step_kept hc ht st para s :
  kept st s -> kept (paragraph_step encode decode self hc ht st para) s.
Proof.
  unfold paragraph_step. intros H.
  destruct (_ <? _)%Z.
  - left. cbn [chunks]. apply occurs_in_app_l.
    destruct (current_chunk st) as [|y cur] eqn:E.
    + destruct H as [H|H]; [assumption|]. rewrite E in H. destruct H.
    + cbn [chunks]. rewrite <- E. now apply flush_kept.
  - destruct (_ <? _)%Z.
    + destruct (current_chunk st) as [|y cur] eqn:E.
      * left. cbn [chunks]. destruct H as [H|H]; [assumption|].
        rewrite E in H. destruct H.
      * left. cbn [chunks]. rewrite <- E. now apply flush_kept.
    + destruct H as [H|H]; [now left|].
      right. cbn [current_chunk]. apply in_or_app. now left.
Qed.

Lemma paragraph_step_owed hc ht st para :
  owed encode self ht para (kept (paragraph_step encode decode self hc ht st para)).
Proof.
  unfold owed, paragraph_step. split.
  - intros Hfit.
    destruct (Z.ltb_spec (chunk_size self - ht) (_count_tokens encode para)); [lia|].
    destruct (_ <? _)%Z.
    + right. destruct (current_chunk st); cbn [current_chunk];
        [now left | apply restart_with_has].
    + right. cbn [current_chunk]. apply in_or_app. right. now left.
  - intros Hbig sentence Hin.
    destruct (Z.ltb_spec (chunk_size self - ht) (_count_tokens encode para)); [|lia].
    left. cbn [chunks]. apply occurs_in_app_r. now apply sentences_kept.
Qed.

Lemma fold_paragraph_kept hc ht paragraphs : forall st s,
  kept st s ->
  kept (fold_left (paragraph_step encode decode self hc ht) paragraphs st) s.
Proof.
  induction paragraphs as [|p l IH]; intros st s H; [assumption|].
  cbn [fold_left]. apply IH. now apply paragraph_step_kept.
Qed.

Lemma fold_paragraph_owed hc ht paragraphs : forall st para,
  In para paragraphs ->
  owed encode self ht para
    (kept (fold_left (paragraph_step encode decode self hc ht) paragraphs st)).
Proof.
  induction paragraphs as [|p l IH]; intros st para Hin; [destruct Hin|].
  cbn [fold_left]. destruct Hin as [-> |Hin]; [|now apply IH].
  destruct (paragraph_step_owed hc ht st para) as [H1 H2]. split.
  - intros Hfit. apply fold_paragraph_kept. auto.
  - intros Hbig sentence Hs. apply fold_paragraph_kept. auto.
Qed.

(** X9. No text is lost: a paragraph within the budget occurs in some
    chunk, and so does every sentence of a paragraph over the budget. *)
Theorem paragraphs_never_dropped paragraphs page_number section_header para :
  In para paragraphs ->
  let found := _create_chunks_from_paragraphs encode decode self paragraphs
                 page_number section_header in
  let budget := (chunk_size self - header_tokens_of encode section_header)%Z in
  ((_count_tokens encode para <= budget)%Z ->
   exists chunk_text, In chunk_text found /\ contains para chunk_text = true)
  /\ ((budget < _count_tokens encode para)%Z ->
      forall sentence, In sentence (_split_into_sentences para) ->
        exists chunk_text, In chunk_text found /\ contains sentence chunk_text = true).
Proof.
  intros Hin found budget. subst found budget.
  unfold _create_chunks_from_paragraphs.
  destruct (fold_paragraph_owed (header_context_of section_header)
              (header_tokens_of encode section_header) paragraphs
              {| chunks := []; current_chunk := []; current_tokens := 0 |}
              para Hin) as [H1 H2].
  split.
  - intros Hfit. apply finish_kept. auto.
  - intros Hbig sentence Hs. apply finish_kept. auto.
Qed.

End ContentKept.

(** * PDF extraction *)
Section PdfFacts.
Import PyStr PDFProcessor.

Lemma all_chars_append P a b :
  all_chars P (a ++ b) = all_chars P a && all_chars P b.
Proof. induction a as [|c a IH]; cbn; [reflexivity | now rewrite IH, andb_assoc]. Qed.

Lemma all_chars_weaken (P Q : ascii -> bool) s :
  (forall c, P c = true -> Q c = true) -> all_chars P s = true -> all_chars Q s = true.
Proof.
  intros H. induction s as [|c s IH]; cbn; [reflexivity|].
  rewrite !andb_true_iff. intros [Hc Hs]. auto.
Qed.

Lemma all_chars_lstrip P s : all_chars P s = true -> all_chars P (lstrip s) = true.
Proof.
  destruct (lstrip_suffix s) as (pre & E). intros H. rewrite E, all_chars_append in H.
  now apply andb_true_iff in H as [_ H].
Qed.

Lemma all_chars_rstrip P s : all_chars P s = true -> all_chars P (rstrip s) = true.
Proof.
  destruct (rstrip_prefix s) as (post & E). intros H. rewrite E, all_chars_append in H.
  now apply andb_true_iff in H as [H _].
Qed.

Lemma all_chars_strip P s : all_chars P s = true -> all_chars P (strip s) = true.
Proof. intros H. unfold strip. now apply all_chars_rstrip, all_chars_lstrip. Qed.

Lemma ws_prefix_len_zero c s : ws_prefix_len (String c s) = 0 -> isspace c = false.
Proof. cbn. now destruct (isspace c). Qed.

Lemma blank_run_plain s : forall prev skip,
  all_chars plain_blank (re_sub_from blank_run " " prev skip s) = true.
Proof.
  induction s as [|c s IH]; intros prev skip; [reflexivity|].
  cbn [re_sub_from]. destruct skip as [|k]; [|apply IH].
  unfold blank_run at 1. destruct (ws_prefix_len (String c s)) as [|k] eqn:E.
  - apply ws_prefix_len_zero in E. cbn [all_chars]. rewrite IH.
    unfold plain_blank. now rewrite E.
  - cbn [append all_chars]. now rewrite IH.
Qed.

Lemma plain_blank_not_newline c : plain_blank c = true -> not_newline c = true.
Proof.
  unfold plain_blank, not_newline, is_newline.
  destruct (Ascii.eqb_spec c newline) as [->|]; [intros H; discriminate H | reflexivity].
Qed.

Lemma re_sub_no_match m repl s : forall prev,
  (forall prev' c r, not_newline c = true -> m prev' (String c r) = 0) ->
  all_chars not_newline s = true ->
  re_sub_from m repl prev 0 s = s.
Proof.
  induction s as [|c s IH]; intros prev Hm H; [reflexivity|].
  cbn [all_chars] in H. apply andb_true_iff in H as [Hc Hs].
  cbn [re_sub_from]. rewrite Hm by assumption. now rewrite IH.
Qed.

Lemma page_number_line_needs_newline prev c r :
  not_newline c = true -> page_number_line prev (String c r) = 0.
Proof.
  unfold not_newline, page_number_line. now destruct (is_newline c).
Qed.

Lemma remove_nul_chars P s :
  all_chars P s = true -> all_chars P (remove_nul s) = true.
Proof.
  induction s as [|c s IH]; cbn; [reflexivity|].
  rewrite andb_true_iff. intros [Hc Hs].
  destruct (Ascii.eqb c nul); [auto|]. cbn. now rewrite Hc, IH.
Qed.

Lemma remove_nul_clean s : all_chars not_nul (remove_nul s) = true.
Proof.
  induction s as [|c s IH]; cbn; [reflexivity|].
  destruct (Ascii.eqb c nul) eqn:E; [assumption|]. cbn. unfold not_nul at 1.
  now rewrite E, IH.
Qed.

Lemma clean_text_plain raw : all_chars plain_blank (_clean_text raw) = true.
Proof.
  unfold _clean_text, re_sub.
  pose proof (blank_run_plain raw None 0) as Hplain.
  rewrite (re_sub_no_match page_number_line _ (re_sub_from blank_run " " None 0 raw)).
  2: { intros. now apply page_number_line_needs_newline. }
  2: { eapply all_chars_weaken; [apply plain_blank_not_newline | exact Hplain]. }
  now apply all_chars_strip, remove_nul_chars.
Qed.

Lemma clean_text_not_nul raw : all_chars not_nul (_clean_text raw) = true.
Proof. unfold _clean_text. apply all_chars_strip, remove_nul_clean. Qed.

Lemma clean_text_stripped raw : strip (_clean_text raw) = _clean_text raw.
Proof. unfold _clean_text. apply strip_idem. Qed.

Lemma clean_text_no_newline raw : all_chars not_newline (_clean_text raw) = true.
Proof.
  eapply all_chars_weaken; [apply plain_blank_not_newline | apply clean_text_plain].
Qed.

(** X10. Cleaned text has no blank but the space, no NUL, and is trimmed. *)
Theorem clean_text_shape raw :
  all_chars plain_blank (_clean_text raw) = true
  /\ all_chars not_nul (_clean_text raw) = true
  /\ strip (_clean_text raw) = _clean_text raw.
Proof.
  split; [apply clean_text_plain|].
  split; [apply clean_text_not_nul | apply clean_text_stripped].
Qed.

Lemma re_split_no_match m s : forall prev,
  (forall prev' c r, not_newline c = true -> m prev' (String c r) = 0) ->
  all_chars not_newline s = true ->
  re_split_from m prev 0 s = [s].
Proof.
  induction s as [|c s IH]; intros prev Hm H; [reflexivity|].
  cbn [all_chars] in H. apply andb_true_iff in H as [Hc Hs].
  cbn [re_split_from]. rewrite Hm by assumption. now rewrite IH.
Qed.

Lemma paragraph_break_needs_newline prev c r :
  not_newline c = true -> Chunker.paragraph_break prev (String c r) = 0.
Proof.
  unfold not_newline, is_newline, Chunker.paragraph_break, Chunker.is_newline.
  intros H. apply negb_true_iff in H.
  change (Ascii.eqb c Chunker.newline) with (Ascii.eqb c newline). now rewrite H.
Qed.

(** X11. A cleaned page is one paragraph for the chunker. *)
Theorem clean_text_is_one_paragraph raw :
  Chunker._split_into_paragraphs (_clean_text raw)
  = match _clean_text raw with
    | EmptyString => []
    | cleaned => [cleaned]
    end.
Proof.
  unfold Chunker._split_into_paragraphs, re_split.
  rewrite re_split_no_match;
    [| intros; now apply paragraph_break_needs_newline | apply clean_text_no_newline].
  unfold Chunker.strip_nonempty. cbn [List.filter].
  rewrite clean_text_stripped. destruct (_clean_text raw) eqn:E; [reflexivity|].
  cbn [nonempty map]. now rewrite <- E, clean_text_stripped.
Qed.

(** *** The section header *)
Lemma search_line_start_inside p s :
  all_chars not_newline s = true -> search_line_start p false s = None.
Proof.
  induction s as [|c s IH]; intros H; [reflexivity|].
  cbn [all_chars] in H. apply andb_true_iff in H as [Hc Hs].
  cbn [search_line_start]. unfold not_newline in Hc. apply negb_true_iff in Hc.
  rewrite Hc. now apply IH.
Qed.

Lemma search_line_start_first p s :
  all_chars not_newline s = true ->
  search_line_start p true s = option_map (fun n => substring 0 n s) (p s).
Proof.
  intros H. destruct s as [|c s]; cbn [search_line_start].
  - now destruct (p "").
  - destruct (p (String c s)); [reflexivity|]. cbn [option_map].
    cbn [all_chars] in H. apply andb_true_iff in H as [Hc Hs].
    unfold not_newline in Hc. apply negb_true_iff in Hc. rewrite Hc.
    now apply search_line_start_inside.
Qed.

Lemma substring_prefix n s : String.prefix (substring 0 n s) s = true.
Proof.
  revert s. induction n as [|n IH]; intros [|c s]; cbn; try reflexivity.
  destruct (Ascii.ascii_dec c c); [apply IH | congruence].
Qed.

Lemma prefix_trans a b c :
  String.prefix a b = true -> String.prefix b c = true -> String.prefix a c = true.
Proof.
  rewrite !prefix_iff. intros (p & ->) (q & ->). exists (p ++ q).
  now rewrite append_assoc'.
Qed.

Lemma rstrip_is_prefix s : String.prefix (rstrip s) s = true.
Proof. apply prefix_iff, rstrip_prefix. Qed.

Lemma strip_group_prefix n s :
  strip s = s -> String.prefix (strip (substring 0 n s)) s = true.
Proof.
  intros Hs. apply (prefix_trans _ (substring 0 n s)); [|apply substring_prefix].
  unfold strip.
  enough (E : lstrip (substring 0 n s) = substring 0 n s)
    by (rewrite E; apply rstrip_is_prefix).
  destruct n as [|n]; [now destruct s|]. destruct s as [|c s]; [reflexivity|].
  cbn [substring]. apply lstrip_fixed.
  unfold strip in Hs. destruct (isspace c) eqn:Ec; [|reflexivity].
  exfalso. cbn [lstrip] in Hs. rewrite Ec in Hs.
  destruct (lstrip_shape s) as [E|(d & r & E & Hd)]; rewrite E in Hs.
  - discriminate.
  - destruct (rstrip_head d r Hd) as (r' & E'). rewrite E' in Hs.
    injection Hs as -> _. congruence.
Qed.

Lemma section_header_prefix raw :
  String.prefix (_extract_section_header (_clean_text raw)) (_clean_text raw) = true.
Proof.
  unfold _extract_section_header.
  rewrite !search_line_start_first by apply clean_text_no_newline.
  pose proof (clean_text_stripped raw) as Hs.
  destruct (numbered_section _); cbn [option_map]; [now apply strip_group_prefix|].
  destruct (section_colon _); cbn [option_map]; [now apply strip_group_prefix|].
  destruct (caps_header _); cbn [option_map]; [now apply strip_group_prefix|].
  now destruct (_clean_text raw).
Qed.

(** *** The pages *)
Lemma pages_from_member extracted : forall page_num p,
  In p (pages_from page_num extracted) ->
  exists i raw,
    extracted !! i = Some (Some raw)
    /\ raw <> ""
    /\ page_number p = (page_num + Z.of_nat i)%Z
    /\ text p = _clean_text raw
    /\ section_header p = _extract_section_header (_clean_text raw)
    /\ char_count p = len (_clean_text raw).
Proof.
  induction extracted as [|raw rest IH]; intros page_num p Hin; [destruct Hin|].
  cbn [pages_from] in Hin. apply in_app_or in Hin as [Hin|Hin].
  - destruct raw as [[|c r]|]; [destruct Hin | | destruct Hin].
    destruct Hin as [<-|[]]. exists 0, (String c r). cbn.
    repeat split; try reflexivity; [discriminate | lia].
  - apply IH in Hin as (i & raw' & H1 & H2 & H3 & H4). exists (S i), raw'.
    cbn. repeat split; try tauto. lia.
Qed.

Lemma pages_from_complete extracted : forall page_num i raw,
  extracted !! i = Some (Some raw) -> raw <> "" ->
  exists p, In p (pages_from page_num extracted)
            /\ page_number p = (page_num + Z.of_nat i)%Z
            /\ text p = _clean_text raw.
Proof.
  induction extracted as [|x rest IH]; intros page_num i raw Hi Hne; [discriminate|].
  cbn [pages_from]. destruct i as [|i].
  - cbn in Hi. injection Hi as ->. destruct raw as [|c r]; [congruence|].
    eexists. split; [apply in_or_app; left; now left|]. cbn. split; [lia|reflexivity].
  - cbn in Hi. destruct (IH (page_num + 1)%Z i raw Hi Hne) as (p & Hin & Hn & Ht).
    exists p. split; [apply in_or_app; now right|]. split; [lia | assumption].
Qed.

Lemma pages_from_sorted extracted : forall page_num,
  StronglySorted Z.lt (map page_number (pages_from page_num extracted)).
Proof.
  induction extracted as [|raw rest IH]; intros page_num; [constructor|].
  cbn [pages_from].
  assert (Hlater : List.Forall (Z.lt page_num)
                     (map page_number (pages_from (page_num + 1) rest))).
  { apply List.Forall_forall. intros n Hn. apply in_map_iff in Hn as (p & <- & Hp).
    apply pages_from_member in Hp as (i & raw' & _ & _ & -> & _). lia. }
  destruct raw as [[|c r]|]; cbn [app map]; try apply IH.
  constructor; [apply IH | exact Hlater].
Qed.

End PdfFacts.

Section ExtractFacts.
Import PyStr PDFProcessor.

Lemma extract_from_reader pdfplumber_texts pypdf2_texts :
  extract_text_with_metadata pdfplumber_texts pypdf2_texts
  = obind (reader_pages pdfplumber_texts pypdf2_texts)
          (fun extracted => Return (pages_from 1 extracted)).
Proof.
  unfold extract_text_with_metadata, _extract_with_pypdf2, reader_pages.
  now destruct pdfplumber_texts.
Qed.

(** X12. The pages returned are those of the reader that have text, in
    document order and under their 1-based number; each holds the
    cleaned text, its length, and a header that is the beginning of
    that text; when both readers raise, the second error is raised. *)
Theorem extract_text_with_metadata_pages pdfplumber_texts pypdf2_texts :
  (forall extracted,
     reader_pages pdfplumber_texts pypdf2_texts = Return extracted ->
     exists pages,
       extract_text_with_metadata pdfplumber_texts pypdf2_texts = Return pages
       /\ StronglySorted Z.lt (map page_number pages)
       /\ (forall p, In p pages ->
             exists i raw,
               extracted !! i = Some (Some raw) /\ raw <> ""
               /\ page_number p = (1 + Z.of_nat i)%Z
               /\ text p = _clean_text raw
               /\ char_count p = len (text p)
               /\ String.prefix (section_header p) (text p) = true)
       /\ (forall i raw,
             extracted !! i = Some (Some raw) -> raw <> "" ->
             exists p, In p pages /\ page_number p = (1 + Z.of_nat i)%Z
                       /\ text p = _clean_text raw))
  /\ (forall e,
        reader_pages pdfplumber_texts pypdf2_texts = Raise e ->
        extract_text_with_metadata pdfplumber_texts pypdf2_texts = Raise e).
Proof.
  rewrite extract_from_reader. split.
  - intros extracted ->. cbn [obind]. eexists. split; [reflexivity|].
    split; [apply pages_from_sorted|]. split.
    + intros p Hp.
      destruct (pages_from_member extracted 1 p Hp)
        as (i & raw & H1 & H2 & H3 & H4 & H5 & H6).
      exists i, raw. rewrite H6, H5, H4.
      repeat match goal with |- _ /\ _ => split end; auto.
      apply section_header_prefix.
    + intros i raw Hi Hne. now apply pages_from_complete.
  - intros e ->. reflexivity.
Qed.

End ExtractFacts.

(** * Retrieval: ranking and fields *)
Section RetrievalMore.
Import PyStr PyList SemanticSearch.

Lemma format_one_similarity metadatas0 distances0 i doc :
  similarity_score (format_one metadatas0 distances0 i doc)
  = similarity_at distances0 i.
Proof.
  unfold format_one, similarity_at. cbn [similarity_score].
  now destruct (distances0 !! i).
Qed.

Lemma py_min_mono a b : (a <= b)%Q -> (py_min a 1 <= py_min b 1)%Q.
Proof.
  intros H. rewrite !py_min_Qmin. apply Q.min_le_compat_r. exact H.
Qed.

Lemma sorted_lookup_le (l : list Q) : StronglySorted Qle l ->
  forall i j a b, i <= j -> l !! i = Some a -> l !! j = Some b -> (a <= b)%Q.
Proof.
  induction 1 as [|x l Hs IH Hx]; intros i j a b Hij Hi Hj; [destruct i; discriminate|].
  destruct i as [|i], j as [|j]; cbn in Hi, Hj.
  - injection Hi as <-. injection Hj as <-. apply Qle_refl.
  - injection Hi as <-. rewrite List.Forall_forall in Hx. apply Hx.
    apply list_elem_of_In. eapply list_elem_of_lookup_2; eauto.
  - lia.
  - apply (IH i j); auto. lia.
Qed.

Lemma similarity_at_antitone distances0 i j :
  StronglySorted Qle distances0 -> i <= j ->
  (similarity_at distances0 j <= similarity_at distances0 i)%Q.
Proof.
  intros Hs Hij. unfold similarity_at.
  assert (H : (py_min (default 1 (distances0 !! i)) 1
               <= py_min (default 1 (distances0 !! j)) 1)%Q).
  { destruct (distances0 !! j) as [b|] eqn:Ej.
    - destruct (distances0 !! i) as [a|] eqn:Ei.
      + apply py_min_mono. cbn. eapply sorted_lookup_le; eauto.
      + apply lookup_ge_None in Ei. apply lookup_lt_Some in Ej. lia.
    - change (default 1%Q None) with 1%Q. change (py_min 1 1) with 1%Q.
      apply py_min_le_r. }
  lra.
Qed.

Lemma imap_format_sorted metadatas0 distances0 docs : forall k,
  StronglySorted Qle distances0 ->
  sorted_desc (imap (fun i => format_one metadatas0 distances0 (k + i)) docs).
Proof.
  unfold sorted_desc. induction docs as [|doc docs IH]; intros k Hs; [constructor|].
  cbn [imap]. constructor.
  - rewrite (imap_ext _ (fun i => format_one metadatas0 distances0 (S k + i)))
      by (intros; cbn; f_equal; lia).
    now apply IH.
  - apply List.Forall_forall. intros r Hr. apply list_elem_of_In in Hr.
    apply list_elem_of_lookup in Hr as (i & Hi).
    rewrite list_lookup_imap in Hi. destruct (docs !! i); [|discriminate].
    cbn in Hi. injection Hi as <-. unfold score_ge.
    rewrite !format_one_similarity. apply similarity_at_antitone; [assumption | lia].
Qed.

(** X13. Distances listed in ascending order give results in descending
    order of similarity. *)
Theorem format_results_ranked results documents0 others distances0 others' :
  documents results = Some (documents0 :: others) ->
  metadatas results <> Some [] ->
  distances results = Some (distances0 :: others') ->
  StronglySorted Qle distances0 ->
  exists formatted,
    _format_results results = Return formatted /\ sorted_desc formatted.
Proof.
  intros Hd Hm Hdist Hs. unfold _format_results. rewrite Hd, Hdist.
  destruct documents0 as [|doc docs].
  - exists []. split; [reflexivity | constructor].
  - destruct (metadatas results) as [[|g ?]|]; [congruence| |]; cbn [first_group obind];
      (eexists; split; [reflexivity|]);
      apply (imap_format_sorted _ distances0 (doc :: docs) 0 Hs).
Qed.

Lemma imap_format_texts metadatas0 distances0 docs : forall k,
  map text (imap (fun i => format_one metadatas0 distances0 (k + i)) docs) = docs.
Proof.
  induction docs as [|doc docs IH]; intros k; [reflexivity|].
  cbn [imap map]. f_equal.
  rewrite (imap_ext _ (fun i => format_one metadatas0 distances0 (S k + i)))
    by (intros; cbn; f_equal; lia).
  apply IH.
Qed.

(** X14. The results carry the documents in order, each with the fields of
    its metadata entry, or with the defaults when no entry is listed. *)
Theorem format_results_fields results documents0 others :
  documents results = Some (documents0 :: others) ->
  metadatas results <> Some [] ->
  distances results <> Some [] ->
  exists formatted,
    _format_results results = Return formatted
    /\ map text formatted = documents0
    /\ forall i r, formatted !! i = Some r ->
         let listed := match metadatas results with
                       | Some (metadatas0 :: _) => metadatas0 !! i
                       | _ => None
                       end in
         match listed with
         | Some metadata =>
             page_number r = md_page_number metadata
             /\ section_header r = default "" (md_section_header metadata)
             /\ chunk_id r = md_chunk_id metadata
         | None => page_number r = None /\ section_header r = "" /\ chunk_id r = None
         end.
Proof.
  intros Hd Hm Hdist. unfold _format_results. rewrite Hd.
  destruct documents0 as [|doc docs].
  - exists []. split; [reflexivity|]. split; [reflexivity|]. intros [] r Hi; discriminate.
  - assert (Gm : exists metadatas0, first_group (metadatas results) = Return metadatas0
               /\ forall i, match metadatas results with
                            | Some (m0 :: _) => m0 !! i
                            | _ => None
                            end = metadatas0 !! i).
    { destruct (metadatas results) as [[|g ?]|]; cbn.
      - congruence.
      - exists g. split; reflexivity.
      - exists []. split; [reflexivity|]. now intros []. }
    assert (Gd : exists distances0, first_group (distances results) = Return distances0).
    { destruct (distances results) as [[|g ?]|]; cbn; [congruence|eauto|eauto]. }
    destruct Gm as (metadatas0 & -> & Hlisted). destruct Gd as (distances0 & ->).
    cbn [obind]. eexists. split; [reflexivity|]. split.
    + apply (imap_format_texts metadatas0 distances0 (doc :: docs) 0).
    + intros i r Hi. cbv zeta. rewrite Hlisted.
      apply imap_lookup_Some in Hi as (d & _ & ->). unfold format_one.
      cbn [page_number section_header chunk_id].
      destruct (metadatas0 !! i); repeat split.
Qed.
Lemma slice_to_nil {A} (n : Z) : slice_to n (@nil A) = [].
Proof. unfold slice_to. now rewrite firstn_nil. Qed.


(** What [hybrid_search] receives: over an index answer whose
    distances are non-negative and ascending, the results of [search]
    are in descending order of score and no score exceeds 1. *)
Lemma search_results_ranked emb store query n filter_metadata embedding
    results documents0 others distances0 others' :
  emb query = Some embedding ->
  store embedding n filter_metadata = Return results ->
  documents results = Some (documents0 :: others) ->
  metadatas results <> Some [] ->
  distances results = Some (distances0 :: others') ->
  StronglySorted Qle distances0 ->
  (forall d, In d distances0 -> (0 <= d)%Q) ->
  exists semantic_results,
    search emb store query n filter_metadata = Return semantic_results
    /\ sorted_desc semantic_results
    /\ forall r, In r semantic_results -> (similarity_score r <= 1)%Q.
Proof.
  intros He Hst Hd Hm Hdist Hs Hpos. unfold search. rewrite He, Hst. cbn [obind].
  unfold _format_results. rewrite Hd, Hdist.
  destruct documents0 as [|doc docs].
  { exists []. split; [reflexivity|]. split; [constructor | intros r []]. }
  assert (Hle : forall metadatas0 r,
            In r (imap (format_one metadatas0 distances0) (doc :: docs)) ->
            (similarity_score r <= 1)%Q).
  { intros metadatas0 r Hr. apply list_elem_of_In, list_elem_of_lookup in Hr as [i Hi].
    apply imap_lookup_Some in Hi as (x & _ & ->).
    rewrite format_one_similarity. unfold similarity_at.
    destruct (distances0 !! i) as [d|] eqn:Ed; cbn [default].
    - apply similarity_in_unit_interval, Hpos.
      apply list_elem_of_In, list_elem_of_lookup. eauto.
    - apply similarity_in_unit_interval. discriminate. }
  destruct (metadatas results) as [[|g ?]|]; [congruence| |]; cbn [first_group obind];
    (eexists; split; [reflexivity|]; split;
      [apply (imap_format_sorted _ distances0 (doc :: docs) 0 Hs) | apply Hle]).
Qed.

End RetrievalMore.

(** * Batches, the index and the embedder *)
Section BatchFacts.
Import PyStr PyList PyRange.

Lemma slice_between_batch {A} (i step : Z) (l : list A) :
  (0 <= i <= Z.of_nat (length l))%Z -> (0 < step)%Z ->
  slice_between i (i + step) l = firstn (Z.to_nat step) (skipn (Z.to_nat i) l).
Proof.
  intros Hi Hs. unfold slice_between.
  destruct (Z.ltb_spec i 0); [lia|]. destruct (Z.ltb_spec (i + step) 0); [lia|].
  rewrite (Z.min_l i) by lia.
  destruct (Z.le_gt_cases (i + step) (Z.of_nat (length l))).
  - rewrite Z.min_l by lia. f_equal. lia.
  - rewrite Z.min_r by lia.
    rewrite !firstn_all2; [reflexivity | rewrite length_skipn; lia | rewrite length_skipn; lia].
Qed.

(** The batches of a list: consecutive slices that cover it. *)
Lemma batches_cover {A} (step : Z) (l : list A) : (0 < step)%Z ->
  forall fuel i,
    (0 <= i)%Z -> (Z.of_nat (length l) - i <= Z.of_nat fuel)%Z ->
    concat (map (fun i => slice_between i (i + step) l)
                (range_from fuel i (Z.of_nat (length l)) step))
    = skipn (Z.to_nat i) l.
Proof.
  intros Hs. induction fuel as [|fuel IH]; intros i Hi Hf; cbn [range_from map concat].
  - rewrite skipn_all2 by lia. reflexivity.
  - destruct (Z.ltb_spec i (Z.of_nat (length l))).
    + cbn [map concat]. rewrite IH by lia.
      rewrite slice_between_batch by lia.
      replace (Z.to_nat (i + step)) with (Z.to_nat step + Z.to_nat i) by lia.
      rewrite <- skipn_skipn. apply firstn_skipn.
    + rewrite skipn_all2 by lia. reflexivity.
Qed.

Lemma batches_sized {A} (step : Z) (l : list A) : (0 < step)%Z ->
  forall fuel i b,
    (0 <= i)%Z ->
    In b (map (fun i => slice_between i (i + step) l)
              (range_from fuel i (Z.of_nat (length l)) step)) ->
    (1 <= Z.of_nat (length b) <= step)%Z.
Proof.
  intros Hs. induction fuel as [|fuel IH]; intros i b Hi; cbn [range_from map]; [intros []|].
  destruct (Z.ltb_spec i (Z.of_nat (length l))); [|intros []].
  cbn [map]. intros [<-|Hin]; [|apply (IH (i + step)%Z); [lia|exact Hin]].
  rewrite slice_between_batch by lia.
  rewrite length_firstn, length_skipn. lia.
Qed.
End BatchFacts.

Section StoreFacts.
Import PyStr PyList PyRange Embedder VectorStore.

(** X16. For a positive batch size [add_chunks] offers to the index
    exactly the chunks that carry a vector, each once, in their
    order, in batches of one to [batch_size] chunks. A batch size of
    zero raises; a negative one adds nothing. *)
Theorem add_chunks_offers_embedded_chunks chunks batch_size :
  ((0 < batch_size)%Z ->
   exists batches,
     add_chunks chunks batch_size = Return (map add_call batches)
     /\ concat batches = List.filter has_embedding chunks
     /\ forall batch, In batch batches ->
          (1 <= Z.of_nat (length batch) <= batch_size)%Z)
  /\ (batch_size = 0%Z -> exists e, add_chunks chunks batch_size = Raise e)
  /\ ((batch_size < 0)%Z -> add_chunks chunks batch_size = Return []).
Proof.
  unfold add_chunks, py_range.
  set (valid := List.filter has_embedding chunks).
  split; [|split].
  - intros Hs.
    destruct (Z.eqb_spec batch_size 0); [lia|]. destruct (Z.ltb_spec batch_size 0); [lia|].
    cbn [obind].
    exists (map (fun i => slice_between i (i + batch_size) valid)
                (range_from (Z.to_nat (Z.of_nat (length valid))) 0
                   (Z.of_nat (length valid)) batch_size)).
    split; [now rewrite map_map|]. split.
    + rewrite batches_cover by lia. reflexivity.
    + intros batch Hin. eapply batches_sized; [exact Hs| |exact Hin]. lia.
  - intros ->. cbn. eauto.
  - intros Hs. destruct (Z.eqb_spec batch_size 0); [lia|].
    destruct (Z.ltb_spec batch_size 0); [|lia]. reflexivity.
Qed.

End StoreFacts.

Section StackFacts.
Import PyStr PyList SemanticSearch.

(** X15. Through [hybrid_search], [search] and the index: a query whose
    embedding cannot be computed and a query that the index fails to
    answer both come back as an empty result list, without an error;
    only a missing collection raises, and only when the embedding
    succeeded. *)
Theorem search_failures_give_no_results create_embeddings collection
    query n_results keywords :
  let embedder := Embedder.generate_single_embedding create_embeddings in
  let index := VectorStore.search collection in
  ((forall e rest, create_embeddings [query] <> Return (e :: rest)) ->
   search embedder index query n_results None = Return []
   /\ hybrid_search embedder index query n_results keywords = Return [])
  /\ (forall e rest ask error,
        create_embeddings [query] = Return (e :: rest) ->
        collection = Some ask ->
        (forall n, ask e n None = Raise error) ->
        search embedder index query n_results None = Return []
        /\ hybrid_search embedder index query n_results keywords = Return [])
  /\ (forall e rest,
        create_embeddings [query] = Return (e :: rest) ->
        collection = None ->
        exists error,
          search embedder index query n_results None = Raise error
          /\ hybrid_search embedder index query n_results keywords = Raise error).
Proof.
  cbv zeta.
  assert (Hempty : forall n : Z,
            match keywords with
            | None | Some [] => Return (slice_to n (@nil SearchResult))
            | Some (k :: l) =>
                Return (slice_to n (sort_desc (map (boost_result (k :: l)) [])))
            end = Return []).
  { intros n. destruct keywords as [[|k l]|]; cbn [map]; unfold sort_desc;
      cbn [foldr]; now rewrite slice_to_nil. }
  split; [|split].
  - intros Hf.
    assert (E : Embedder.generate_single_embedding create_embeddings query = None).
    { unfold Embedder.generate_single_embedding.
      destruct (create_embeddings [query]) as [[|e rest]|]; try reflexivity.
      now destruct (Hf e rest). }
    unfold hybrid_search, search. rewrite E. cbn [obind]. split; [reflexivity|].
    apply Hempty.
  - intros e rest ask error He -> Hask.
    unfold hybrid_search, search, Embedder.generate_single_embedding, VectorStore.search.
    rewrite He, !Hask. cbn. split; [reflexivity|]. apply Hempty.
  - intros e rest He ->. eexists.
    unfold hybrid_search, search, Embedder.generate_single_embedding, VectorStore.search.
    rewrite He. cbn. split; reflexivity.
Qed.
End StackFacts.

Section EmbedFacts.
Import PyStr PyList PyRange Embedder.

Lemma store_embeddings_stored data : forall k cur,
  k + length data <= length cur ->
  store_embeddings k data cur = (stored k data cur, true).
Proof.
  induction data as [|e rest IH]; intros k cur H; cbn [store_embeddings].
  - f_equal. symmetry. apply list_eq. intros j. unfold stored.
    rewrite list_lookup_imap. destruct (cur !! j); cbn -[Nat.leb Nat.ltb Nat.sub Nat.add lookup]; [|reflexivity].
    now destruct (k <=? j)%nat.
  - cbn [length] in H.
    destruct (cur !! k) as [c|] eqn:Ec; [|apply lookup_ge_None in Ec; lia].
    rewrite IH by (rewrite length_insert; lia). f_equal.
    apply list_eq. intros j. unfold stored. rewrite !list_lookup_imap.
    destruct (decide (k = j)) as [<-|Hne].
    + rewrite list_lookup_insert_eq by (eapply lookup_lt_Some; eauto). rewrite Ec.
      cbn -[Nat.leb Nat.ltb Nat.sub Nat.add lookup].
      destruct (Nat.leb_spec (S k) k); [lia|]. destruct (Nat.leb_spec k k); [|lia].
      now rewrite Nat.sub_diag.
    + rewrite list_lookup_insert_ne by assumption.
      destruct (cur !! j) as [c'|]; cbn -[Nat.leb Nat.ltb Nat.sub Nat.add lookup];
        [|reflexivity]. f_equal.
      destruct (Nat.leb_spec (S k) j), (Nat.leb_spec k j); try lia; [|reflexivity].
      replace (j - k) with (S (j - S k)) by lia. reflexivity.
Qed.

Lemma mark_failed_marked n : forall k cur,
  k + n <= length cur -> mark_failed k n cur = Return (marked k n cur).
Proof.
  induction n as [|n IH]; intros k cur H; cbn [mark_failed].
  - f_equal. symmetry. apply list_eq. intros j. unfold marked.
    rewrite list_lookup_imap. destruct (cur !! j); cbn -[Nat.leb Nat.ltb Nat.sub Nat.add lookup]; [|reflexivity].
    destruct (Nat.leb_spec k j), (Nat.ltb_spec j (k + 0)); try lia; reflexivity.
  - destruct (cur !! k) as [c|] eqn:Ec; [|apply lookup_ge_None in Ec; lia].
    assert (E : match embedding c with
                | None => <[k := set_embedding None c]> cur
                | Some _ => cur
                end = <[k := mark c]> cur).
    { unfold mark. destruct (embedding c); [|reflexivity].
      symmetry. now apply list_insert_id. }
    rewrite E, IH by (rewrite length_insert; lia). f_equal.
    apply list_eq. intros j. unfold marked. rewrite !list_lookup_imap.
    destruct (decide (k = j)) as [<-|Hne].
    + rewrite list_lookup_insert_eq by (eapply lookup_lt_Some; eauto). rewrite Ec.
      cbn -[Nat.leb Nat.ltb Nat.sub Nat.add lookup].
      destruct (Nat.leb_spec (S k) k); [lia|]. destruct (Nat.leb_spec k k); [|lia].
      destruct (Nat.ltb_spec k (k + S n)); [|lia]. reflexivity.
    + rewrite list_lookup_insert_ne by assumption.
      destruct (cur !! j) as [c'|]; cbn -[Nat.leb Nat.ltb Nat.sub Nat.add lookup];
        [|reflexivity]. f_equal.
      destruct (Nat.leb_spec (S k) j), (Nat.leb_spec k j),
               (Nat.ltb_spec j (S k + n)), (Nat.ltb_spec j (k + S n));
        try lia; reflexivity.
Qed.

Lemma embedded_as_chunk create bs chunks k c :
  chunk (embedded_as create bs chunks k c) = chunk c.
Proof.
  unfold embedded_as, mark.
  destruct (create _) as [data|e]; [destruct (data !! _)|destruct (embedding c)];
    reflexivity.
Qed.

Lemma progress_chunks create bs chunks i :
  map chunk (progress create bs chunks i) = map chunk chunks.
Proof.
  apply list_eq. intros j. unfold progress.
  rewrite !list_lookup_fmap, list_lookup_imap.
  destruct (chunks !! j) as [c|]; cbn -[Nat.leb Nat.ltb Nat.sub Nat.add lookup];
    [|reflexivity].
  destruct (j <? i)%nat; [now rewrite embedded_as_chunk|reflexivity].
Qed.

Lemma progress_all create bs chunks i :
  length chunks <= i ->
  progress create bs chunks i = imap (embedded_as create bs chunks) chunks.
Proof.
  intros H. apply list_eq. intros j. unfold progress. rewrite !list_lookup_imap.
  destruct (chunks !! j) as [c|] eqn:E; cbn -[Nat.leb Nat.ltb Nat.sub Nat.add lookup];
    [|reflexivity].
  apply lookup_lt_Some in E. destruct (Nat.ltb_spec j i); [reflexivity|lia].
Qed.

Lemma batch_start_in_batch (bs : Z) (m j : nat) :
  (0 < bs)%Z ->
  m * Z.to_nat bs <= j < m * Z.to_nat bs + Z.to_nat bs ->
  batch_start bs j = m * Z.to_nat bs.
Proof.
  intros Hs Hj. unfold batch_start.
  assert (E : (Z.of_nat j / bs = Z.of_nat m)%Z).
  { symmetry. apply (Z.div_unique _ _ _ (Z.of_nat j - bs * Z.of_nat m)); nia. }
  rewrite E. nia.
Qed.

Lemma batch_start_bounds (bs : Z) (j : nat) :
  (0 < bs)%Z -> batch_start bs j <= j < batch_start bs j + Z.to_nat bs.
Proof.
  intros Hs. unfold batch_start.
  pose proof (Z.mul_div_le (Z.of_nat j) bs Hs).
  pose proof (Z.mod_pos_bound (Z.of_nat j) bs Hs).
  pose proof (Z.div_mod (Z.of_nat j) bs ltac:(lia)).
  pose proof (Z.div_pos (Z.of_nat j) bs ltac:(lia) Hs).
  nia.
Qed.

Section Client.
Variable create_embeddings : list string -> outcome (list (list Q)).
Variable batch_size : Z.
Hypothesis batch_size_positive : (0 < batch_size)%Z.
Hypothesis in_kind : answers_in_kind create_embeddings.

Lemma embed_batch_progress chunks (m : nat) :
  m * Z.to_nat batch_size < length chunks ->
  embed_batch create_embeddings batch_size
    (progress create_embeddings batch_size chunks (m * Z.to_nat batch_size))
    (Z.of_nat (m * Z.to_nat batch_size))
  = Return (progress create_embeddings batch_size chunks
              (m * Z.to_nat batch_size + Z.to_nat batch_size)).
Proof.
  set (b := Z.to_nat batch_size). set (i := m * b). intros Hi.
  set (cur := progress create_embeddings batch_size chunks i).
  assert (Hlen : length cur = length chunks) by apply length_imap.
  unfold embed_batch.
  rewrite slice_between_batch by lia. rewrite Nat2Z.id. fold b.
  set (texts := map (fun c => Chunker.text (chunk c)) (firstn b (skipn i cur))).
  assert (Htexts : forall j, i <= j < i + b ->
                     batch_texts batch_size chunks j = texts).
  { intros j Hj. unfold batch_texts, texts.
    rewrite (batch_start_in_batch batch_size m j) by (fold b; auto). fold b i.
    rewrite <- !(map_map chunk Chunker.text), <- !firstn_map, <- !skipn_map.
    subst cur. now rewrite progress_chunks. }
  assert (Hbatch : length (firstn b (skipn i cur)) = Nat.min b (length chunks - i)).
  { now rewrite length_firstn, length_skipn, Hlen. }
  assert (Hstart : forall j, i <= j < i + b -> batch_start batch_size j = i).
  { intros j Hj. apply (batch_start_in_batch batch_size m j); fold b; auto. }
  destruct (create_embeddings texts) as [data|e] eqn:Ec.
  - assert (Hdata : length data = Nat.min b (length chunks - i)).
    { rewrite (in_kind _ _ Ec). unfold texts. now rewrite length_map. }
    rewrite store_embeddings_stored by lia. f_equal.
    apply list_eq. intros j. unfold stored, cur, progress.
    rewrite !list_lookup_imap.
    destruct (chunks !! j) as [c|] eqn:Ej; cbn -[Nat.leb Nat.ltb Nat.sub Nat.add lookup];
      [|reflexivity].
    apply lookup_lt_Some in Ej. f_equal.
    destruct (Nat.leb_spec i j), (Nat.ltb_spec j i), (Nat.ltb_spec j (i + b));
      try lia; try reflexivity.
    + unfold embedded_as. rewrite Htexts, Ec, Hstart by lia. reflexivity.
    + rewrite (proj2 (lookup_ge_None data (j - i))) by lia. reflexivity.
  - rewrite mark_failed_marked by lia. rewrite Hbatch. f_equal.
    apply list_eq. intros j. unfold marked, cur, progress.
    rewrite !list_lookup_imap.
    destruct (chunks !! j) as [c|] eqn:Ej; cbn -[Nat.leb Nat.ltb Nat.sub Nat.add lookup];
      [|reflexivity].
    apply lookup_lt_Some in Ej. f_equal.
    destruct (Nat.leb_spec i j), (Nat.ltb_spec j i), (Nat.ltb_spec j (i + b)),
             (Nat.ltb_spec j (i + Nat.min b (length chunks - i)));
      try lia; try reflexivity.
    unfold embedded_as. rewrite Htexts, Ec by lia. reflexivity.
Qed.

Lemma embed_loop chunks : forall fuel (m : nat),
  length chunks - m * Z.to_nat batch_size <= fuel ->
  for_each_batch
    (range_from fuel (Z.of_nat (m * Z.to_nat batch_size))
       (Z.of_nat (length chunks)) batch_size)
    (embed_batch create_embeddings batch_size)
    (progress create_embeddings batch_size chunks (m * Z.to_nat batch_size))
  = Return (imap (embedded_as create_embeddings batch_size chunks) chunks).
Proof.
  induction fuel as [|fuel IH]; intros m Hf; cbn [range_from for_each_batch].
  - f_equal. apply progress_all. lia.
  - destruct (Z.ltb_spec (Z.of_nat (m * Z.to_nat batch_size))
                         (Z.of_nat (length chunks))).
    + cbn [for_each_batch]. rewrite embed_batch_progress by lia. cbn [obind].
      replace (Z.of_nat (m * Z.to_nat batch_size) + batch_size)%Z
        with (Z.of_nat (S m * Z.to_nat batch_size)) by lia.
      replace (m * Z.to_nat batch_size + Z.to_nat batch_size)
        with (S m * Z.to_nat batch_size) by lia.
      apply IH. nia.
    + cbn [for_each_batch]. f_equal. apply progress_all. lia.
Qed.

Lemma generate_embeddings_run chunks :
  generate_embeddings create_embeddings batch_size chunks
  = Return (imap (embedded_as create_embeddings batch_size chunks) chunks).
Proof.
  unfold generate_embeddings, py_range.
  destruct (Z.eqb_spec batch_size 0); [lia|].
  destruct (Z.ltb_spec batch_size 0); [lia|]. cbn [obind].
  rewrite Nat2Z.id.
  assert (P0 : progress create_embeddings batch_size chunks (0 * Z.to_nat batch_size)
               = chunks).
  { apply list_eq. intros j. unfold progress. rewrite list_lookup_imap.
    now destruct (chunks !! j). }
  pose proof (embed_loop chunks (length chunks) 0 ltac:(lia)) as L.
  rewrite P0 in L. exact L.
Qed.

(** X17. With a positive batch size and a provider that answers in kind,
    [generate_embeddings] returns the chunks unchanged but for the
    embedding: a chunk of an answered batch holds the vector at its
    place in the answer, a chunk of a failed batch holds [None]
    unless it already had an embedding. *)
Theorem generate_embeddings_by_batch chunks :
  exists out,
    generate_embeddings create_embeddings batch_size chunks = Return out
    /\ map chunk out = map chunk chunks
    /\ forall k c, out !! k = Some c ->
         exists original,
           chunks !! k = Some original
           /\ match create_embeddings (batch_texts batch_size chunks k) with
              | Return data =>
                  exists e, data !! (k - batch_start batch_size k) = Some e
                            /\ embedding c = Some (Some e)
              | Raise _ => embedding c = Some (default None (embedding original))
              end.
Proof.
  eexists. split; [apply generate_embeddings_run|]. split.
  - rewrite <- (progress_all create_embeddings batch_size chunks (length chunks))
      by lia. apply progress_chunks.
  - intros k c Hk. rewrite list_lookup_imap in Hk.
    destruct (chunks !! k) as [original|] eqn:Eo; [|discriminate].
    injection Hk as <-. exists original. split; [reflexivity|].
    unfold embedded_as.
    destruct (create_embeddings (batch_texts batch_size chunks k)) as [data|e] eqn:Ec.
    + pose proof (batch_start_bounds batch_size k batch_size_positive) as Hb.
      apply lookup_lt_Some in Eo.
      assert (Hlen : k - batch_start batch_size k < length data).
      { rewrite (in_kind _ _ Ec). unfold batch_texts.
        rewrite length_map, length_firstn, length_skipn. lia. }
      apply lookup_lt_is_Some in Hlen as [v Hv]. rewrite Hv. eauto.
    + unfold mark. destruct (embedding original) eqn:E; cbn; [exact E|reflexivity].
Qed.

End Client.
End EmbedFacts.

(** * The rule engine: what each check tests *)
Section RulesMore.
Import PyStr Rules.

Lemma lower_length s : String.length (lower s) = String.length s.
Proof. induction s as [|c s IH]; cbn; [reflexivity|now rewrite <- IH]. Qed.

Lemma lower_split a : forall s b,
  lower s = a ++ b -> exists s1 s2, s = s1 ++ s2 /\ lower s1 = a /\ lower s2 = b.
Proof.
  induction a as [|x a IH]; intros s b H.
  - exists "", s. now cbn.
  - destruct s as [|c s]; [discriminate|]. cbn in H. injection H as Hc Hs.
    destruct (IH s b Hs) as (s1 & s2 & -> & H1 & H2).
    exists (String c s1), s2. cbn. unfold lower in H1. now rewrite H1, Hc.
Qed.

Lemma contains_lower_iff phrase note :
  contains phrase (lower note) = true <-> mentions note phrase.
Proof.
  rewrite contains_iff. split.
  - intros (p & q & H).
    destruct (lower_split p note _ H) as (pre & rest & -> & _ & Hr).
    destruct (lower_split phrase rest _ Hr) as (w & post & -> & Hw & _).
    now exists pre, w, post.
  - intros (pre & w & post & -> & <-).
    exists (lower pre), (lower post). now rewrite !lower_append.
Qed.

Lemma any_keyword_in_iff keywords note :
  any_keyword_in keywords (lower note) = true
  <-> exists keyword, In keyword keywords /\ mentions note keyword.
Proof.
  unfold any_keyword_in. rewrite existsb_exists.
  split; intros (k & Hk & H); exists k; split; auto; now apply contains_lower_iff.
Qed.

Lemma check_required_fold note_lower elems : forall acc,
  fold_left
    (fun violations '(element_type, keywords) =>
       let found := any_keyword_in keywords note_lower in
       if negb found then (violations ++ [missing_element element_type])%list
       else violations)
    elems acc
  = (acc ++ map missing_element
       (map fst (List.filter (fun p => negb (any_keyword_in (snd p) note_lower))
                   elems)))%list.
Proof.
  induction elems as [|[e kws] l IH]; intros acc; cbn [fold_left List.filter snd].
  - cbn. now rewrite app_nil_r.
  - rewrite IH. cbv zeta.
    destruct (any_keyword_in kws note_lower); cbn [negb map fst]; [reflexivity|].
    now rewrite <- app_assoc.
Qed.

Lemma check_required_elements_spec note :
  check_required_elements note = map missing_element (missing_elements (lower note)).
Proof. unfold check_required_elements. now rewrite check_required_fold. Qed.

Lemma filter_sublist_of {A} (f : A -> bool) (l : list A) :
  sublist (List.filter f l) l.
Proof.
  induction l as [|x l IH]; cbn; [constructor|].
  destruct (f x); now constructor.
Qed.

Lemma sublist_map {A B} (f : A -> B) (l1 l2 : list A) :
  sublist l1 l2 -> sublist (map f l1) (map f l2).
Proof. induction 1; cbn; now constructor. Qed.

Lemma missing_elements_sublist note_lower :
  sublist (missing_elements note_lower) (map fst REQUIRED_ELEMENTS).
Proof. apply sublist_map, filter_sublist_of. Qed.

Lemma map_category_missing l : map category (map missing_element l) = l.
Proof. induction l as [|x l IH]; cbn; [reflexivity|now rewrite IH]. Qed.

Lemma string_eqb_neq_false (a b : string) : String.eqb a b = false -> a <> b.
Proof. intros H ->. now rewrite String.eqb_refl in H. Qed.

Lemma RULE_CATEGORIES_NoDup : NoDup RULE_CATEGORIES.
Proof.
  assert (D : forall (x : string) l,
            forallb (fun y => negb (String.eqb x y)) l = true -> x ∉ l).
  { intros x l H Hin. apply list_elem_of_In in Hin.
    rewrite forallb_forall in H. specialize (H x Hin).
    now rewrite String.eqb_refl in H. }
  unfold RULE_CATEGORIES. cbn.
  repeat (constructor; [apply D; reflexivity|]). constructor.
Qed.

Lemma check_homebound_categories note :
  sublist (map category (check_homebound_status note)) ["homebound_status"].
Proof.
  unfold check_homebound_status.
  destruct (negb _); cbn; repeat constructor.
Qed.

Lemma check_medical_categories note :
  sublist (map category (check_medical_necessity note)) ["medical_necessity"].
Proof.
  unfold check_medical_necessity.
  destruct (_ <? _)%Z; cbn; repeat constructor.
Qed.

Lemma check_visit_categories note :
  sublist (map category (check_visit_duration note)) ["visit_details"].
Proof.
  unfold check_visit_duration.
  destruct (_ <? _)%Z; cbn; repeat constructor.
Qed.

Lemma validate_note_categories_sublist note :
  sublist (map category (validate_note note)) RULE_CATEGORIES.
Proof.
  unfold validate_note, RULE_CATEGORIES. cbn [app].
  rewrite !map_app, <- !app_assoc.
  apply sublist_app.
  { rewrite check_required_elements_spec, map_category_missing.
    apply missing_elements_sublist. }
  change ["homebound_status"; "medical_necessity"; "visit_details"]
    with (["homebound_status"] ++ ["medical_necessity"] ++ ["visit_details"])%list.
  apply sublist_app; [apply check_homebound_categories|].
  apply sublist_app; [apply check_medical_categories|apply check_visit_categories].
Qed.

Lemma validate_note_severity note v :
  In v (validate_note note) -> severity v = rule_severity (category v).
Proof.
  unfold validate_note. cbn [app]. rewrite !in_app_iff.
  intros [[[H|H]|H]|H].
  - rewrite check_required_elements_spec in H.
    apply in_map_iff in H as (e & <- & He).
    assert (Hin : In e (map fst REQUIRED_ELEMENTS)).
    { apply list_elem_of_In.
      eapply elem_of_sublist; [|apply (missing_elements_sublist (lower note))].
      apply list_elem_of_In, He. }
    cbn in Hin.
    repeat (destruct Hin as [<-|Hin]; [reflexivity|]). destruct Hin.
  - unfold check_homebound_status in H.
    destruct (negb _); [|destruct H]. destruct H as [<-|[]]. reflexivity.
  - unfold check_medical_necessity in H.
    destruct (_ <? _)%Z; [|destruct H]. destruct H as [<-|[]]. reflexivity.
  - unfold check_visit_duration in H.
    destruct (_ <? _)%Z; [|destruct H]. destruct H as [<-|[]]. reflexivity.
Qed.

Lemma validate_note_not_general note v :
  In v (validate_note note) -> category v <> "General".
Proof.
  intros Hin E.
  assert (H : category v ∈ RULE_CATEGORIES).
  { eapply elem_of_sublist; [|apply (validate_note_categories_sublist note)].
    apply list_elem_of_In, in_map, Hin. }
  rewrite E in H. apply list_elem_of_In in H. cbn in H.
  repeat (destruct H as [H|H]; [discriminate|]). destruct H.
Qed.

(** X18. The rule engine reports every category at most once, in a fixed
    order, never the category of the model violations, and the
    severity of a violation is a function of its category. *)
Theorem validate_note_categories note :
  sublist (map category (validate_note note)) RULE_CATEGORIES
  /\ NoDup (map category (validate_note note))
  /\ length (validate_note note) <= 12
  /\ (forall v, In v (validate_note note) ->
        severity v = rule_severity (category v)
        /\ category v <> "General").
Proof.
  pose proof (validate_note_categories_sublist note) as S.
  split; [exact S|]. split; [|split].
  - eapply sublist_NoDup; [apply RULE_CATEGORIES_NoDup|exact S].
  - apply sublist_length in S. rewrite length_map in S. exact S.
  - intros v Hv. split; [now apply (validate_note_severity note)|
                         now apply (validate_note_not_general note)].
Qed.

(** X19. A required element is reported exactly when none of its keywords
    occurs in the note, in any letter case. *)
Theorem check_required_elements_iff note element keywords :
  In (element, keywords) REQUIRED_ELEMENTS ->
  (In (missing_element element) (check_required_elements note)
   <-> forall keyword, In keyword keywords -> ~ mentions note keyword).
Proof.
  intros Hin. rewrite check_required_elements_spec.
  assert (Hinj : forall e e', missing_element e = missing_element e' -> e = e').
  { intros e e' H. now apply (f_equal category) in H. }
  assert (Hkey : forall kws, In (element, kws) REQUIRED_ELEMENTS -> kws = keywords).
  { intros kws H. cbn in H, Hin.
    repeat (destruct Hin as [Hin|Hin];
            [injection Hin as <- <-;
             repeat (destruct H as [H|H];
                     [first [discriminate H | now injection H as <-]|]);
             destruct H|]).
    destruct Hin. }
  unfold missing_elements. split.
  - intros H keyword Hk Hm.
    apply in_map_iff in H as (e & He & H). apply Hinj in He. subst e.
    apply in_map_iff in H as ([e kws] & He & H). cbn in He. subst e.
    apply filter_In in H as [H1 H2]. cbn [snd] in H2.
    apply Hkey in H1. subst kws.
    apply negb_true_iff in H2.
    assert (T : any_keyword_in keywords (lower note) = true)
      by (apply any_keyword_in_iff; eauto).
    congruence.
  - intros H. apply in_map, in_map_iff. exists (element, keywords). split; [reflexivity|].
    apply filter_In. split; [exact Hin|]. cbn [snd].
    apply negb_true_iff. destruct (any_keyword_in keywords (lower note)) eqn:E; [|reflexivity].
    apply any_keyword_in_iff in E as (k & Hk & Hm). now destruct (H k Hk).
Qed.

Lemma check_homebound_status_spec note :
  check_homebound_status note = []
  <-> exists keyword, In keyword HOMEBOUND_KEYWORDS /\ mentions note keyword.
Proof.
  rewrite <- any_keyword_in_iff. unfold check_homebound_status.
  destruct (any_keyword_in HOMEBOUND_KEYWORDS (lower note)); cbn.
  - tauto.
  - split; discriminate.
Qed.

(** X20. The homebound check passes exactly when one of the seven phrases
    occurs in the note in any letter case; otherwise it gives one
    critical violation. *)
Theorem check_homebound_status_iff note :
  (check_homebound_status note = []
   <-> exists keyword, In keyword HOMEBOUND_KEYWORDS /\ mentions note keyword)
  /\ (check_homebound_status note <> [] ->
      map category (check_homebound_status note) = ["homebound_status"]
      /\ map severity (check_homebound_status note) = ["critical"]).
Proof.
  rewrite <- any_keyword_in_iff. unfold check_homebound_status.
  destruct (any_keyword_in HOMEBOUND_KEYWORDS (lower note)); cbn.
  - split; [tauto|]. intros H. now destruct H.
  - split; [|auto]. split; discriminate.
Qed.

Lemma count_keywords_fold text keywords : forall acc,
  fold_left (fun (acc : Z) keyword =>
               if contains keyword text then (acc + 1)%Z else acc) keywords acc
  = (acc + Z.of_nat (length (List.filter (fun k => contains k text) keywords)))%Z.
Proof.
  induction keywords as [|k l IH]; intros acc; cbn [fold_left List.filter].
  - cbn. lia.
  - rewrite IH. destruct (contains k text); cbn [length]; lia.
Qed.

Lemma two_members {A} (l : list A) :
  List.NoDup l ->
  (2 <= length l <-> exists a b, a <> b /\ In a l /\ In b l).
Proof.
  intros N. split.
  - destruct l as [|a [|b l]]; cbn; try lia. intros _.
    exists a, b. inversion N as [|? ? Ha _]. subst.
    split; [|auto]. intros ->. apply Ha. now left.
  - intros (a & b & Hab & Ha & Hb).
    destruct l as [|x [|y l]]; cbn in *; try lia; intuition congruence.
Qed.

(** X21. The medical necessity check passes exactly when two different
    phrases of the eight occur in the note, in any letter case. *)
Theorem check_medical_necessity_iff note :
  check_medical_necessity note = []
  <-> exists k1 k2, k1 <> k2
        /\ In k1 MEDICAL_NECESSITY_KEYWORDS /\ In k2 MEDICAL_NECESSITY_KEYWORDS
        /\ mentions note k1 /\ mentions note k2.
Proof.
  unfold check_medical_necessity, count_keywords_in.
  rewrite count_keywords_fold.
  set (hits := List.filter (fun k => contains k (lower note)) MEDICAL_NECESSITY_KEYWORDS).
  assert (N : List.NoDup hits).
  { apply List.NoDup_filter. unfold MEDICAL_NECESSITY_KEYWORDS.
    repeat (constructor; [cbn; intuition discriminate|]). constructor. }
  pose proof (two_members hits N) as T.
  assert (Hits : forall k, In k hits <-> In k MEDICAL_NECESSITY_KEYWORDS /\ mentions note k).
  { intros k. unfold hits. rewrite filter_In, contains_lower_iff. tauto. }
  destruct (0 + Z.of_nat (length hits) <? 2)%Z eqn:E.
  - apply Z.ltb_lt in E. split; [discriminate|].
    intros (k1 & k2 & Hne & H1 & H2 & M1 & M2). exfalso.
    assert (2 <= length hits); [|lia].
    apply T. exists k1, k2. rewrite !Hits. tauto.
  - apply Z.ltb_ge in E. split; [|reflexivity]. intros _.
    destruct T as [T _]. destruct T as (k1 & k2 & Hne & H1 & H2); [lia|].
    apply Hits in H1, H2. exists k1, k2. tauto.
Qed.

Lemma time_pattern_needs_colon prev s :
  has_no_colon s = true -> time_pattern prev s = 0.
Proof.
  unfold has_no_colon.
  assert (T : forall r, all_chars (fun c => negb (Ascii.eqb c ":")) r = true ->
                        time_tail r = None).
  { intros [|c r]; [reflexivity|]. cbn [all_chars time_tail]. intros H.
    apply andb_true_iff in H as [H _]. apply negb_true_iff in H.
    destruct r as [|d1 [|d2 r]]; try reflexivity. now rewrite H. }
  destruct s as [|a r1]; [reflexivity|]. cbn [all_chars time_pattern].
  intros H. apply andb_true_iff in H as [_ H].
  destruct (isdigit a); [|reflexivity].
  rewrite (T r1 H).
  destruct r1 as [|b r2]; [reflexivity|].
  cbn [all_chars] in H. apply andb_true_iff in H as [_ H].
  rewrite (T r2 H). now destruct (isdigit b).
Qed.

Lemma re_findall_no_colon s : forall prev skip,
  has_no_colon s = true -> re_findall_from time_pattern prev skip s = [].
Proof.
  induction s as [|c s IH]; intros prev skip H; cbn [re_findall_from]; [reflexivity|].
  assert (Hs : has_no_colon s = true).
  { unfold has_no_colon in *. cbn [all_chars] in H. now apply andb_true_iff in H as [_ H]. }
  destruct skip; [rewrite time_pattern_needs_colon by exact H|]; now apply IH.
Qed.

(** X22. A note without a colon holds no time, so the visit-time check
    reports its minor violation. *)
Theorem check_visit_duration_needs_colon note :
  has_no_colon note = true ->
  map category (check_visit_duration note) = ["visit_details"]
  /\ map severity (check_visit_duration note) = ["minor"].
Proof.
  intros H. unfold check_visit_duration, re_findall.
  rewrite re_findall_no_colon by exact H. now cbn.
Qed.
End RulesMore.

(** * Model responses *)
Section ParseFacts.
Import PyStr Validator LLMChain.

Lemma nonempty_true s : nonempty s = true -> s <> "".
Proof. now intros H ->. Qed.

Lemma parse_line_violations st line v :
  In v (violations (parse_line st line)) ->
  In v (violations st)
  \/ (let d := strip line in
      category v = "General"
      /\ In (severity v) ["critical"; "major"; "minor"]
      /\ recommendation v = ""
      /\ guideline_reference v = ""
      /\ description v = d
      /\ d <> ""
      /\ String.prefix "#" d = false
      /\ contains (severity v) (lower d) = true
      /\ (contains "critical" (lower d) = true -> severity v = "critical")
      /\ (contains "major" (lower d) = true ->
          severity v = "critical" \/ severity v = "major")).
Proof.
  unfold parse_line. cbv zeta.
  set (d := strip line).
  destruct (if contains "violation" (lower d) || contains "issue" (lower d)
            then (true, false)
            else if contains "strength" (lower d) || contains "well" (lower d)
                 then (false, true) else (in_violations st, in_strengths st))
    as [iv is_]. cbn [violations].
  destruct (iv && nonempty d && negb (String.prefix "#" d)) eqn:G; [|now left].
  apply andb_true_iff in G as [G Hp]. apply andb_true_iff in G as [_ Hn].
  apply negb_true_iff in Hp. apply nonempty_true in Hn.
  destruct (existsb _ _) eqn:Ex; [|now left].
  rewrite in_app_iff. intros [H|[<-|[]]]; [now left|right].
  cbn [category severity recommendation guideline_reference description].
  cbn [existsb] in Ex.
  destruct (contains "critical" (lower d)) eqn:Ec.
  { repeat match goal with |- _ /\ _ => split end; cbn; auto. }
  destruct (contains "major" (lower d)) eqn:Em.
  { repeat match goal with |- _ /\ _ => split end; cbn; auto; discriminate. }
  cbn in Ex. rewrite orb_false_r in Ex.
  repeat match goal with |- _ /\ _ => split end; cbn; auto; discriminate.
Qed.

Lemma parse_fold_violations (P : Violation -> Prop) all lines : forall st,
  (forall line, In line lines -> In line all) ->
  (forall st line v, In line all ->
     In v (violations (parse_line st line)) -> In v (violations st) \/ P v) ->
  (forall v, In v (violations st) -> P v) ->
  forall v, In v (violations (fold_left parse_line lines st)) -> P v.
Proof.
  induction lines as [|line lines IH]; intros st Hsub Hstep Hst v; cbn [fold_left].
  - apply Hst.
  - apply IH; [intros; apply Hsub; now right|exact Hstep|].
    intros w Hw. destruct (Hstep st line w (Hsub line (or_introl eq_refl)) Hw); auto.
Qed.

Lemma count_severity_nonneg sev vs : (0 <= count_severity sev vs)%Z.
Proof. rewrite count_severity_spec. unfold severity_count. lia. Qed.

Lemma count_severity_le_length sev vs :
  (count_severity sev vs <= Z.of_nat (length vs))%Z.
Proof.
  rewrite count_severity_spec. unfold severity_count.
  pose proof (List.filter_length_le (fun v => String.eqb (severity v) sev) vs). lia.
Qed.

Lemma count_severity_nil sev : count_severity sev [] = 0%Z.
Proof. reflexivity. Qed.

Lemma split_lines_head s :
  exists line rest post, split_lines s = line :: rest /\ s = line ++ post.
Proof.
  induction s as [|c s (l0 & rest & q & E & Hs)]; cbn [split_lines].
  - now exists "", [], "".
  - destruct (Ascii.eqb c "010").
    + now exists "", (split_lines s), (String c s).
    + rewrite E. exists (String c l0), rest, q. split; [reflexivity|].
      cbn. now rewrite <- Hs.
Qed.

Lemma split_lines_contained s : forall line,
  In line (split_lines s) -> contains line s = true.
Proof.
  induction s as [|c s IH]; intros line; cbn [split_lines].
  - intros [<-|[]]. reflexivity.
  - destruct (Ascii.eqb c "010").
    + intros [<-|H]; [now destruct s|].
      apply (contains_append_l line (String c "") s). now apply IH.
    + destruct (split_lines_head s) as (l0 & rest & q & E & Hs). rewrite E in *.
      intros [<-|H].
      * apply contains_iff. exists "", q. cbn. now rewrite <- Hs.
      * apply (contains_append_l line (String c "") s). apply IH. now right.
Qed.

Lemma contains_lower sub a b :
  contains a b = true -> contains sub (lower a) = true ->
  contains sub (lower b) = true.
Proof.
  intros Hab Hs. apply (contains_trans sub (lower a)); [exact Hs|].
  apply contains_iff in Hab as (p & q & ->).
  rewrite !lower_append. apply contains_iff. eauto.
Qed.

Lemma line_word_in_text validation_text line word :
  In line (split_lines validation_text) ->
  contains word (lower (strip line)) = true ->
  contains word (lower validation_text) = true.
Proof.
  intros Hin H. apply (contains_lower word (strip line)); [|exact H].
  apply (contains_trans _ line); [apply strip_contained|now apply split_lines_contained].
Qed.

Lemma parse_line_quiet validation_text st line :
  has_violation_heading validation_text = false ->
  In line (split_lines validation_text) ->
  in_violations st = false -> violations st = [] ->
  in_violations (parse_line st line) = false /\ violations (parse_line st line) = [].
Proof.
  unfold has_violation_heading. intros Hh Hin Hiv Hv.
  apply orb_false_iff in Hh as [H1 H2].
  unfold parse_line. cbv zeta.
  set (d := strip line).
  assert (E1 : contains "violation" (lower d) = false).
  { destruct (contains "violation" (lower d)) eqn:E; [|reflexivity].
    rewrite (line_word_in_text validation_text line _ Hin E) in H1. discriminate. }
  assert (E2 : contains "issue" (lower d) = false).
  { destruct (contains "issue" (lower d)) eqn:E; [|reflexivity].
    rewrite (line_word_in_text validation_text line _ Hin E) in H2. discriminate. }
  rewrite E1, E2. cbn [orb].
  destruct (contains "strength" (lower d) || contains "well" (lower d));
    cbn [violations in_violations andb]; [auto|].
  rewrite Hiv. cbn [andb]. auto.
Qed.

Lemma parse_fold_quiet validation_text lines : forall st,
  has_violation_heading validation_text = false ->
  (forall line, In line lines -> In line (split_lines validation_text)) ->
  in_violations st = false -> violations st = [] ->
  violations (fold_left parse_line lines st) = [].
Proof.
  induction lines as [|line lines IH]; intros st Hh Hsub Hiv Hv; cbn [fold_left].
  - exact Hv.
  - destruct (parse_line_quiet validation_text st line Hh
                (Hsub line (or_introl eq_refl)) Hiv Hv) as [A B].
    apply IH; auto. intros; apply Hsub; now right.
Qed.

Lemma parse_violations_shape validation_text v :
  In v (parsed_violations (_parse_validation_response validation_text)) ->
  parsed_shape validation_text v.
Proof.
  unfold _parse_validation_response. cbv zeta.
  match goal with
  | |- context [fold_left parse_line ?l ?s] => set (st := fold_left parse_line l s)
  end.
  destruct (if _ : bool then _ else _) as [status score]. cbn [parsed_violations].
  subst st. revert v.
  apply (parse_fold_violations (parsed_shape validation_text)
           (split_lines validation_text)); [auto| |intros v []].
  intros st line v Hin Hv.
  destruct (parse_line_violations st line v Hv) as [H|H]; [now left|right].
  cbv zeta in H.
  destruct H as (H1 & H2 & H3 & H4 & H5 & H6 & H7 & H8 & H9 & H10).
  unfold parsed_shape. rewrite H5.
  repeat match goal with |- _ /\ _ => split end; eauto.
Qed.

Lemma py_max_Zmax a b : py_max a b = Z.max a b.
Proof. unfold py_max. destruct (Z.ltb_spec a b); lia. Qed.

Lemma parse_without_heading validation_text :
  has_violation_heading validation_text = false ->
  parsed_violations (_parse_validation_response validation_text) = [].
Proof.
  intros Hh. unfold _parse_validation_response. cbv zeta.
  match goal with
  | |- context [fold_left parse_line ?l ?s] => set (st := fold_left parse_line l s)
  end.
  destruct (if _ : bool then _ else _) as [status score]. cbn [parsed_violations].
  subst st. now apply (parse_fold_quiet validation_text).
Qed.

(** X23. Every violation read from a model response has the category
    General, the most severe of the three severities named on its
    line, the trimmed line as description, and neither recommendation
    nor reference. *)
Theorem parsed_violations_are_general validation_text v :
  In v (parsed_violations (_parse_validation_response validation_text)) ->
  parsed_shape validation_text v.
Proof. apply parse_violations_shape. Qed.

(** X24. The score of a parsed response lies between 0 and 100; the status
    is compliant exactly when no violation was read, and then the
    score is 100; a response that needs review has a score between 50
    and 90; a response without the words violation or issue is
    compliant whatever else it says. *)
Theorem parse_validation_response_score validation_text :
  let result := _parse_validation_response validation_text in
  (0 <= parsed_score result <= 100)%Z
  /\ In (parsed_status result) ["non_compliant"; "needs_review"; "compliant"]
  /\ (parsed_status result = "compliant" <-> parsed_violations result = [])
  /\ (parsed_status result = "compliant" -> parsed_score result = 100%Z)
  /\ (parsed_status result = "needs_review" -> (50 <= parsed_score result <= 90)%Z)
  /\ (has_violation_heading validation_text = false ->
      parsed_status result = "compliant").
Proof.
  cbv zeta.
  assert (Hq : has_violation_heading validation_text = false ->
               parsed_violations (_parse_validation_response validation_text) = [])
    by apply parse_without_heading.
  revert Hq.
  unfold _parse_validation_response. cbv zeta.
  match goal with
  | |- context [fold_left parse_line ?l ?s] => set (st := fold_left parse_line l s)
  end.
  pose proof (count_severity_nonneg "critical" (violations st)) as Hc.
  pose proof (count_severity_nonneg "major" (violations st)) as Hm.
  rewrite !py_max_Zmax.
  destruct ((0 <? count_severity "critical" (violations st))%Z
            || (2 <? count_severity "major" (violations st))%Z) eqn:E1;
    cbn [parsed_score parsed_status parsed_violations]; intros Hq.
  - assert (Hne : violations st <> []).
    { intros E. rewrite E in E1. discriminate. }
    repeat match goal with |- _ /\ _ => split end;
      first [ lia | discriminate | (cbn; now auto)
            | (split; [discriminate|congruence])
            | (intros Hh; now destruct (Hne (Hq Hh))) ].
  - destruct (0 <? Z.of_nat (length (violations st)))%Z eqn:E3;
      cbn [parsed_score parsed_status parsed_violations] in *.
    + apply Z.ltb_lt in E3.
      assert (Hne : violations st <> []).
      { intros E. rewrite E in E3. cbn in E3. lia. }
      repeat match goal with |- _ /\ _ => split end;
        first [ lia | discriminate | (cbn; now auto)
              | (split; [discriminate|congruence]) | (intros; lia)
              | (intros Hh; now destruct (Hne (Hq Hh))) ].
    + apply Z.ltb_ge in E3.
      assert (He : violations st = []).
      { destruct (violations st); [reflexivity|cbn in E3; lia]. }
      repeat match goal with |- _ /\ _ => split end;
        first [ lia | discriminate | (cbn; now auto)
              | (split; intros; [assumption|reflexivity])
              | (intros; reflexivity) ].
Qed.

End ParseFacts.

(** * Prompts *)
Section PromptFacts.
Import PyStr Prompts.

Lemma contains_middle pre s post : contains s (pre ++ s ++ post) = true.
Proof. apply contains_iff. eauto. Qed.

Lemma contains_block_in_join (f : SemanticSearch.SearchResult -> string) sub g gs :
  In g gs -> contains sub (f g) = true ->
  contains sub (join separator (map f gs)) = true.
Proof.
  intros Hin Hsub. apply (contains_trans _ (f g)); [exact Hsub|].
  apply contains_join. now apply in_map.
Qed.

(** X25. The user prompt for a validation carries the whole note and, for
    every guideline, its section header, its page number and its
    whole text; the user prompt for a question carries the question
    and every context text with its page number. *)
Theorem prompts_carry_their_inputs note_text question chunks :
  let validation := snd (format_validation_prompt note_text chunks) in
  let qa := snd (format_qa_prompt question chunks) in
  contains note_text validation = true
  /\ contains question qa = true
  /\ forall chunk, In chunk chunks ->
       contains (SemanticSearch.text chunk) validation = true
       /\ contains ("[Section: " ++ SemanticSearch.section_header chunk ++ " - Page "
                    ++ str_of_page (SemanticSearch.page_number chunk) ++ "]") validation
          = true
       /\ contains (SemanticSearch.text chunk) qa = true
       /\ contains ("[Source: Page " ++ str_of_page (SemanticSearch.page_number chunk)
                    ++ "]") qa = true.
Proof.
  cbv zeta. unfold format_validation_prompt, format_qa_prompt. cbn [snd].
  unfold VALIDATION_USER_PROMPT, QA_USER_PROMPT.
  split; [apply contains_middle|].
  split.
  { match goal with
    | |- contains _ (?a ++ ?b ++ ?c ++ ?q ++ ?d) = true =>
        rewrite <- (append_assoc' b c (q ++ d)), <- (append_assoc' a (b ++ c) (q ++ d))
    end.
    apply contains_middle. }
  intros chunk Hin.
  repeat match goal with |- _ /\ _ => split end.
  - match goal with
    | |- contains _ (?a ++ ?n ++ ?b ++ ?g ++ ?c) = true =>
        rewrite <- (append_assoc' n b (g ++ c)), <- (append_assoc' a (n ++ b) (g ++ c))
    end.
    apply (contains_trans _ (join separator (map guideline_block chunks)));
      [|apply contains_middle].
    apply (contains_block_in_join guideline_block _ chunk); [exact Hin|].
    unfold guideline_block.
    repeat apply contains_append_l. apply contains_refl.
  - match goal with
    | |- contains _ (?a ++ ?n ++ ?b ++ ?g ++ ?c) = true =>
        rewrite <- (append_assoc' n b (g ++ c)), <- (append_assoc' a (n ++ b) (g ++ c))
    end.
    apply (contains_trans _ (join separator (map guideline_block chunks)));
      [|apply contains_middle].
    apply (contains_block_in_join guideline_block _ chunk); [exact Hin|].
    unfold guideline_block.
    apply contains_iff. exists "", (newline_str ++ SemanticSearch.text chunk).
    rewrite !append_assoc'. reflexivity.
  - apply (contains_trans _ (join separator (map qa_source chunks)));
      [|apply contains_middle].
    apply (contains_block_in_join qa_source _ chunk); [exact Hin|].
    unfold qa_source.
    repeat apply contains_append_l. apply contains_refl.
  - apply (contains_trans _ (join separator (map qa_source chunks)));
      [|apply contains_middle].
    apply (contains_block_in_join qa_source _ chunk); [exact Hin|].
    unfold qa_source.
    apply contains_iff. exists "", (newline_str ++ SemanticSearch.text chunk).
    rewrite !append_assoc'. reflexivity.
Qed.
End PromptFacts.

(** * The validator pipeline *)
Section ValidateFacts.
Import PyStr PyList Validator.

Lemma merge_all_duplicates lv : forall all,
  (forall v, In v lv -> is_duplicate v all = true) ->
  merge_violations all lv = all.
Proof.
  induction lv as [|v lv IH]; intros all H; cbn [merge_violations]; [reflexivity|].
  rewrite (H v) by now left. apply IH. intros w Hw. apply H. now right.
Qed.

Lemma merge_general rv lv :
  (forall v, In v rv -> category v <> "General") ->
  (forall v, In v lv -> category v = "General") ->
  merge_violations rv lv = reported_violations rv lv.
Proof.
  intros Hr Hl. unfold reported_violations.
  destruct lv as [|v lv]; cbn [merge_violations firstn].
  - now rewrite app_nil_r.
  - assert (Hd : is_duplicate v rv = false).
    { destruct (is_duplicate v rv) eqn:E; [|reflexivity].
      apply is_duplicate_spec, in_map_iff in E as (x & E & Hx).
      destruct (Hr x Hx). rewrite E. apply Hl. now left. }
    rewrite Hd. apply merge_all_duplicates.
    intros w Hw. apply is_duplicate_spec. rewrite map_app. apply in_or_app. right.
    cbn. left. transitivity "General"; [apply Hl; now left|symmetry; apply Hl; now right].
Qed.

Lemma llm_lists_general response v :
  In v (fst (llm_lists response)) -> category v = "General".
Proof.
  destruct response as [[t|]|e]; cbn [llm_lists fst]; try now intros [].
  intros H. now destruct (parse_violations_shape t v H).
Qed.

Lemma combine_results_references rule llm guidelines (h : heap) res h' :
  _combine_results rule llm guidelines h = Some (res, h') ->
  guideline_references res = map guideline_reference_of (slice_to 3 guidelines).
Proof.
  unfold _combine_results, bind.
  destruct (combine_violations rule llm h) as [[[a merged] h1]|]; [|discriminate].
  destruct (collect_strengths llm merged h1) as [[[s strs] h2]|]; [|discriminate].
  unfold ret. intros E. injection E as <- _. reflexivity.
Qed.

Lemma substring_length n : forall s,
  String.length (substring 0 n s) = Nat.min n (String.length s).
Proof.
  induction n as [|n IH]; intros [|c s]; cbn; auto.
Qed.

Lemma append_length a b :
  String.length (a ++ b) = String.length a + String.length b.
Proof. induction a as [|c a IH]; cbn; auto. Qed.

Lemma reported_violations_NoDup rv lv :
  NoDup (map category rv) ->
  (forall v, In v rv -> category v <> "General") ->
  (forall v, In v lv -> category v = "General") ->
  NoDup (map category (reported_violations rv lv)).
Proof.
  intros N Hr Hl. unfold reported_violations. rewrite map_app.
  apply NoDup_app. split; [exact N|]. split.
  - intros c Hc Hin. apply list_elem_of_In in Hc, Hin.
    apply in_map_iff in Hc as (x & <- & Hx).
    apply in_map_iff in Hin as (y & E & Hy).
    apply (Hr x Hx). rewrite <- E. apply Hl.
    apply list_elem_of_In. eapply elem_of_sublist; [apply list_elem_of_In, Hy|].
    apply sublist_take.
  - destruct lv as [|v lv]; cbn; [constructor|apply NoDup_singleton].
Qed.

Lemma count_critical_positive vs v :
  In v vs -> severity v = "critical" -> (0 < count_severity "critical" vs)%Z.
Proof.
  intros Hin Hs. rewrite count_severity_spec. unfold severity_count.
  assert (H : In v (List.filter (fun v => String.eqb (severity v) "critical") vs)).
  { apply filter_In. split; [exact Hin|]. now rewrite Hs. }
  destruct (List.filter _ vs); [destruct H|cbn; lia].
Qed.

Section Pipeline.
Variable generate_single_embedding : string -> option (list Q).
Variable vector_store_search :
  list Q -> Z -> option (list (string * string)) -> outcome SemanticSearch.RawResults.
Variable chat_completion : string -> string -> outcome (option string).
Variable error_text : exn -> string.

(** The chain creates its two lists anew. *)
Lemma llm_validate_note_run note_text guidelines (h : heap) :
  let lists := llm_lists (response_for chat_completion note_text guidelines) in
  exists llm_result,
    LLMChain.validate_note chat_completion error_text note_text guidelines h
    = Some (llm_result, (h ++ [ViolationList (fst lists); StrList (snd lists)])%list)
    /\ llm_violations llm_result = Some (length h)
    /\ llm_strengths llm_result = Some (S (length h)).
Proof.
  unfold LLMChain.validate_note, response_for.
  destruct (Prompts.format_validation_prompt note_text guidelines) as [sp up].
  destruct (chat_completion sp up) as [[t|]|e]; cbn [llm_lists fst snd];
    unfold LLMChain.error_result, bind, new_list, ret;
    rewrite <- app_assoc; cbn [app]; eexists; (split; [reflexivity|]);
    cbn [llm_violations llm_strengths]; rewrite length_app; cbn [length];
    split; f_equal; lia.
Qed.

Lemma validate_run (use_rules : bool) note_text n_guidelines guidelines (h : heap) :
  SemanticSearch.search generate_single_embedding vector_store_search
    (NoteValidator._create_search_query note_text) n_guidelines None
  = Return guidelines ->
  let rule_violations := if use_rules then Rules.validate_note note_text else [] in
  let lists := llm_lists (response_for chat_completion note_text guidelines) in
  let merged := reported_violations rule_violations (fst lists) in
  let critical_count := count_severity "critical" merged in
  let major_count := count_severity "major" merged in
  let minor_count := count_severity "minor" merged in
  let score := compute_score critical_count major_count minor_count in
  exists run res h',
    NoteValidator.validate generate_single_embedding vector_store_search
      chat_completion error_text use_rules note_text n_guidelines = Return run
    /\ run h = Some (res, h')
    /\ violations_at h' (violations res) = Some merged
    /\ strs_at h' (strengths res) = Some (snd lists ++ affirmations merged)%list
    /\ overall_score res = score
    /\ status res = determine_status critical_count major_count score
    /\ guideline_references res = map guideline_reference_of (firstn 3 guidelines)
    /\ (forall l, l < length h -> h' !! l = h !! l).
Proof.
  intros Hs rule_violations lists merged critical_count major_count minor_count score.
  unfold NoteValidator.validate. rewrite Hs. cbn [obind].
  eexists. 
  set (h1 := (h ++ [ViolationList rule_violations])%list).
  destruct (llm_validate_note_run note_text guidelines h1) as (llm & Hllm & Hv & Hst).
  fold lists in Hllm.
  set (h2 := (h1 ++ [ViolationList (fst lists); StrList (snd lists)])%list) in *.
  assert (Hlen1 : length h1 = S (length h)) by (subst h1; rewrite length_app; cbn; lia).
  assert (R : violations_at h2 (length h) = Some rule_violations).
  { unfold violations_at. subst h2 h1. rewrite <- app_assoc. cbn [app].
    now rewrite list_lookup_middle. }
  assert (L : llm_violations_in h2 llm = Some (fst lists)).
  { unfold llm_violations_in. rewrite Hv. unfold violations_at. subst h2.
    now rewrite list_lookup_middle. }
  assert (S_ : llm_strengths_in h2 llm = Some (snd lists)).
  { unfold llm_strengths_in. rewrite Hst. unfold strs_at. subst h2.
    rewrite lookup_app_r by lia. now replace (S (length h1) - length h1) with 1 by lia. }
  destruct (combine_results_run h2 (length h) llm guidelines _ _ _ R L S_)
    as (res & h' & Hrun & _ & Hvs & Hscore & Hstatus & Hstr & Hsame & _ & Hframe).
  assert (M : merge_violations rule_violations (fst lists) = merged).
  { apply merge_general.
    - subst rule_violations. destruct use_rules; [|intros ? []].
      apply validate_note_not_general.
    - apply llm_lists_general. }
  rewrite M in *. fold critical_count major_count minor_count score in Hscore, Hstatus.
  exists res, h'. split; [reflexivity|].
  split.
  { unfold bind at 1, new_list. cbv beta iota. unfold bind at 1.
    unfold h1, rule_violations in Hllm. rewrite Hllm. exact Hrun. }
  repeat match goal with |- _ /\ _ => split end; auto.
  { rewrite (combine_results_references _ _ _ _ _ _ Hrun).
    now rewrite slice_to_firstn by lia. }
  intros l Hl. rewrite Hframe.
  - subst h2 h1. rewrite <- app_assoc. now apply lookup_app_l.
  - subst h2. rewrite length_app. lia.
  - rewrite (Hsame _ Hst). lia.
Qed.

(** X26. When the search answers, [validate] returns; the report lists
    the rule violations in their order, then at most one more, the
    first violation read from the model response; no category is
    listed twice; the strengths are those read from the response,
    followed by the two affirmations when nothing is reported; the
    score lies between 0 and 100; no list object of the caller is
    touched. *)
Theorem validate_reports_rules_then_model (use_rules : bool)
    note_text n_guidelines guidelines (h : heap) :
  SemanticSearch.search generate_single_embedding vector_store_search
    (NoteValidator._create_search_query note_text) n_guidelines None
  = Return guidelines ->
  let rule_violations := if use_rules then Rules.validate_note note_text else [] in
  let lists := llm_lists (response_for chat_completion note_text guidelines) in
  let merged := (rule_violations ++ firstn 1 (fst lists))%list in
  exists run res h',
    NoteValidator.validate generate_single_embedding vector_store_search
      chat_completion error_text use_rules note_text n_guidelines = Return run
    /\ run h = Some (res, h')
    /\ violations_at h' (violations res) = Some merged
    /\ NoDup (map category merged)
    /\ strs_at h' (strengths res) = Some (snd lists ++ affirmations merged)%list
    /\ (0 <= overall_score res <= 100)%Z
    /\ (forall l, l < length h -> h' !! l = h !! l).
Proof.
  intros Hs rule_violations lists merged.
  destruct (validate_run use_rules note_text n_guidelines guidelines h Hs)
    as (run & res & h' & Hv & Hrun & Hvs & Hstr & Hscore & _ & _ & Hframe).
  exists run, res, h'.
  repeat match goal with |- _ /\ _ => split end; auto.
  - apply reported_violations_NoDup.
    + subst rule_violations. destruct use_rules; [|constructor].
      eapply sublist_NoDup; [apply RULE_CATEGORIES_NoDup|].
      apply validate_note_categories_sublist.
    + subst rule_violations. destruct use_rules; [|intros ? []].
      apply validate_note_not_general.
    + apply llm_lists_general.
  - rewrite Hscore. unfold compute_score. rewrite py_max_Zmax. lia.
  - rewrite Hscore. unfold compute_score. rewrite py_max_Zmax.
    match goal with
    | |- context [count_severity "critical" ?m] =>
        pose proof (count_severity_nonneg "critical" m);
        pose proof (count_severity_nonneg "major" m);
        pose proof (count_severity_nonneg "minor" m)
    end.
    lia.
Qed.

(** X27. With the rules on, a note that mentions none of the homebound
    phrases is reported as non-compliant with a score of at most 70,
    whatever the model answers. *)
Theorem validate_without_homebound_non_compliant
    note_text n_guidelines guidelines (h : heap) :
  SemanticSearch.search generate_single_embedding vector_store_search
    (NoteValidator._create_search_query note_text) n_guidelines None
  = Return guidelines ->
  (forall keyword, In keyword Rules.HOMEBOUND_KEYWORDS -> ~ mentions note_text keyword) ->
  exists run res h',
    NoteValidator.validate generate_single_embedding vector_store_search
      chat_completion error_text true note_text n_guidelines = Return run
    /\ run h = Some (res, h')
    /\ status res = "non_compliant"
    /\ (overall_score res <= 70)%Z.
Proof.
  intros Hs Hk.
  destruct (validate_run true note_text n_guidelines guidelines h Hs)
    as (run & res & h' & Hv & Hrun & _ & _ & Hscore & Hstatus & _).
  exists run, res, h'. split; [exact Hv|]. split; [exact Hrun|].
  set (merged := reported_violations (Rules.validate_note note_text)
                   (fst (llm_lists (response_for chat_completion note_text guidelines)))) in *.
  assert (Hc : (0 < count_severity "critical" merged)%Z).
  { destruct (Rules.check_homebound_status note_text) as [|v l] eqn:E.
    - apply check_homebound_status_spec in E as (k & Hin & Hm). now destruct (Hk k Hin).
    - assert (Hv' : In v (Rules.check_homebound_status note_text)) by (rewrite E; now left).
      apply (count_critical_positive merged v).
      + subst merged. unfold reported_violations, Rules.validate_note. cbn [app].
        rewrite !in_app_iff. auto.
      + unfold Rules.check_homebound_status in Hv'.
        destruct (negb _); [|destruct Hv']. now destruct Hv' as [<-|[]]. }
  split.
  - rewrite Hstatus. unfold determine_status.
    apply Z.ltb_lt in Hc. now rewrite Hc.
  - rewrite Hscore. unfold compute_score. rewrite py_max_Zmax.
    pose proof (count_severity_nonneg "major" merged).
    pose proof (count_severity_nonneg "minor" merged). lia.
Qed.

(** X28. When the completion call raises or gives no content, the failure
    is not reported: the result holds exactly the rule violations,
    and a note that passes the rules is reported compliant with score
    100 and the two affirmations. *)
Theorem validate_completion_failure_rules_only (use_rules : bool)
    note_text n_guidelines guidelines (h : heap) :
  SemanticSearch.search generate_single_embedding vector_store_search
    (NoteValidator._create_search_query note_text) n_guidelines None
  = Return guidelines ->
  (forall content, response_for chat_completion note_text guidelines
                   <> Return (Some content)) ->
  let rule_violations := if use_rules then Rules.validate_note note_text else [] in
  exists run res h',
    NoteValidator.validate generate_single_embedding vector_store_search
      chat_completion error_text use_rules note_text n_guidelines = Return run
    /\ run h = Some (res, h')
    /\ violations_at h' (violations res) = Some rule_violations
    /\ strs_at h' (strengths res) = Some (affirmations rule_violations)
    /\ (rule_violations = [] ->
        status res = "compliant" /\ overall_score res = 100%Z).
Proof.
  intros Hs Hf rule_violations.
  destruct (validate_run use_rules note_text n_guidelines guidelines h Hs)
    as (run & res & h' & Hv & Hrun & Hvs & Hstr & Hscore & Hstatus & _).
  exists run, res, h'. split; [exact Hv|]. split; [exact Hrun|].
  assert (E : llm_lists (response_for chat_completion note_text guidelines) = ([], [])).
  { destruct (response_for chat_completion note_text guidelines) as [[t|]|e];
      [now destruct (Hf t)|reflexivity|reflexivity]. }
  rewrite E in *. cbn [fst snd] in *.
  unfold reported_violations in *. cbn [firstn] in *. rewrite app_nil_r in *.
  fold rule_violations in Hvs, Hstr, Hscore, Hstatus.
  repeat match goal with |- _ /\ _ => split end; auto.
  intros E0. rewrite Hstatus, Hscore, E0. split; reflexivity.
Qed.

(** X29. A failed query embedding is not an error for [validate], which
    then reports without guideline references; an error of the index
    ends [validate] with the same error. *)
Theorem validate_search_outcomes (use_rules : bool) note_text n_guidelines (h : heap) :
  let query := NoteValidator._create_search_query note_text in
  (generate_single_embedding query = None ->
   exists run res h',
     NoteValidator.validate generate_single_embedding vector_store_search
       chat_completion error_text use_rules note_text n_guidelines = Return run
     /\ run h = Some (res, h')
     /\ guideline_references res = [])
  /\ (forall embedding e,
        generate_single_embedding query = Some embedding ->
        vector_store_search embedding n_guidelines None = Raise e ->
        NoteValidator.validate generate_single_embedding vector_store_search
          chat_completion error_text use_rules note_text n_guidelines = Raise e).
Proof.
  intros query. split.
  - intros He.
    assert (Hs : SemanticSearch.search generate_single_embedding vector_store_search
                   query n_guidelines None = Return []).
    { unfold SemanticSearch.search. now rewrite He. }
    destruct (validate_run use_rules note_text n_guidelines [] h Hs)
      as (run & res & h' & Hv & Hrun & _ & _ & _ & _ & Hrefs & _).
    now exists run, res, h'.
  - intros embedding e He Hr. unfold NoteValidator.validate, SemanticSearch.search.
    fold query. now rewrite He, Hr.
Qed.

(** X30. The result cites the first three guidelines found, in their
    order; each citation is the first 200 characters of the guideline
    text followed by three dots, also when the text is shorter. *)
Theorem validate_cites_first_three (use_rules : bool)
    note_text n_guidelines guidelines (h : heap) :
  SemanticSearch.search generate_single_embedding vector_store_search
    (NoteValidator._create_search_query note_text) n_guidelines None
  = Return guidelines ->
  exists run res h',
    NoteValidator.validate generate_single_embedding vector_store_search
      chat_completion error_text use_rules note_text n_guidelines = Return run
    /\ run h = Some (res, h')
    /\ length (guideline_references res) = Nat.min 3 (length guidelines)
    /\ (forall i r, guideline_references res !! i = Some r ->
         exists g, guidelines !! i = Some g
           /\ ref_text r = substring 0 200 (SemanticSearch.text g) ++ "..."
           /\ String.length (ref_text r)
              = Nat.min 200 (String.length (SemanticSearch.text g)) + 3
           /\ ref_page_number r = SemanticSearch.page_number g
           /\ ref_section_header r = SemanticSearch.section_header g).
Proof.
  intros Hs.
  destruct (validate_run use_rules note_text n_guidelines guidelines h Hs)
    as (run & res & h' & Hv & Hrun & _ & _ & _ & _ & Hrefs & _).
  exists run, res, h'. split; [exact Hv|]. split; [exact Hrun|].
  rewrite Hrefs. split.
  - now rewrite length_map, length_firstn.
  - intros i r Hi. rewrite list_lookup_fmap in Hi.
    destruct (firstn 3 guidelines !! i) as [g|] eqn:Eg; [|discriminate].
    injection Hi as <-. exists g. split.
    { rewrite lookup_take_Some in Eg. tauto. }
    unfold guideline_reference_of.
    cbn [ref_text ref_page_number ref_section_header].
    repeat match goal with |- _ /\ _ => split end; auto.
    rewrite append_length, substring_length. reflexivity.
Qed.

End Pipeline.
End ValidateFacts.

(** * Instances *)
Section ChunkerInstances.
Import PyStr PyList Chunker.

Lemma split_parts_trimmed_witness :
  "Second one." <> ""
  /\ strip "Second one." = "Second one."
  /\ contains "Second one." ("First paragraph." ++ blank_line ++ "Second one.") = true.
Proof.
  apply (split_parts_trimmed ("First paragraph." ++ blank_line ++ "Second one.")
           "Second one.").
  left. vm_compute. right. left. reflexivity.
Defined.

Lemma chunk_documents_header_prefix_witness :
  String.prefix (header_context_of (section_header headed_page_chunk))
                (text headed_page_chunk) = true.
Proof.
  apply (chunk_documents_header_prefix word_encode word_decode small_chunker
           [headed_page] headed_page_chunk).
  vm_compute. constructor.
Defined.

Lemma blank_pages_give_no_chunk_witness :
  chunk_documents word_encode word_decode small_chunker [blank_page] = [].
Proof.
  apply blank_pages_give_no_chunk.
  intros page_data [<-|[]]. reflexivity.
Defined.

Lemma paragraphs_fitting_give_one_chunk_witness :
  _create_chunks_from_paragraphs word_encode word_decode roomy_chunker
    ["one two"; "three"] 1 ""
  = [header_context_of "" ++ join " " ["one two"; "three"]].
Proof.
  apply paragraphs_fitting_give_one_chunk. vm_compute. discriminate.
Defined.

Lemma unsplittable_paragraph_emitted_whole_witness :
  _create_chunks_from_paragraphs word_encode word_decode small_chunker
    ["one two three four five six"] 1 ""
  = [header_context_of "" ++ "one two three four five six"].
Proof.
  apply unsplittable_paragraph_emitted_whole; reflexivity.
Defined.

Lemma get_overlap_text_last_tokens_witness :
  let combined := join " " ["one two"; "three"] in
  let tokens := word_encode combined in
  ((Z.of_nat (length tokens) <= chunk_overlap roomy_chunker)%Z ->
   _get_overlap_text word_encode word_decode roomy_chunker ["one two"; "three"]
   = combined)
  /\ ((chunk_overlap roomy_chunker < Z.of_nat (length tokens))%Z ->
      exists dropped kept,
        tokens = (dropped ++ kept)%list
        /\ Z.of_nat (length kept) = chunk_overlap roomy_chunker
        /\ _get_overlap_text word_encode word_decode roomy_chunker ["one two"; "three"]
           = word_decode kept).
Proof.
  apply (get_overlap_text_last_tokens word_encode word_decode roomy_chunker
           "one two" ["three"]).
  vm_compute. discriminate.
Defined.

Lemma paragraphs_never_dropped_witness :
  let found := _create_chunks_from_paragraphs word_encode word_decode small_chunker
                 ["one two three"; "four five six"] 1 "" in
  let budget := (chunk_size small_chunker - header_tokens_of word_encode "")%Z in
  ((_count_tokens word_encode "four five six" <= budget)%Z ->
   exists chunk_text, In chunk_text found /\ contains "four five six" chunk_text = true)
  /\ ((budget < _count_tokens word_encode "four five six")%Z ->
      forall sentence, In sentence (_split_into_sentences "four five six") ->
        exists chunk_text, In chunk_text found /\ contains sentence chunk_text = true).
Proof.
  apply (paragraphs_never_dropped word_encode word_decode small_chunker
           ["one two three"; "four five six"] 1 "" "four five six").
  right. left. reflexivity.
Defined.

End ChunkerInstances.

Section RetrievalInstances.
Import PyStr PyList SemanticSearch.

Lemma format_results_ranked_witness :
  exists formatted,
    _format_results ranked_raw_results = Return formatted /\ sorted_desc formatted.
Proof.
  apply (format_results_ranked ranked_raw_results
           ["Homebound criteria"; "Skilled nursing visits"; "Plan of care"] []
           [(1 # 10)%Q; (4 # 5)%Q] []);
    [reflexivity | discriminate | reflexivity |].
  apply SSorted_cons;
    [apply SSorted_cons; [apply SSorted_nil | apply List.Forall_nil]
    |apply List.Forall_cons; [vm_compute; discriminate | apply List.Forall_nil]].
Defined.

Lemma format_results_fields_witness :
  exists formatted,
    _format_results sample_raw_results = Return formatted
    /\ map text formatted
       = ["Homebound criteria"; "Skilled nursing visits"; "Plan of care"]
    /\ forall i r, formatted !! i = Some r ->
         let listed := match metadatas sample_raw_results with
                       | Some (metadatas0 :: _) => metadatas0 !! i
                       | _ => None
                       end in
         match listed with
         | Some metadata =>
             page_number r = md_page_number metadata
             /\ section_header r = default "" (md_section_header metadata)
             /\ chunk_id r = md_chunk_id metadata
         | None => page_number r = None /\ section_header r = "" /\ chunk_id r = None
         end.
Proof.
  apply (format_results_fields sample_raw_results
           ["Homebound criteria"; "Skilled nursing visits"; "Plan of care"] []);
    [reflexivity | discriminate | discriminate].
Defined.

End RetrievalInstances.

Section EmbedderInstances.
Import PyStr PyList Embedder.

Lemma generate_embeddings_by_batch_witness :
  exists out,
    generate_embeddings length_embedder 2 sample_embedded_chunks = Return out
    /\ map chunk out = map chunk sample_embedded_chunks
    /\ forall k c, out !! k = Some c ->
         exists original,
           sample_embedded_chunks !! k = Some original
           /\ match length_embedder (batch_texts 2 sample_embedded_chunks k) with
              | Return data =>
                  exists e, data !! (k - batch_start 2 k) = Some e
                            /\ embedding c = Some (Some e)
              | Raise _ => embedding c = Some (default None (embedding original))
              end.
Proof.
  apply (generate_embeddings_by_batch length_embedder 2); [reflexivity|].
  intros texts data H. injection H as <-. apply length_map.
Defined.

End EmbedderInstances.

Section RulesInstances.
Import PyStr Rules.

Lemma check_required_elements_iff_witness :
  In (missing_element "visit_date") (check_required_elements sample_note)
  <-> forall keyword, In keyword ["date"] -> ~ mentions sample_note keyword.
Proof.
  apply (check_required_elements_iff sample_note "visit_date" ["date"]).
  right. left. reflexivity.
Defined.

Lemma check_visit_duration_needs_colon_witness :
  map category (check_visit_duration note_without_homebound) = ["visit_details"]
  /\ map severity (check_visit_duration note_without_homebound) = ["minor"].
Proof.
  apply check_visit_duration_needs_colon. reflexivity.
Defined.

End RulesInstances.

Section ValidatorInstances.
Import PyStr PyList Validator.

Lemma parsed_violations_are_general_witness :
  parsed_shape sample_response sample_parsed_violation.
Proof.
  apply parsed_violations_are_general. vm_compute. left. reflexivity.
Defined.

Lemma validate_reports_rules_then_model_witness :
  let rule_violations := Rules.validate_note sample_note in
  let lists :=
    llm_lists (response_for (constant_completion sample_response) sample_note
                 sample_results) in
  let merged := (rule_violations ++ firstn 1 (fst lists))%list in
  exists run res h',
    NoteValidator.validate constant_embedder sample_store
      (constant_completion sample_response) message_of true sample_note 7
    = Return run
    /\ run [] = Some (res, h')
    /\ violations_at h' (violations res) = Some merged
    /\ NoDup (map category merged)
    /\ strs_at h' (strengths res) = Some (snd lists ++ affirmations merged)%list
    /\ (0 <= overall_score res <= 100)%Z
    /\ (forall l, l < length (@nil pylist) -> h' !! l = (@nil pylist) !! l).
Proof.
  apply (validate_reports_rules_then_model constant_embedder sample_store
           (constant_completion sample_response) message_of true sample_note 7
           sample_results []).
  reflexivity.
Defined.

Lemma validate_without_homebound_non_compliant_witness :
  exists run res h',
    NoteValidator.validate constant_embedder sample_store
      (constant_completion sample_response) message_of true
      note_without_homebound 7
    = Return run
    /\ run [] = Some (res, h')
    /\ status res = "non_compliant"
    /\ (overall_score res <= 70)%Z.
Proof.
  apply (validate_without_homebound_non_compliant constant_embedder sample_store
           (constant_completion sample_response) message_of
           note_without_homebound 7 sample_results []).
  - reflexivity.
  - intros keyword Hin Hm. apply contains_lower_iff in Hm.
    vm_compute in Hin.
    repeat (destruct Hin as [<-|Hin]; [vm_compute in Hm; discriminate Hm|]).
    destruct Hin.
Defined.

Lemma validate_completion_failure_rules_only_witness :
  let rule_violations := Rules.validate_note sample_note in
  exists run res h',
    NoteValidator.validate constant_embedder sample_store
      failing_completion message_of true sample_note 7
    = Return run
    /\ run [] = Some (res, h')
    /\ violations_at h' (violations res) = Some rule_violations
    /\ strs_at h' (strengths res) = Some (affirmations rule_violations)
    /\ (rule_violations = [] ->
        status res = "compliant" /\ overall_score res = 100%Z).
Proof.
  apply (validate_completion_failure_rules_only constant_embedder sample_store
           failing_completion message_of true sample_note 7 sample_results []).
  - reflexivity.
  - intros content H. vm_compute in H. discriminate H.
Defined.

Lemma validate_cites_first_three_witness :
  exists run res h',
    NoteValidator.validate constant_embedder sample_store
      (constant_completion sample_response) message_of true sample_note 7
    = Return run
    /\ run [] = Some (res, h')
    /\ length (guideline_references res) = Nat.min 3 (length sample_results)
    /\ (forall i r, guideline_references res !! i = Some r ->
         exists g, sample_results !! i = Some g
           /\ ref_text r = substring 0 200 (SemanticSearch.text g) ++ "..."
           /\ String.length (ref_text r)
              = Nat.min 200 (String.length (SemanticSearch.text g)) + 3
           /\ ref_page_number r = SemanticSearch.page_number g
           /\ ref_section_header r = SemanticSearch.section_header g).
Proof.
  apply (validate_cites_first_three constant_embedder sample_store
           (constant_completion sample_response) message_of true sample_note 7
           sample_results []).
  reflexivity.
Defined.

End ValidatorInstances.
